(** * AiNed bit grid, masked commits and the Lights-Out cross flip

    A shallow embedding of [ained.c] and [mod_lightsout.c]: the handle
    [struct ained] is a record, the memory-mapped grid a list of 128 words,
    every C function a state-passing function of the same name.  Functions that
    index the grid run in a small state-and-failure monad whose failure is an
    access outside the 128 words. *)

From Stdlib Require Import ZArith Lia Bool List Floats.
From stdpp Require Import base option list.

Local Open Scope Z_scope.

(** ** Machine arithmetic *)

(** [uint32_t] arithmetic wraps modulo 2^32. *)
Definition u32 (z : Z) : Z := z mod 2 ^ 32.

(** Conversion of a [uint32_t] to the [int32_t] field [handle->index]. *)
Definition to_int32 (z : Z) : Z :=
  if u32 z <? 2 ^ 31 then u32 z else u32 z - 2 ^ 32.

(** All-ones 64-bit word, [(uint64_t)0xFFFFFFFFFFFFFFFF]. *)
Definition ones64 : Z := 2 ^ 64 - 1.

(** [~x] on a [uint64_t]. *)
Definition not64 (x : Z) : Z := Z.lxor x ones64.

(** [((uint64_t)1) << id]; every [id] the code computes is below 64. *)
Definition bit64 (id : Z) : Z := Z.shiftl 1 id.

(** ** BitGrid addressing *)

Definition bsize : Z := 8.
Definition num_words : Z := 128.

Definition ained_get_index (rows columns : Z) : Z :=
  let y := rows / bsize in
  let x := columns / bsize in
  u32 (y * 8 + x).

Definition ained_get_word_index (rows columns : Z) : Z :=
  let r := rows mod bsize in
  let c := columns mod bsize in
  u32 (r * 8 + c).

(** The pair the spec calls [to_physical]. *)
Definition to_physical (row col : Z) : Z * Z :=
  (ained_get_index row col, ained_get_word_index row col).

(** A logical coordinate of the 128 x 64 grid. *)
Definition valid_coord (row col : Z) : Prop :=
  0 <= row < 128 /\ 0 <= col < 64.

(** ** The handle

    [struct ained].  The two mapped regions are split by what the code reaches
    through each pointer expression:
    - [reg_mask] is [registers[AINED_REG_MASK_64BIT]], the 64-bit write mask;
    - [reg_coeff] is the block [AINED_REG_COEFF_0 .. AINED_REG_COEFF_11] as the
      48 bytes that [struct coeffs] overlays on it;
    - [reg_bypass] is the 32-bit register [AINED_REG_BYPASS];
    - [reg_dipole] holds the 32-bit registers from [AINED_REG_DIPOLE_OFFSET] to
      the end of the register mapping ([register_addr_len] = 2^13 bytes);
    - [memory] is the grid, [num_words] words of 64 bits.
    [stderr] collects the diagnostics the code prints with [fprintf(stderr, ..)];
    output on [stdout] is not modelled.  A [NULL] handle makes every function
    return at once and is left out: the handle is always present. *)

Inductive diag : Type :=
| CrossWordConflict                       (* Cannot set bit in more then one word in a single commit. *)
| NothingToCommit                         (* Nothing to commit. *)
| OutOfRangeDipole (have requested : Z)   (* Only %u dipoles in the system, requested %u. *)
| OutOfRangeCoeff.                        (* Only 12 coefficients to set. *)

Record ained : Type := mk_ained {
  reg_mask : Z;
  reg_coeff : list Z;
  reg_bypass : Z;
  reg_dipole : list Z;
  memory : list Z;
  num_dipoles : Z;
  index : Z;
  mask : Z;
  value : Z;
  stderr : list diag
}.

Definition set_reg_mask (m : Z) (h : ained) : ained :=
  mk_ained m (reg_coeff h) (reg_bypass h) (reg_dipole h) (memory h)
           (num_dipoles h) (index h) (mask h) (value h) (stderr h).

Definition set_reg_coeff (l : list Z) (h : ained) : ained :=
  mk_ained (reg_mask h) l (reg_bypass h) (reg_dipole h) (memory h)
           (num_dipoles h) (index h) (mask h) (value h) (stderr h).

Definition set_reg_bypass (b : Z) (h : ained) : ained :=
  mk_ained (reg_mask h) (reg_coeff h) b (reg_dipole h) (memory h)
           (num_dipoles h) (index h) (mask h) (value h) (stderr h).

Definition set_reg_dipole (l : list Z) (h : ained) : ained :=
  mk_ained (reg_mask h) (reg_coeff h) (reg_bypass h) l (memory h)
           (num_dipoles h) (index h) (mask h) (value h) (stderr h).

Definition set_memory (l : list Z) (h : ained) : ained :=
  mk_ained (reg_mask h) (reg_coeff h) (reg_bypass h) (reg_dipole h) l
           (num_dipoles h) (index h) (mask h) (value h) (stderr h).

Definition set_index (i : Z) (h : ained) : ained :=
  mk_ained (reg_mask h) (reg_coeff h) (reg_bypass h) (reg_dipole h) (memory h)
           (num_dipoles h) i (mask h) (value h) (stderr h).

Definition set_mask (m : Z) (h : ained) : ained :=
  mk_ained (reg_mask h) (reg_coeff h) (reg_bypass h) (reg_dipole h) (memory h)
           (num_dipoles h) (index h) m (value h) (stderr h).

Definition set_value (v : Z) (h : ained) : ained :=
  mk_ained (reg_mask h) (reg_coeff h) (reg_bypass h) (reg_dipole h) (memory h)
           (num_dipoles h) (index h) (mask h) v (stderr h).

(** [fprintf(stderr, ...)]: the newest diagnostic is the head of the list. *)
Definition report (d : diag) (h : ained) : ained :=
  mk_ained (reg_mask h) (reg_coeff h) (reg_bypass h) (reg_dipole h) (memory h)
           (num_dipoles h) (index h) (mask h) (value h) (d :: stderr h).

(** The mapped arrays have their full length. *)
Definition wf (h : ained) : Prop :=
  length (memory h) = 128%nat /\
  length (reg_dipole h) = 1024%nat /\
  length (reg_coeff h) = 48%nat.

(** The transaction buffer as [ained_init] and [ained_commit] leave it. *)
Definition no_pending (h : ained) : Prop :=
  index h = -1 /\ mask h = 0 /\ value h = 0.

(** ** State and failure

    A computation on the handle either fails, when it indexes a mapped array
    outside its bounds (undefined behaviour in C), or returns a result and the
    next handle. *)

Definition M (A : Type) : Type := ained -> option (A * ained).

Definition ret {A : Type} (a : A) : M A := fun h => Some (a, h).

Definition bind {A B : Type} (c : M A) (k : A -> M B) : M B :=
  fun h => match c h with
           | Some (a, h') => k a h'
           | None => None
           end.

Definition fail {A : Type} : M A := fun _ => None.

Definition modify (f : ained -> ained) : M unit := fun h => Some (tt, f h).

Notation "x <~ c ;; k" := (bind c (fun x => k))
  (at level 100, c at next level, right associativity).
Notation "c ;;> k" := (bind c (fun _ => k))
  (at level 100, right associativity).

(** [for (i = start; i < start + n; i++) a = body(i, a);] *)
Fixpoint for_loop {A : Type} (n : nat) (i : Z) (body : Z -> A -> M A) (a : A) : M A :=
  match n with
  | O => ret a
  | S n' => a' <~ body i a ;; for_loop n' (i + 1) body a'
  end.

(** ** The device

    Modelled from the spec: the FPGA's reaction to a 64-bit store into the grid
    is hardware and is not in the repository.  The spec's contract: only bits
    set in the write-mask register are modified, unmasked bits of the target
    word retain their prior value whatever the stored value holds there. *)
Definition masked_word (old m v : Z) : Z :=
  Z.lor (Z.land old (not64 m)) (Z.land v m).

(** [handle->memory[i]] as an rvalue. *)
Definition mem_read (i : Z) : M Z := fun h =>
  if (0 <=? i) && (i <? num_words) then
    match memory h !! Z.to_nat i with
    | Some w => Some (w, h)
    | None => None
    end
  else None.

(** [handle->memory[i] = v]. *)
Definition mem_write (i v : Z) : M unit := fun h =>
  if (0 <=? i) && (i <? num_words) then
    match memory h !! Z.to_nat i with
    | Some old =>
        Some (tt, set_memory (<[Z.to_nat i := masked_word old (reg_mask h) v]> (memory h)) h)
    | None => None
    end
  else None.

(** ** Transaction buffer and bypass ([ained.c]) *)

Definition ained_set_bit (row column val : Z) : M unit := fun h =>
  let index' := ained_get_index row column in
  let id := ained_get_word_index row column in
  if (0 <=? index h) && negb (index' =? u32 (index h)) then
    Some (tt, report CrossWordConflict h)
  else
    let h1 := set_index (to_int32 index') h in
    if negb (val =? 0) then
      Some (tt, set_mask (Z.lor (mask h1) (bit64 id))
                  (set_value (Z.lor (value h1) (bit64 id)) h1))
    else
      Some (tt, set_mask (Z.lor (mask h1) (bit64 id))
                  (set_value (Z.land (value h1) (not64 (bit64 id))) h1)).

Definition ained_commit : M unit := fun h =>
  if index h <? 0 then Some (tt, report NothingToCommit h)
  else
    (modify (set_reg_mask (mask h)) ;;>
     mem_write (index h) (value h) ;;>
     modify (fun h' => set_index (-1) (set_value 0 (set_mask 0 h')))) h.

Definition ained_set_bypass (enable : bool) : M unit :=
  modify (set_reg_bypass (if enable then 1 else 0)) ;;>
  (if enable then modify (set_reg_mask ones64) else modify (set_reg_mask 0)).

Definition ained_clear_memory : M unit :=
  ained_set_bypass true ;;>
  for_loop (Z.to_nat num_words) 0 (fun j _ => mem_write j 0) tt ;;>
  ained_set_bypass false.

Definition ained_get_bit (row col : Z) : M Z :=
  let ofs := ained_get_index row col in
  let id := ained_get_word_index row col in
  w <~ mem_read ofs ;;
  ret (if Z.land w (bit64 id) =? 0 then 0 else 1).

Definition ained_flip_isolated_bit (row col : Z) : M unit :=
  let word_index := ained_get_index row col in
  let bit_index := ained_get_word_index row col in
  w <~ mem_read word_index ;;
  mem_write word_index (Z.lxor w (bit64 bit_index)).

(** ** Lights-Out board ([mod_lightsout.c]) *)

(** [board[i] = v] on the heap array returned by [calloc]. *)
Definition board_store (board : list Z) (i v : Z) : M (list Z) :=
  if (0 <=? i) && (i <? Z.of_nat (length board)) then ret (<[Z.to_nat i := v]> board)
  else fail.

(** [board[i]] as an rvalue. *)
Definition board_load (board : list Z) (i : Z) : M Z :=
  if (0 <=? i) && (i <? Z.of_nat (length board)) then
    match board !! Z.to_nat i with
    | Some v => ret v
    | None => fail
    end
  else fail.

Definition ained_get_board (start_row start_col num_row num_col : Z) : M (list Z) :=
  let board := replicate (Z.to_nat (u32 (num_row * num_col))) 0 in
  for_loop (Z.to_nat num_row) 0 (fun row board =>
    for_loop (Z.to_nat num_col) 0 (fun col board =>
      b <~ ained_get_bit (u32 (start_row + row)) (u32 (start_col + col)) ;;
      board_store board (u32 (num_col * row + col)) b) board) board.

(** The entry test of [ained_flip_lights]. *)
Definition flip_lights_guard (start_row start_col num_row num_col row col : Z) : bool :=
  (row <? start_row) || (u32 (start_row + num_row - 1) <? row)
  || (col <? start_col) || (u32 (start_col + num_col - 1) <? col).

Definition ained_flip_lights (start_row start_col num_row num_col row col : Z) : M unit :=
  if flip_lights_guard start_row start_col num_row num_col row col
  then ret tt
  else
    old_board <~ ained_get_board start_row start_col num_row num_col ;;
    ained_clear_memory ;;>
    ained_set_bit (u32 (start_row + row)) (u32 (start_col + col)) 1 ;;>
    ained_commit ;;>
    _ <~ ained_get_bit 0 0 ;;
    ained_set_bypass true ;;>
    for_loop (Z.to_nat (u32 (num_row * num_col))) 0 (fun i _ =>
      b <~ board_load old_board i ;;
      if b =? 1 then
        ained_flip_isolated_bit (u32 (start_row + i / num_col)) (u32 (start_col + i mod num_col))
      else ret tt) tt ;;>
    (if 0 <? row
     then ained_flip_isolated_bit (u32 (start_row + row - 1)) (u32 (start_col + col))
     else ret tt) ;;>
    (if row <? u32 (num_row - 1)
     then ained_flip_isolated_bit (u32 (start_row + row + 1)) (u32 (start_col + col))
     else ret tt) ;;>
    (if 0 <? col
     then ained_flip_isolated_bit (u32 (start_row + row)) (u32 (start_col + col - 1))
     else ret tt) ;;>
    (if col <? u32 (num_col - 1)
     then ained_flip_isolated_bit (u32 (start_row + row)) (u32 (start_col + col + 1))
     else ret tt) ;;>
    ained_set_bypass false.

(** ** Dipole and coefficient registers ([ained.c]) *)

Definition AINED_REG_DIPOLE_OFFSET : Z := 1024.
Definition AINED_REG_DIPOLE_NUM_REG_PD : Z := 4.

(** Number of 32-bit registers in the register mapping, [register_addr_len / 4]. *)
Definition num_reg32 : Z := 2048.

(** [reg[n]] for a register of the dipole block; any other [n] fails. *)
Definition dipole_reg_read (n : Z) : M Z := fun h =>
  if (AINED_REG_DIPOLE_OFFSET <=? n) && (n <? num_reg32) then
    match reg_dipole h !! Z.to_nat (n - AINED_REG_DIPOLE_OFFSET) with
    | Some v => Some (v, h)
    | None => None
    end
  else None.

(** [reg[n] = v] for a register of the dipole block; any other [n] fails. *)
Definition dipole_reg_write (n v : Z) : M unit := fun h =>
  if (AINED_REG_DIPOLE_OFFSET <=? n) && (n <? num_reg32)
     && (n - AINED_REG_DIPOLE_OFFSET <? Z.of_nat (length (reg_dipole h))) then
    Some (tt, set_reg_dipole (<[Z.to_nat (n - AINED_REG_DIPOLE_OFFSET) := v]> (reg_dipole h)) h)
  else None.

(** Register number [AINED_REG_DIPOLE_OFFSET + dipole * AINED_REG_DIPOLE_NUM_REG_PD + k]. *)
Definition dipole_reg (dipole k : Z) : Z :=
  u32 (AINED_REG_DIPOLE_OFFSET + dipole * AINED_REG_DIPOLE_NUM_REG_PD + k).

(** An out-parameter [uint32_t *s]: [None] is a [NULL] pointer, [Some v] a
    pointer to a cell holding [v]. *)
Definition out_store (s : option Z) (n : Z) : M (option Z) :=
  match s with
  | None => ret None
  | Some _ => v <~ dipole_reg_read n ;; ret (Some v)
  end.

Definition ained_get_dipole_rng (dipole : Z) (s0 s1 s2 : option Z)
  : M (Z * (option Z * option Z * option Z)) := fun h =>
  if num_dipoles h <? dipole then
    Some ((0, (s0, s1, s2)), report (OutOfRangeDipole (num_dipoles h) dipole) h)
  else
    (s0' <~ out_store s0 (dipole_reg dipole 1) ;;
     s1' <~ out_store s1 (dipole_reg dipole 2) ;;
     s2' <~ out_store s2 (dipole_reg dipole 3) ;;
     r <~ dipole_reg_read (dipole_reg dipole 0) ;;
     ret (r, (s0', s1', s2'))) h.

Definition ained_set_dipole_rng (dipole s0 s1 s2 : Z) : M unit := fun h =>
  if num_dipoles h <? dipole then
    Some (tt, report (OutOfRangeDipole (num_dipoles h) dipole) h)
  else
    (dipole_reg_write (dipole_reg dipole 1) s0 ;;>
     dipole_reg_write (dipole_reg dipole 2) s1 ;;>
     dipole_reg_write (dipole_reg dipole 3) s2) h.

(** The 32-bit register [AINED_REG_COEFF_0 + i] read through its four bytes
    (the target is a little-endian ARM core). *)
Definition coeff_reg_read (i : Z) : M Z := fun h =>
  match reg_coeff h !! Z.to_nat (4 * i), reg_coeff h !! Z.to_nat (4 * i + 1),
        reg_coeff h !! Z.to_nat (4 * i + 2), reg_coeff h !! Z.to_nat (4 * i + 3) with
  | Some b0, Some b1, Some b2, Some b3 =>
      Some (b0 + 2 ^ 8 * b1 + 2 ^ 16 * b2 + 2 ^ 24 * b3, h)
  | _, _, _, _ => None
  end.

Definition coeff_reg_write (i v : Z) : M unit := fun h =>
  if 4 * i + 3 <? Z.of_nat (length (reg_coeff h)) then
    Some (tt, set_reg_coeff
                (<[Z.to_nat (4 * i + 3) := (v / 2 ^ 24) mod 2 ^ 8]>
                 (<[Z.to_nat (4 * i + 2) := (v / 2 ^ 16) mod 2 ^ 8]>
                  (<[Z.to_nat (4 * i + 1) := (v / 2 ^ 8) mod 2 ^ 8]>
                   (<[Z.to_nat (4 * i) := v mod 2 ^ 8]> (reg_coeff h))))) h)
  else None.

Definition ained_set_coefficients (idx val : Z) : M unit := fun h =>
  if 11 <? idx then Some (tt, report OutOfRangeCoeff h)
  else coeff_reg_write idx val h.

Definition ained_get_coefficients (idx : Z) : M Z := fun h =>
  if 11 <? idx then Some (0, report OutOfRangeCoeff h)
  else coeff_reg_read idx h.

(** ** Coefficient kernel generator ([ained.c])

    C [double]s are the kernel's binary64 floats.  [fmax], [fmin] and [round]
    are libm's, written out from their C definitions; [pow] is libm's too and
    stays a parameter of the generator. *)

Inductive ained_coeff_t : Type := AINED_COEFF_HIGH | AINED_COEFF_LOW.

(** Conversion of an [int] or [uint32_t] to [double] (exact below 2^53). *)
Definition double_of_int (z : Z) : float :=
  if z <? 0 then (- of_uint63 (Uint63.of_Z (- z)))%float
  else of_uint63 (Uint63.of_Z z).

Definition fmax (x y : float) : float :=
  if is_nan x then y else if is_nan y then x
  else if (x <? y)%float then y else x.

Definition fmin (x y : float) : float :=
  if is_nan x then y else if is_nan y then x
  else if (y <? x)%float then y else x.

(** The integer part of a finite double (rounding toward zero). *)
Definition double_trunc (x : float) : Z :=
  match Prim2SF x with
  | S754_finite s m e =>
      let v := if 0 <=? e then Z.pos m * 2 ^ e else Z.pos m / 2 ^ (- e) in
      if s then - v else v
  | _ => 0
  end.

(** [round]: to the nearest integer, halfway cases away from zero. *)
Definition round (x : float) : float :=
  if is_nan x || is_infinity x || (0x1p52 <=? abs x)%float then x
  else
    let r := double_of_int ((double_trunc (abs x * 2) + 1) / 2) in
    if get_sign x then (- r)%float else r.

(** Conversion of a [double] to [uint8_t]. *)
Definition uint8_of_double (x : float) : Z := double_trunc x mod 2 ^ 8.

(** [for (i = start; i < start + n; i++) a = body(i, a);] without the handle. *)
Fixpoint iter_range {A : Type} (n : nat) (i : Z) (body : Z -> A -> A) (a : A) : A :=
  match n with
  | O => a
  | S n' => iter_range n' (i + 1) body (body i a)
  end.

(** The guard [distance > 0 && distance <= reach]. *)
Definition in_reach (distance : float) (reach : Z) : bool :=
  (0 <? distance)%float && (distance <=? double_of_int reach)%float.

(** The two nested loops; both generators share them and differ in the
    distance only.  [cfs] is uninitialised in C; every field is assigned. *)
Definition kernel_fields (cell : Z -> Z -> Z) : list Z :=
  iter_range 5 0 (fun r cfs =>
    iter_range 5 0 (fun c cfs =>
      let ind := r * 5 + c - 1 in
      let v := cell r c in
      if 0 <=? ind then <[Z.to_nat ind := v]> cfs else cfs) cfs)
    (replicate 24 0).

(** Byte offset of the kernel in the coefficient block:
    [AINED_REG_COEFF_0] for the high kernel, [AINED_REG_COEFF_6] for the low. *)
Definition coeff_offset (co_index : ained_coeff_t) : nat :=
  match co_index with
  | AINED_COEFF_HIGH => 0%nat
  | AINED_COEFF_LOW => 24%nat
  end.

(** [*((coeffs * )&reg[...]) = cfs]. *)
Definition store_coeffs (co_index : ained_coeff_t) (cfs : list Z) : M unit := fun h =>
  if (coeff_offset co_index + length cfs <=? length (reg_coeff h))%nat then
    Some (tt, set_reg_coeff (list_inserts (coeff_offset co_index) cfs (reg_coeff h)) h)
  else None.

Section Kernel.

(** libm's [pow]. *)
Variable pow : float -> float -> float.

Definition coeff_byte (factor distance : float) (reach : Z) : Z :=
  let f := if in_reach distance reach then pow factor distance else 0%float in
  uint8_of_double (fmin (round (f * 256)) 255).

Definition euclidean_distance (r c : Z) : float :=
  fmax 0 (sqrt (double_of_int (r * r + c * c)) - 1).

Definition manhattan_distance (r c : Z) : float :=
  fmax 0 (double_of_int (r + c - 1)).

Definition ained_set_coefficients_euclidean
  (factor : float) (reach : Z) (co_index : ained_coeff_t) : M unit :=
  store_coeffs co_index
    (kernel_fields (fun r c => coeff_byte factor (euclidean_distance r c) reach)).

Definition ained_set_coefficients_manhattan
  (factor : float) (reach : Z) (co_index : ained_coeff_t) : M unit :=
  store_coeffs co_index
    (kernel_fields (fun r c => coeff_byte factor (manhattan_distance r c) reach)).

End Kernel.

(** ** Raw transaction interface and start-up ([ained.c]) *)

Definition ained_set_mask (m : Z) : M unit :=
  modify (fun h => set_reg_mask m (set_mask m h)).

Definition ained_set_word (offset word : Z) : M unit :=
  modify (fun h => set_value word (set_index (to_int32 offset) h)).

Definition ained_get_num_dipoles : M Z := fun h => Some (num_dipoles h, h).

Definition set_num_dipoles (n : Z) (h : ained) : ained :=
  mk_ained (reg_mask h) (reg_coeff h) (reg_bypass h) (reg_dipole h) (memory h)
           n (index h) (mask h) (value h) (stderr h).

(** The scan of [ained_init],
    [while (reg[AINED_REG_DIPOLE_OFFSET + AINED_REG_DIPOLE_NUM_REG_PD * handle->num_dipoles] != 0)
       handle->num_dipoles++;].
    A read past the register mapping fails; the mapping holds 256 dipole
    blocks, so 257 iterations always reach a zero word or a failing read and
    [fuel] never decides the result from there on. *)
Fixpoint scan_dipoles (fuel : nat) : M unit := fun h =>
  match fuel with
  | O => None
  | S fuel' =>
      match dipole_reg_read (dipole_reg (num_dipoles h) 0) h with
      | Some (v, h') =>
          if v =? 0 then Some (tt, h')
          else scan_dipoles fuel' (set_num_dipoles (u32 (num_dipoles h' + 1)) h')
      | None => None
      end
  end.

(** What the register region holds when it is mapped. *)
Record reg_image : Type := mk_reg_image {
  img_mask : Z;
  img_coeff : list Z;
  img_bypass : Z;
  img_dipole : list Z
}.

(** [ained_init].  The arguments are the results of the two
    [arm_shared_init] calls: [None] for a [NULL] mapping, otherwise what the
    region holds.  The outer [None] is undefined behaviour (the scan left the
    mapping), [Some None] is the [NULL] handle; the message the failing paths
    print goes to the process's [stderr] and is not kept. *)
Definition ained_init (registers : option reg_image) (mem : option (list Z))
  : option (option ained) :=
  match registers with
  | None => Some None
  | Some r =>
      match mem with
      | None => Some None
      | Some m =>
          let handle :=
            mk_ained (img_mask r) (img_coeff r) (img_bypass r) (img_dipole r) m 0 0 0 0 [] in
          match scan_dipoles 257 handle with
          | Some (_, h) => Some (Some (set_index (-1) (set_value 0 (set_mask 0 h))))
          | None => None
          end
      end
  end.

(** ** Game-over test and board reload ([mod_lightsout.c]) *)

(** A [for] loop whose body may [return] a value from the enclosing function:
    [Some x] leaves the loop with [x], [None] goes on. *)
Fixpoint for_loop_ret {R : Type} (n : nat) (i : Z) (body : Z -> M (option R)) : M (option R) :=
  match n with
  | O => ret None
  | S n' =>
      r <~ body i ;;
      match r with
      | Some x => ret (Some x)
      | None => for_loop_ret n' (i + 1) body
      end
  end.

Definition ained_game_not_over (start_row start_col num_row num_col : Z) : M bool :=
  r <~ for_loop_ret (Z.to_nat num_row) 0 (fun i =>
         for_loop_ret (Z.to_nat num_col) 0 (fun j =>
           b <~ ained_get_bit (u32 (start_row + i)) (u32 (start_col + j)) ;;
           ret (if b =? 1 then Some true else None))) ;;
  ret (match r with Some b => b | None => false end).

Definition ained_reconstruct_board (board : list Z)
  (start_row start_col num_row num_col : Z) : M unit :=
  ained_set_bypass true ;;>
  for_loop (Z.to_nat num_row) 0 (fun row _ =>
    for_loop (Z.to_nat num_col) 0 (fun col _ =>
      let index := u32 (row * num_col + col) in
      v <~ board_load board index ;;
      ained_set_bit (u32 (start_row + row)) (u32 (start_col + col)) v) tt) tt ;;>
  ained_commit ;;>
  ained_set_bypass false.

(** At base 1 libm's [pow] returns 1 for every exponent (C Annex F.10.4.4).
    [pow_base_one] is [pow] on that base, which is all the generator calls
    when [factor] is 1.0. *)
Definition pow_base_one (x y : float) : float := 1%float.

(** ** Command-line front end ([main.c])

    A C string is the list of its characters before the terminating NUL.
    The functions of [main.c] live in [Main], as [set_memory] shares its name
    with a field update of the handle. *)

Module Main.

Definition space : Z := 32.
Definition backslash : Z := 92.

(** [test_memory]: a masked commit to word 13, then a store to word 1
    through the pointer [ained_get_memory] returns. *)
Definition test_memory : M unit :=
  ained_set_mask 0xAAAAAAAAAAAAAAAA ;;>
  ained_set_word 13 0xFFFFFFFFFFFFFFFF ;;>
  ained_commit ;;>
  ained_set_mask 0x8000800080008000 ;;>
  mem_write 1 0xFFFFFFFFFFFFFFFF.

(** What [set_memory] prints: the three range diagnostics on [stderr] and
    the usage lines on [stdout]. *)
Inductive cli_msg : Type :=
| RowsRange            (* Rows should between 0 and 63 *)
| ColumnRange          (* Column should between 0 and 63 *)
| ValueRange           (* Value should be 0 or 1 *)
| Usage                (* Usage:  set {row} {column} {value} *)
| UsageCount (count : Z).  (* Usage:  set {row} {column} {value} %u *)

(** [s + strspn(s, " ")]. *)
Fixpoint skip_spaces (s : list Z) : list Z :=
  match s with
  | ch :: s' => if ch =? space then skip_spaces s' else s
  | [] => []
  end.

(** The token at the head of [s] and what follows its delimiter. *)
Fixpoint span_token (s : list Z) : list Z * list Z :=
  match s with
  | [] => ([], [])
  | ch :: s' =>
      if ch =? space then ([], s')
      else let (t, r) := span_token s' in (ch :: t, r)
  end.

(** The tokens [strtok_r(s, " ", &saveptr)] and then
    [strtok_r(NULL, " ", &saveptr)] return until the result is [NULL]. *)
Fixpoint strtok_r_all (fuel : nat) (s : list Z) : list (list Z) :=
  match fuel with
  | O => []
  | S fuel' =>
      match skip_spaces s with
      | [] => []
      | s1 => let (t, r) := span_token s1 in t :: strtok_r_all fuel' r
      end
  end.

(** The locals [row], [column], [value], [count] of [set_memory] and the
    diagnostics printed so far. *)
Record set_args : Type := mk_set_args {
  arg_row : Z;
  arg_column : Z;
  arg_value : Z;
  arg_count : Z;
  arg_msgs : list cli_msg
}.

(** The body of the token loop of [set_memory], [v] being the token as
    [strtoul] reads it, converted to [uint32_t]. *)
Definition set_memory_token (a : set_args) (v : Z) : set_args :=
  let a' :=
    if arg_count a =? 0 then
      if 127 <? v
      then mk_set_args (arg_row a) (arg_column a) (arg_value a) (arg_count a)
                       (arg_msgs a ++ [RowsRange])
      else mk_set_args v (arg_column a) (arg_value a) (arg_count a) (arg_msgs a)
    else if arg_count a =? 1 then
      if 63 <? v
      then mk_set_args (arg_row a) (arg_column a) (arg_value a) (arg_count a)
                       (arg_msgs a ++ [ColumnRange])
      else mk_set_args (arg_row a) v (arg_value a) (arg_count a) (arg_msgs a)
    else if arg_count a =? 2 then
      if negb ((v =? 0) || (v =? 1))
      then mk_set_args (arg_row a) (arg_column a) (arg_value a) (arg_count a)
                       (arg_msgs a ++ [ValueRange])
      else mk_set_args (arg_row a) (arg_column a) v (arg_count a) (arg_msgs a)
    else a in
  mk_set_args (arg_row a') (arg_column a') (arg_value a') (u32 (arg_count a' + 1))
              (arg_msgs a').

Section SetMemory.

(** [strtoul(str, NULL, 0)] of the C library, on a token. *)
Variable strtoul : list Z -> Z.

(** [set_memory(handle, memory)]: [memory] is the whole input line.  The
    arguments start at [memory + 4]; on a line of fewer than four characters
    that pointer is beyond the terminating NUL and the read through it is
    outside the string. *)
Definition set_memory (memory : list Z) : M (list cli_msg) :=
  if Z.of_nat (length memory) <? 4 then fail
  else
    let s := drop 4 memory in
    match s with
    | [] => ret [Usage]
    | _ :: _ =>
        let a := fold_left (fun a str => set_memory_token a (u32 (strtoul str)))
                           (strtok_r_all (S (length s)) s)
                           (mk_set_args 0 0 0 0 []) in
        if negb (arg_count a =? 3) then ret (arg_msgs a ++ [UsageCount (arg_count a)])
        else
          ained_set_bit (arg_row a) (arg_column a) (arg_value a) ;;>
          ret (arg_msgs a)
    end.

End SetMemory.

(** [quote_detector(line, index)]: [line] is the line of readline, read at
    [index - 1]; the buffer holds the characters of the line and then the
    terminating NUL, and a read beyond that has no result. *)
Fixpoint quote_detector_from (line : list Z) (index : nat) : option bool :=
  match index with
  | O => Some false
  | S i =>
      match (line ++ [0]) !! i with
      | None => None
      | Some ch =>
          if ch =? backslash then
            match quote_detector_from line i with
            | Some q => Some (negb q)
            | None => None
            end
          else Some false
      end
  end.

Definition quote_detector (line : list Z) (index : Z) : option bool :=
  if 0 <? index then quote_detector_from line (Z.to_nat index) else Some false.

(** How [escape] ends: [errx] on a string too long, the implementation-defined
    [realloc(escaped, 0)], or the block [realloc] returns, a byte being [None]
    while it was never written. *)
Inductive escape_result : Type :=
| TooLong
| ReallocZero
| Escaped (block : list (option Z)).

(** [escaped[j] = ch] on the block of [malloc]. *)
Definition buf_store (escaped : list (option Z)) (j ch : Z) : option (list (option Z)) :=
  if (0 <=? j) && (j <? Z.of_nat (length escaped))
  then Some (<[Z.to_nat j := Some ch]> escaped)
  else None.

(** The copy loop of [escape], [n] iterations from [i] and [j]. *)
Fixpoint escape_loop (n : nat) (i j : Z) (original : list Z) (escaped : list (option Z)) :
  option (Z * list (option Z)) :=
  match n with
  | O => Some (j, escaped)
  | S n' =>
      match original !! Z.to_nat i with
      | None => None
      | Some ch =>
          match (if ch =? space then
                   match buf_store escaped j backslash with
                   | Some e => Some (j + 1, e)
                   | None => None
                   end
                 else Some (j, escaped)) with
          | None => None
          | Some (j1, e1) =>
              match buf_store e1 j1 ch with
              | None => None
              | Some e2 => escape_loop n' (i + 1) (j1 + 1) original e2
              end
          end
      end
  end.

Section Escape.

(** [SIZE_MAX] of the target. *)
Variable size_max : Z.

(** [escape(original)], with [malloc] and [realloc] succeeding: [realloc]
    to [j] bytes keeps the first [j] bytes of the block. *)
Definition escape (original : list Z) : option escape_result :=
  let original_len := Z.of_nat (length original) in
  if size_max / 2 <? original_len then Some TooLong
  else
    let escaped := replicate (Z.to_nat (2 * original_len + 1)) None in
    match escape_loop (length original) 0 0 original escaped with
    | None => None
    | Some (j, e) =>
        match buf_store e j 0 with
        | None => None
        | Some e' =>
            if j =? 0 then Some ReallocZero
            else Some (Escaped (take (Z.to_nat j) e'))
        end
    end.

End Escape.

End Main.

(** ** Example handles *)

(** A handle as [ained_init] returns it on a device with two dipoles: the
    first two dipole blocks (output word, three seeds) are in use, the third
    starts with the zero word that ends the scan; the grid, the coefficient
    block, the write mask and the bypass register read zero, and no
    transaction is pending. *)
Definition sample_handle : ained :=
  mk_ained 0 (replicate 48 0) 0 ([5; 1; 2; 3; 6; 4; 5; 6] ++ replicate 1016 0)
           (replicate 128 0) 2 (-1) 0 0 [].

(** [strtoul(str, NULL, 0)] on a token of decimal digits that does not start
    with 0 (a leading 0 or 0x makes [strtoul] read octal or hexadecimal). *)
Definition strtoul_decimal (str : list Z) : Z :=
  fold_left (fun n ch => 10 * n + (ch - 48)) str 0.

(** The grid of [h] replaced by [words]. *)
Definition with_grid (words : list Z) (h : ained) : ained := set_memory words h.

(** Bypass mode as [ained_set_bypass(handle, true)] establishes it: the bypass
    register set and the write mask all ones. *)
Definition bypassed (h : ained) : Prop :=
  reg_bypass h = 1 /\ reg_mask h = ones64.

(** * Properties *)

(** ** Views of the grid used in the statements *)

(** Word [w] of the grid (0 outside the mapped words). *)
Definition word_at (h : ained) (w : Z) : Z := default 0 (memory h !! Z.to_nat w).

(** Bit [k] of word [w]. *)
Definition bit_at (h : ained) (w k : Z) : bool := Z.testbit (word_at h w) k.

(** The cell at logical coordinate [(row, col)]. *)
Definition cell (h : ained) (row col : Z) : bool :=
  bit_at h (ained_get_index row col) (ained_get_word_index row col).

(** Membership of a cell in the sub-region
    [start_row, start_row + num_row) x [start_col, start_col + num_col). *)
Definition in_region (start_row start_col num_row num_col r c : Z) : bool :=
  (start_row <=? r) && (r <? start_row + num_row)
  && (start_col <=? c) && (c <? start_col + num_col).

(** The cells [ained_flip_lights] toggles besides restoring the snapshot: the
    cell [(start_row + row, start_col + col)] it sets, and the neighbours it
    flips under the tests [row > 0], [row < num_row - 1], [col > 0] and
    [col < num_col - 1].  A cell is toggled when [cross] is [true]. *)
Definition cross (start_row start_col num_row num_col row col r c : Z) : bool :=
  xorb ((r =? start_row + row) && (c =? start_col + col))
 (xorb ((0 <? row) && ((r =? start_row + row - 1) && (c =? start_col + col)))
 (xorb ((row <? num_row - 1) && ((r =? start_row + row + 1) && (c =? start_col + col)))
 (xorb ((0 <? col) && ((r =? start_row + row) && (c =? start_col + col - 1)))
       ((col <? num_col - 1) && ((r =? start_row + row) && (c =? start_col + col + 1)))))).

(** The cross of a Lights-Out move in absolute coordinates: the target and
    its orthogonal neighbours. *)
Definition is_target_or_neighbour (row col r c : Z) : bool :=
  ((r =? row) && (c =? col))
  || ((r =? row - 1) && (c =? col)) || ((r =? row + 1) && (c =? col))
  || ((r =? row) && (c =? col - 1)) || ((r =? row) && (c =? col + 1)).

(** Row-major position of cell [(r, c)] in the board of a sub-region. *)
Definition linear_index (start_row start_col num_col r c : Z) : Z :=
  num_col * (r - start_row) + (c - start_col).

(** Cell [(r, c)] lies in the 8 x 8 tile (the grid word) of the first cell of
    the sub-region. *)
Definition in_first_tile (start_row start_col r c : Z) : bool :=
  ained_get_index r c =? ained_get_index start_row start_col.

(** The entry of [board] at position [x] as a bit: non-zero is lit. *)
Definition board_bit (board : list Z) (x : Z) : bool :=
  negb (default 0 (board !! Z.to_nat x) =? 0).

(** What the [set_bit] calls of [ained_reconstruct_board] for the board
    positions [lo .. hi - 1] make of the handle [h]: they only touch the
    transaction buffer and the diagnostics; the cells of the first tile are
    collected in the mask and the value, the cells of other tiles are
    rejected with [CrossWordConflict]. *)
Definition reconstruct_acc (board : list Z) (start_row start_col num_row num_col lo hi : Z)
  (h h' : ained) : Prop :=
  memory h' = memory h /\ reg_mask h' = reg_mask h /\ reg_coeff h' = reg_coeff h /\
  reg_bypass h' = reg_bypass h /\ reg_dipole h' = reg_dipole h /\
  num_dipoles h' = num_dipoles h /\
  index h' = (if lo <? hi then ained_get_index start_row start_col else index h) /\
  (forall r c, valid_coord r c ->
     ained_get_index r c = ained_get_index start_row start_col ->
     Z.testbit (mask h') (ained_get_word_index r c) =
       (Z.testbit (mask h) (ained_get_word_index r c)
        || (in_region start_row start_col num_row num_col r c
            && (lo <=? linear_index start_row start_col num_col r c)
            && (linear_index start_row start_col num_col r c <? hi))) /\
     Z.testbit (value h') (ained_get_word_index r c) =
       (if in_region start_row start_col num_row num_col r c
           && (lo <=? linear_index start_row start_col num_col r c)
           && (linear_index start_row start_col num_col r c <? hi)
        then board_bit board (linear_index start_row start_col num_col r c)
        else Z.testbit (value h) (ained_get_word_index r c))) /\
  exists l,
    stderr h' = l ++ stderr h /\ Forall (eq CrossWordConflict) l /\
    ((forall r c, in_region start_row start_col num_row num_col r c = true ->
        lo <= linear_index start_row start_col num_col r c < hi ->
        ained_get_index r c = ained_get_index start_row start_col) -> l = []) /\
    (forall r c, in_region start_row start_col num_row num_col r c = true ->
       lo <= linear_index start_row start_col num_col r c < hi ->
       ained_get_index r c <> ained_get_index start_row start_col -> l <> []).

(** Everything of the handle except the grid words. *)
Definition same_regs (h h' : ained) : Prop :=
  reg_mask h' = reg_mask h /\ reg_coeff h' = reg_coeff h /\
  reg_bypass h' = reg_bypass h /\ reg_dipole h' = reg_dipole h /\
  num_dipoles h' = num_dipoles h /\ index h' = index h /\
  mask h' = mask h /\ value h' = value h /\ stderr h' = stderr h.
(** The number of backslashes that end right before position [index] of
    [line]. *)
Fixpoint leading_backslashes (l : list Z) : nat :=
  match l with
  | ch :: l' => if ch =? Main.backslash then S (leading_backslashes l') else O
  | [] => O
  end.

Definition backslashes_before (line : list Z) (index : Z) : nat :=
  leading_backslashes (reverse (take (Z.to_nat index) line)).

(** A string with a backslash put before each of its spaces. *)
Definition escaped_chars (original : list Z) : list Z :=
  flat_map (fun ch => if ch =? Main.space then [Main.backslash; ch] else [ch]) original.

(** What the token loop of [set_memory] keeps true of its locals. *)
Definition set_args_in_grid (a : Main.set_args) : Prop :=
  valid_coord (Main.arg_row a) (Main.arg_column a).

(** ** Addressing lemmas *)

Lemma u32_small z : 0 <= z < 2 ^ 32 -> u32 z = z.
Proof. intros H. unfold u32. apply Z.mod_small. exact H. Qed.

Lemma get_index_valid row col :
  valid_coord row col ->
  ained_get_index row col = row / 8 * 8 + col / 8 /\
  0 <= row / 8 < 16 /\ 0 <= col / 8 < 8.
Proof.
  intros [Hr Hc]. unfold ained_get_index, bsize.
  assert (0 <= row / 8 < 16) by (split; [apply Z.div_pos | apply Z.div_lt_upper_bound]; lia).
  assert (0 <= col / 8 < 8) by (split; [apply Z.div_pos | apply Z.div_lt_upper_bound]; lia).
  rewrite u32_small by lia. auto.
Qed.

Lemma get_word_index_eq row col :
  ained_get_word_index row col = row mod 8 * 8 + col mod 8 /\
  0 <= row mod 8 < 8 /\ 0 <= col mod 8 < 8.
Proof.
  unfold ained_get_word_index, bsize.
  pose proof (Z.mod_pos_bound row 8 ltac:(lia)).
  pose proof (Z.mod_pos_bound col 8 ltac:(lia)).
  rewrite u32_small by lia. auto.
Qed.

Lemma get_word_index_range row col : 0 <= ained_get_word_index row col < 64.
Proof. destruct (get_word_index_eq row col) as (-> & ? & ?). lia. Qed.

Lemma get_index_range row col :
  valid_coord row col -> 0 <= ained_get_index row col < 128.
Proof. intros H. destruct (get_index_valid row col H) as (-> & ? & ?). lia. Qed.

Lemma to_physical_inj r1 c1 r2 c2 :
  valid_coord r1 c1 -> valid_coord r2 c2 ->
  to_physical r1 c1 = to_physical r2 c2 -> r1 = r2 /\ c1 = c2.
Proof.
  intros H1 H2 Heq. unfold to_physical in Heq.
  injection Heq as Hw Hb.
  destruct (get_index_valid _ _ H1) as (E1 & ? & ?).
  destruct (get_index_valid _ _ H2) as (E2 & ? & ?).
  destruct (get_word_index_eq r1 c1) as (F1 & ? & ?).
  destruct (get_word_index_eq r2 c2) as (F2 & ? & ?).
  rewrite E1, E2 in Hw. rewrite F1, F2 in Hb.
  pose proof (Z.div_mod r1 8 ltac:(lia)). pose proof (Z.div_mod r2 8 ltac:(lia)).
  pose proof (Z.div_mod c1 8 ltac:(lia)). pose proof (Z.div_mod c2 8 ltac:(lia)).
  lia.
Qed.

Lemma divmod8 q r : 0 <= r < 8 -> (q * 8 + r) / 8 = q /\ (q * 8 + r) mod 8 = r.
Proof.
  intros Hr. split; symmetry.
  - apply (Z.div_unique _ 8 q r); lia.
  - apply (Z.mod_unique _ 8 q r); lia.
Qed.

Lemma to_physical_surj w b :
  0 <= w < 128 -> 0 <= b < 64 ->
  exists row col, valid_coord row col /\ to_physical row col = (w, b).
Proof.
  intros Hw Hb.
  exists (w / 8 * 8 + b / 8), (w mod 8 * 8 + b mod 8).
  pose proof (Z.div_mod w 8 ltac:(lia)). pose proof (Z.div_mod b 8 ltac:(lia)).
  pose proof (Z.mod_pos_bound w 8 ltac:(lia)). pose proof (Z.mod_pos_bound b 8 ltac:(lia)).
  assert (0 <= w / 8 < 16) by (split; [apply Z.div_pos | apply Z.div_lt_upper_bound]; lia).
  assert (0 <= b / 8 < 8) by (split; [apply Z.div_pos | apply Z.div_lt_upper_bound]; lia).
  assert (Hv : valid_coord (w / 8 * 8 + b / 8) (w mod 8 * 8 + b mod 8))
    by (unfold valid_coord; lia).
  split; [exact Hv|].
  unfold to_physical.
  destruct (get_index_valid _ _ Hv) as (-> & _ & _).
  destruct (get_word_index_eq (w / 8 * 8 + b / 8) (w mod 8 * 8 + b mod 8)) as (-> & _ & _).
  destruct (divmod8 (w / 8) (b / 8)) as [-> ->]; [lia|].
  destruct (divmod8 (w mod 8) (b mod 8)) as [-> ->]; [lia|].
  f_equal; lia.
Qed.

(** Case analysis on the integer comparisons of a goal. *)
Ltac zbool :=
  repeat match goal with
         | |- context [?a <=? ?b] => destruct (Z.leb_spec a b)
         | |- context [?a <? ?b] => destruct (Z.ltb_spec a b)
         | |- context [?a =? ?b] => destruct (Z.eqb_spec a b)
         end;
  cbn [andb orb negb]; try reflexivity; try lia; try congruence.

(** ** Bits of 64-bit words *)

Lemma testbit_bit64 id k : 0 <= id -> Z.testbit (bit64 id) k = (id =? k).
Proof.
  intros Hid. unfold bit64. rewrite Z.shiftl_1_l. apply Z.pow2_bits_eqb. exact Hid.
Qed.

Lemma testbit_ones64 k : 0 <= k < 64 -> Z.testbit ones64 k = true.
Proof.
  intros Hk. change ones64 with (Z.ones 64). apply Z.ones_spec_low. exact Hk.
Qed.

Lemma testbit_not64 x k : 0 <= k < 64 -> Z.testbit (not64 x) k = negb (Z.testbit x k).
Proof.
  intros Hk. unfold not64. rewrite Z.lxor_spec, testbit_ones64 by exact Hk.
  apply xorb_true_r.
Qed.

Lemma testbit_masked_word old m v k :
  0 <= k < 64 ->
  Z.testbit (masked_word old m v) k =
  if Z.testbit m k then Z.testbit v k else Z.testbit old k.
Proof.
  intros Hk. unfold masked_word.
  rewrite Z.lor_spec, !Z.land_spec, testbit_not64 by exact Hk.
  destruct (Z.testbit m k), (Z.testbit v k), (Z.testbit old k); reflexivity.
Qed.

Lemma land_bit64_test w id :
  0 <= id -> (if Z.land w (bit64 id) =? 0 then 0 else 1) = Z.b2z (Z.testbit w id).
Proof.
  intros Hid.
  destruct (Z.testbit w id) eqn:Hb; cbn [Z.b2z].
  - destruct (Z.eqb_spec (Z.land w (bit64 id)) 0) as [E|E]; [|reflexivity].
    apply (f_equal (fun z => Z.testbit z id)) in E.
    rewrite Z.land_spec, Hb, testbit_bit64, Z.eqb_refl, Z.bits_0 in E by exact Hid.
    discriminate E.
  - destruct (Z.eqb_spec (Z.land w (bit64 id)) 0) as [E|E]; [reflexivity|].
    exfalso. apply E. apply Z.bits_inj'. intros n Hn.
    rewrite Z.land_spec, Z.bits_0, testbit_bit64 by exact Hid.
    destruct (Z.eqb_spec id n) as [->|_]; [rewrite Hb|]; auto using andb_false_r.
Qed.

(** ** Reading and writing grid words *)

Lemma word_at_lookup h w :
  length (memory h) = 128%nat -> 0 <= w < 128 ->
  memory h !! Z.to_nat w = Some (word_at h w).
Proof.
  intros Hlen Hw. unfold word_at.
  destruct (lookup_lt_is_Some_2 (memory h) (Z.to_nat w)) as [x Hx]; [lia|].
  rewrite Hx. reflexivity.
Qed.

Lemma mem_read_ok h w :
  length (memory h) = 128%nat -> 0 <= w < 128 ->
  mem_read w h = Some (word_at h w, h).
Proof.
  intros Hlen Hw. unfold mem_read, num_words.
  replace ((0 <=? w) && (w <? 128)) with true by (symmetry; apply andb_true_iff; lia).
  rewrite (word_at_lookup h w Hlen Hw). reflexivity.
Qed.

Lemma mem_write_ok h w v :
  length (memory h) = 128%nat -> 0 <= w < 128 ->
  mem_write w v h =
  Some (tt, set_memory (<[Z.to_nat w := masked_word (word_at h w) (reg_mask h) v]> (memory h)) h).
Proof.
  intros Hlen Hw. unfold mem_write, num_words.
  replace ((0 <=? w) && (w <? 128)) with true by (symmetry; apply andb_true_iff; lia).
  rewrite (word_at_lookup h w Hlen Hw). reflexivity.
Qed.

Lemma word_at_set_memory_insert h w v w' :
  length (memory h) = 128%nat -> 0 <= w < 128 -> 0 <= w' ->
  word_at (set_memory (<[Z.to_nat w := v]> (memory h)) h) w' =
  if w' =? w then v else word_at h w'.
Proof.
  intros Hlen Hw Hw'. unfold word_at. cbn [memory set_memory].
  destruct (Z.eqb_spec w' w) as [->|Hne].
  - rewrite list_lookup_insert_eq by lia. reflexivity.
  - rewrite list_lookup_insert_ne by lia. reflexivity.
Qed.

(** ** BitGrid addressing: the coordinate map *)

(** C6 (amended): for every valid coordinate, [to_physical] computes
    [word_index = (row / 8) * 8 + (column / 8)] and
    [bit_index = (row % 8) * 8 + (column % 8)]; the word index lies in
    [0, 127] (not [0, 63]) and the bit index in [0, 63]; no other valid
    coordinate has the same pair; and every pair of a word below 128 and a bit
    below 64 is the image of a valid coordinate. *)
Theorem to_physical_bijection (row col : Z) (Hv : valid_coord row col) :
  to_physical row col = (row / 8 * 8 + col / 8, row mod 8 * 8 + col mod 8) /\
  0 <= fst (to_physical row col) <= 127 /\
  0 <= snd (to_physical row col) <= 63 /\
  (forall row' col', valid_coord row' col' ->
     to_physical row' col' = to_physical row col -> row' = row /\ col' = col) /\
  (forall w b, 0 <= w < 128 -> 0 <= b < 64 ->
     exists r c, valid_coord r c /\ to_physical r c = (w, b)).
Proof.
  pose proof (get_index_range row col Hv) as Hw.
  pose proof (get_word_index_range row col) as Hb.
  destruct (get_index_valid row col Hv) as (Ew & _ & _).
  destruct (get_word_index_eq row col) as (Eb & _ & _).
  split; [|split; [|split; [|split]]].
  - unfold to_physical. rewrite Ew, Eb. reflexivity.
  - cbn [fst to_physical]. lia.
  - cbn [snd to_physical]. lia.
  - intros row' col' Hv'. apply to_physical_inj; assumption.
  - intros w b. apply to_physical_surj.
Qed.

Lemma to_physical_bijection_witness :
  to_physical 127 63 = (127 / 8 * 8 + 63 / 8, 127 mod 8 * 8 + 63 mod 8) /\
  0 <= fst (to_physical 127 63) <= 127 /\
  0 <= snd (to_physical 127 63) <= 63 /\
  (forall row' col', valid_coord row' col' ->
     to_physical row' col' = to_physical 127 63 -> row' = 127 /\ col' = 63) /\
  (forall w b, 0 <= w < 128 -> 0 <= b < 64 ->
     exists r c, valid_coord r c /\ to_physical r c = (w, b)).
Proof. apply (to_physical_bijection 127 63). unfold valid_coord. lia. Defined.

(** C6 as stated fails: the word index of the valid coordinate (64, 0) is 64,
    outside [0, 63]. *)
Lemma word_index_above_63 :
  fst (to_physical 64 0) = 64 /\ (fst (to_physical 64 0) <=? 63) = false.
Proof. split; reflexivity. Qed.

(** ** Transaction buffer *)

Lemma to_int32_small z : 0 <= z < 2 ^ 31 -> to_int32 z = z.
Proof.
  intros Hz. unfold to_int32. rewrite u32_small by lia.
  destruct (Z.ltb_spec z (2 ^ 31)); lia.
Qed.

Lemma set_bit_accepted h row col v :
  valid_coord row col ->
  index h < 0 \/ index h = ained_get_index row col ->
  ained_set_bit row col v h =
  Some (tt,
        let id := ained_get_word_index row col in
        let h1 := set_index (ained_get_index row col) h in
        set_mask (Z.lor (mask h) (bit64 id))
          (set_value (if negb (v =? 0) then Z.lor (value h) (bit64 id)
                      else Z.land (value h) (not64 (bit64 id))) h1)).
Proof.
  intros Hv Hidx. pose proof (get_index_range row col Hv) as Hr.
  unfold ained_set_bit.
  replace ((0 <=? index h) && negb (ained_get_index row col =? u32 (index h))) with false.
  - rewrite to_int32_small by lia. destruct (negb (v =? 0)); reflexivity.
  - symmetry. destruct Hidx as [Hneg | Heq].
    + destruct (Z.leb_spec 0 (index h)); [lia | reflexivity].
    + rewrite Heq, u32_small by lia. rewrite Z.eqb_refl. apply andb_false_r.
Qed.

(** C5: with no transaction pending, or one pending on the first word, a
    [set_bit] on a first coordinate followed, without a commit, by a [set_bit]
    on a coordinate of a different word rejects the second call: it reports
    [CrossWordConflict] and returns the handle of the first call otherwise
    unchanged, so the pending word index, value bits and mask bits (and the
    grid and registers) are exactly those the first call left. *)
Theorem set_bit_cross_word_conflict (h : ained) (r1 c1 v1 r2 c2 v2 : Z)
  (Hv1 : valid_coord r1 c1) (Hv2 : valid_coord r2 c2)
  (Hfirst : index h < 0 \/ index h = ained_get_index r1 c1)
  (Hdiff : ained_get_index r1 c1 <> ained_get_index r2 c2) :
  exists h1,
    ained_set_bit r1 c1 v1 h = Some (tt, h1) /\
    index h1 = ained_get_index r1 c1 /\
    Z.testbit (mask h1) (ained_get_word_index r1 c1) = true /\
    Z.testbit (value h1) (ained_get_word_index r1 c1) = negb (v1 =? 0) /\
    ained_set_bit r2 c2 v2 h1 = Some (tt, report CrossWordConflict h1) /\
    index (report CrossWordConflict h1) = index h1 /\
    value (report CrossWordConflict h1) = value h1 /\
    mask (report CrossWordConflict h1) = mask h1 /\
    memory (report CrossWordConflict h1) = memory h1 /\
    stderr (report CrossWordConflict h1) = CrossWordConflict :: stderr h1.
Proof.
  pose proof (get_index_range r1 c1 Hv1) as Hr1.
  pose proof (get_word_index_range r1 c1) as Hb1.
  eexists. split; [apply set_bit_accepted; assumption|].
  cbn zeta. cbn [index mask value set_mask set_value set_index].
  split; [reflexivity|].
  split.
  { rewrite Z.lor_spec, testbit_bit64, Z.eqb_refl by lia. apply orb_true_r. }
  split.
  { destruct (v1 =? 0); cbn [negb].
    - rewrite Z.land_spec, testbit_not64, testbit_bit64, Z.eqb_refl by lia.
      apply andb_false_r.
    - rewrite Z.lor_spec, testbit_bit64, Z.eqb_refl by lia. apply orb_true_r. }
  split; [|repeat split].
  unfold ained_set_bit. cbn [index set_mask set_value set_index].
  rewrite u32_small by lia.
  destruct (Z.leb_spec 0 (ained_get_index r1 c1)); [|lia].
  destruct (Z.eqb_spec (ained_get_index r2 c2) (ained_get_index r1 c1)); [congruence|].
  reflexivity.
Qed.

Lemma set_bit_cross_word_conflict_witness :
  exists h1,
    ained_set_bit 0 0 1 sample_handle = Some (tt, h1) /\
    index h1 = ained_get_index 0 0 /\
    Z.testbit (mask h1) (ained_get_word_index 0 0) = true /\
    Z.testbit (value h1) (ained_get_word_index 0 0) = negb (1 =? 0) /\
    ained_set_bit 8 0 1 h1 = Some (tt, report CrossWordConflict h1) /\
    index (report CrossWordConflict h1) = index h1 /\
    value (report CrossWordConflict h1) = value h1 /\
    mask (report CrossWordConflict h1) = mask h1 /\
    memory (report CrossWordConflict h1) = memory h1 /\
    stderr (report CrossWordConflict h1) = CrossWordConflict :: stderr h1.
Proof.
  apply (set_bit_cross_word_conflict sample_handle 0 0 1 8 0 1).
  - unfold valid_coord. lia.
  - unfold valid_coord. lia.
  - left. cbn. lia.
  - vm_compute. discriminate.
Defined.

Lemma testbit_requested v val id k :
  0 <= id < 64 -> 0 <= k < 64 ->
  Z.testbit (if negb (v =? 0) then Z.lor val (bit64 id)
             else Z.land val (not64 (bit64 id))) k =
  if id =? k then negb (v =? 0) else Z.testbit val k.
Proof.
  intros Hid Hk. destruct (v =? 0); cbn [negb].
  - rewrite Z.land_spec, testbit_not64, testbit_bit64 by lia.
    destruct (id =? k); cbn [negb]; auto using andb_false_r, andb_true_r.
  - rewrite Z.lor_spec, testbit_bit64 by lia.
    destruct (id =? k); auto using orb_false_r, orb_true_r.
Qed.

Lemma commit_pending h :
  length (memory h) = 128%nat -> 0 <= index h < 128 ->
  ained_commit h =
  Some (tt, set_index (-1) (set_value 0 (set_mask 0
              (set_memory (<[Z.to_nat (index h) :=
                             masked_word (word_at h (index h)) (mask h) (value h)]> (memory h))
                 (set_reg_mask (mask h) h))))).
Proof.
  intros Hlen Hidx. unfold ained_commit.
  destruct (Z.ltb_spec (index h) 0); [lia|].
  unfold bind, modify.
  rewrite mem_write_ok by (cbn [memory set_reg_mask]; assumption).
  reflexivity.
Qed.

Lemma commit_bits h :
  length (memory h) = 128%nat -> 0 <= index h < 128 ->
  exists h',
    ained_commit h = Some (tt, h') /\
    (forall k, 0 <= k < 64 ->
       bit_at h' (index h) k =
       if Z.testbit (mask h) k then Z.testbit (value h) k else bit_at h (index h) k) /\
    (forall w' k, 0 <= w' -> w' <> index h -> bit_at h' w' k = bit_at h w' k) /\
    index h' = -1 /\ mask h' = 0 /\ value h' = 0 /\ reg_mask h' = mask h /\
    length (memory h') = 128%nat /\
    reg_coeff h' = reg_coeff h /\ reg_bypass h' = reg_bypass h /\
    reg_dipole h' = reg_dipole h /\ num_dipoles h' = num_dipoles h /\
    stderr h' = stderr h.
Proof.
  intros Hlen Hidx. eexists. split; [apply commit_pending; assumption|].
  split; [|split].
  - intros k Hk. unfold bit_at.
    change (set_index _ (set_value _ (set_mask _ (set_memory ?l ?g))))
      with (set_index (-1) (set_value 0 (set_mask 0 (set_memory l g)))).
    unfold word_at at 1. cbn [memory set_index set_value set_mask set_memory set_reg_mask].
    rewrite list_lookup_insert_eq by lia. cbn.
    rewrite testbit_masked_word by exact Hk. reflexivity.
  - intros w' k Hw' Hne. unfold bit_at, word_at.
    cbn [memory set_index set_value set_mask set_memory set_reg_mask].
    rewrite list_lookup_insert_ne by lia. reflexivity.
  - cbn [index mask value reg_mask memory reg_coeff reg_bypass reg_dipole num_dipoles stderr
         set_index set_value set_mask set_memory set_reg_mask].
    rewrite length_insert. repeat split; assumption.
Qed.

(** C4: starting with no transaction pending (no word selected, empty mask),
    two [set_bit] calls on coordinates of the same word followed by a commit
    succeed and leave a target word in which the bit of the second call has
    its requested value, the bit of the first call has its requested value
    (when the two are distinct bits), and every other bit keeps its pre-commit
    value; the other words are untouched, and the pending index, mask and
    value are cleared. *)
Theorem set_two_bits_commit (h : ained) (r1 c1 v1 r2 c2 v2 : Z)
  (Hwf : wf h) (Hidle : index h < 0) (Hmask : mask h = 0)
  (Hv1 : valid_coord r1 c1) (Hv2 : valid_coord r2 c2)
  (Hsame : ained_get_index r1 c1 = ained_get_index r2 c2) :
  exists h',
    (ained_set_bit r1 c1 v1 ;;> ained_set_bit r2 c2 v2 ;;> ained_commit) h = Some (tt, h') /\
    let w := ained_get_index r1 c1 in
    let b1 := ained_get_word_index r1 c1 in
    let b2 := ained_get_word_index r2 c2 in
    bit_at h' w b2 = negb (v2 =? 0) /\
    (b1 <> b2 -> bit_at h' w b1 = negb (v1 =? 0)) /\
    (forall k, 0 <= k < 64 -> k <> b1 -> k <> b2 -> bit_at h' w k = bit_at h w k) /\
    (forall w' k, 0 <= w' -> w' <> w -> bit_at h' w' k = bit_at h w' k) /\
    index h' = -1 /\ mask h' = 0 /\ value h' = 0.
Proof.
  destruct Hwf as (Hlen & _ & _).
  pose proof (get_index_range r1 c1 Hv1) as Hw.
  pose proof (get_word_index_range r1 c1) as Hb1.
  pose proof (get_word_index_range r2 c2) as Hb2.
  unfold bind at 1.
  rewrite (set_bit_accepted h r1 c1 v1 Hv1) by (left; exact Hidle).
  cbn zeta. unfold bind at 1.
  rewrite (set_bit_accepted _ r2 c2 v2 Hv2)
    by (right; cbn [index set_mask set_value set_index]; exact Hsame).
  cbn zeta. cbn [index mask value set_mask set_value set_index].
  rewrite <- Hsame, Hmask.
  set (w := ained_get_index r1 c1) in *.
  set (b1 := ained_get_word_index r1 c1) in *.
  set (b2 := ained_get_word_index r2 c2) in *.
  match goal with |- context [ained_commit ?g] => set (h2 := g) end.
  destruct (commit_bits h2) as (h' & Ec & Hbits & Hother & Hi & Hm & Hval & _);
    [exact Hlen | cbn; lia |].
  exists h'. split; [exact Ec|].
  cbn [index mask value h2 set_mask set_value set_index] in Hbits, Hother.
  assert (Hbit : forall k, 0 <= k < 64 ->
            bit_at h' w k =
            if b2 =? k then negb (v2 =? 0)
            else if b1 =? k then negb (v1 =? 0) else bit_at h w k).
  { intros k Hk. rewrite Hbits by exact Hk.
    rewrite !Z.lor_spec, Z.bits_0, !testbit_bit64 by lia. cbn [orb].
    rewrite (testbit_requested v2 _ b2 k) by lia.
    rewrite (testbit_requested v1 _ b1 k) by lia.
    destruct (b2 =? k), (b1 =? k); reflexivity. }
  split; [|split; [|split; [|split]]].
  - rewrite Hbit by lia. rewrite Z.eqb_refl. reflexivity.
  - intros Hne. rewrite Hbit by lia.
    destruct (Z.eqb_spec b2 b1); [congruence|]. rewrite Z.eqb_refl. reflexivity.
  - intros k Hk Hk1 Hk2. rewrite Hbit by lia.
    destruct (Z.eqb_spec b2 k); [congruence|].
    destruct (Z.eqb_spec b1 k); [congruence|]. reflexivity.
  - intros w' k Hw' Hne. apply Hother; assumption.
  - auto.
Qed.

Lemma set_two_bits_commit_witness :
  exists h',
    (ained_set_bit 6 6 1 ;;> ained_set_bit 7 7 0 ;;> ained_commit)
      (with_grid (<[0%nat := 2 ^ 63 + 5]> (replicate 128 0)) sample_handle) = Some (tt, h') /\
    bit_at h' 0 63 = false /\ bit_at h' 0 54 = true /\ bit_at h' 0 2 = true /\
    index h' = -1.
Proof.
  pose proof (set_two_bits_commit
                (with_grid (<[0%nat := 2 ^ 63 + 5]> (replicate 128 0)) sample_handle)
                6 6 1 7 7 0) as H.
  cbv zeta in H.
  destruct H as (h' & E & H2 & H1 & Hk & _ & Hi & _).
  - repeat split.
  - cbn. lia.
  - reflexivity.
  - unfold valid_coord. lia.
  - unfold valid_coord. lia.
  - reflexivity.
  - exists h'. split; [exact E|]. split; [exact H2|].
    split; [apply H1; vm_compute; discriminate|].
    split; [|exact Hi].
    assert (Hk2 : bit_at h' (ained_get_index 6 6) 2 = true)
      by (rewrite (Hk 2) by (vm_compute; intuition discriminate); reflexivity).
    exact Hk2.
Defined.

(** ** Reading cells *)

Lemma get_bit_ok h row col :
  length (memory h) = 128%nat -> valid_coord row col ->
  ained_get_bit row col h = Some (Z.b2z (cell h row col), h).
Proof.
  intros Hlen Hv. unfold ained_get_bit, bind.
  rewrite mem_read_ok by (auto using get_index_range).
  unfold ret. rewrite land_bit64_test by apply get_word_index_range.
  reflexivity.
Qed.

(** ** Bypass and bulk clear *)

Lemma masked_word_ones_zero old : masked_word old ones64 0 = 0.
Proof.
  unfold masked_word, not64. rewrite Z.lxor_nilpotent, Z.land_0_r, Z.land_0_l.
  reflexivity.
Qed.

Lemma clear_loop_spec n : forall i h,
  length (memory h) = 128%nat -> reg_mask h = ones64 ->
  0 <= i -> i + Z.of_nat n <= 128 ->
  exists h',
    for_loop n i (fun j _ => mem_write j 0) tt h = Some (tt, h') /\
    length (memory h') = 128%nat /\ same_regs h h' /\
    (forall w, 0 <= w -> word_at h' w = if (i <=? w) && (w <? i + Z.of_nat n) then 0 else word_at h w).
Proof.
  induction n as [|n IH]; intros i h Hlen Hm Hi Hn.
  - exists h. cbn [for_loop]. unfold ret. repeat split; try assumption.
    intros w Hw. zbool.
  - cbn [for_loop]. unfold bind at 1.
    rewrite mem_write_ok by (try assumption; lia).
    rewrite Hm, masked_word_ones_zero.
    destruct (IH (i + 1) (set_memory (<[Z.to_nat i := 0]> (memory h)) h))
      as (h' & E & Hlen' & Hregs & Hw');
      [cbn [memory set_memory]; rewrite length_insert; assumption
      | exact Hm | lia | lia |].
    exists h'. split; [exact E|]. split; [exact Hlen'|]. split; [exact Hregs|].
    intros w Hw. rewrite Hw' by exact Hw.
    rewrite word_at_set_memory_insert by (try assumption; lia).
    zbool.
Qed.

Lemma clear_memory_spec h :
  length (memory h) = 128%nat ->
  exists h',
    ained_clear_memory h = Some (tt, h') /\
    length (memory h') = 128%nat /\
    (forall w, 0 <= w < 128 -> word_at h' w = 0) /\
    reg_bypass h' = 0 /\ reg_mask h' = 0 /\
    reg_coeff h' = reg_coeff h /\ reg_dipole h' = reg_dipole h /\
    num_dipoles h' = num_dipoles h /\ index h' = index h /\
    mask h' = mask h /\ value h' = value h /\ stderr h' = stderr h.
Proof.
  intros Hlen. unfold ained_clear_memory, ained_set_bypass, bind, modify.
  destruct (clear_loop_spec (Z.to_nat num_words) 0 (set_reg_mask ones64 (set_reg_bypass 1 h)))
    as (h1 & E & Hlen1 & Hregs & Hw); [exact Hlen | reflexivity | lia | unfold num_words; lia |].
  rewrite E. eexists. split; [reflexivity|].
  destruct Hregs as (_ & Hc & _ & Hd & Hn & Hi & Hm & Hv & He).
  cbn [memory reg_bypass reg_mask reg_coeff reg_dipole num_dipoles index mask value stderr
       set_reg_mask set_reg_bypass] in *.
  split; [exact Hlen1|]. split.
  - intros w Hr.
    change (word_at (set_reg_mask 0 (set_reg_bypass 0 h1)) w) with (word_at h1 w).
    rewrite (Hw w) by lia. unfold num_words. zbool.
  - repeat split; assumption.
Qed.

(** C3 (amended): after [ained_clear_memory] every one of the 8192 grid bits
    reads 0 - each of the 128 words is zero and [ained_get_bit] returns 0 at
    every valid coordinate - and the bypass is disabled, with the write mask
    zero, whatever the bypass was before the call; the pending transaction
    and the other registers are untouched. *)
Theorem clear_memory_zeroes_and_disables_bypass (h : ained) (Hwf : wf h) :
  exists h',
    ained_clear_memory h = Some (tt, h') /\
    (forall w, 0 <= w < 128 -> word_at h' w = 0) /\
    (forall row col, valid_coord row col -> ained_get_bit row col h' = Some (0, h')) /\
    reg_bypass h' = 0 /\ reg_mask h' = 0 /\
    index h' = index h /\ mask h' = mask h /\ value h' = value h.
Proof.
  destruct Hwf as (Hlen & _ & _).
  destruct (clear_memory_spec h Hlen)
    as (h' & E & Hlen' & Hw & Hb & Hm & _ & _ & _ & Hi & Hmk & Hv & _).
  exists h'. split; [exact E|]. split; [exact Hw|]. split.
  - intros row col Hv'. rewrite get_bit_ok by assumption.
    unfold cell, bit_at. rewrite Hw by (apply get_index_range; exact Hv').
    rewrite Z.bits_0. reflexivity.
  - auto.
Qed.

Lemma clear_memory_zeroes_and_disables_bypass_witness :
  exists h',
    ained_clear_memory (set_reg_mask ones64 (set_reg_bypass 1
        (with_grid (replicate 128 ones64) sample_handle))) = Some (tt, h') /\
    (forall w, 0 <= w < 128 -> word_at h' w = 0) /\
    (forall row col, valid_coord row col -> ained_get_bit row col h' = Some (0, h')) /\
    reg_bypass h' = 0 /\ reg_mask h' = 0 /\
    index h' = -1 /\ mask h' = 0 /\ value h' = 0.
Proof.
  apply (clear_memory_zeroes_and_disables_bypass
           (set_reg_mask ones64 (set_reg_bypass 1
              (with_grid (replicate 128 ones64) sample_handle)))).
  repeat split.
Defined.

(** C3 as stated fails: on a handle whose bypass is enabled,
    [ained_clear_memory] returns with the bypass register at 0. *)
Lemma clear_memory_drops_bypass :
  reg_bypass (set_reg_mask ones64 (set_reg_bypass 1 sample_handle)) = 1 /\
  option_map (fun r => reg_bypass (snd r))
    (ained_clear_memory (set_reg_mask ones64 (set_reg_bypass 1 sample_handle))) = Some 0.
Proof. split; vm_compute; reflexivity. Qed.

(** ** Flipping one bit under bypass *)

Lemma flip_isolated_bit_bits h row col :
  length (memory h) = 128%nat -> reg_mask h = ones64 -> valid_coord row col ->
  exists h',
    ained_flip_isolated_bit row col h = Some (tt, h') /\
    length (memory h') = 128%nat /\ same_regs h h' /\
    (forall w k, 0 <= w -> 0 <= k < 64 ->
       bit_at h' w k =
       xorb (bit_at h w k)
            ((w =? ained_get_index row col) && (k =? ained_get_word_index row col))).
Proof.
  intros Hlen Hm Hv.
  pose proof (get_index_range row col Hv) as Hw.
  pose proof (get_word_index_range row col) as Hb.
  unfold ained_flip_isolated_bit, bind.
  rewrite mem_read_ok, mem_write_ok by assumption.
  eexists. split; [reflexivity|]. split; [|split].
  - cbn [memory set_memory]. rewrite length_insert. exact Hlen.
  - repeat split.
  - intros w k Hw0 Hk. unfold bit_at.
    rewrite word_at_set_memory_insert by (try assumption; lia).
    destruct (Z.eqb_spec w (ained_get_index row col)) as [->|Hne]; cbn [andb].
    + rewrite Hm, testbit_masked_word, testbit_ones64 by exact Hk.
      rewrite Z.lxor_spec, testbit_bit64 by lia.
      rewrite (Z.eqb_sym k). reflexivity.
    + rewrite xorb_false_r. reflexivity.
Qed.

Lemma valid_cells_differ r c row col :
  valid_coord r c -> valid_coord row col ->
  ((ained_get_index r c =? ained_get_index row col)
   && (ained_get_word_index r c =? ained_get_word_index row col)) =
  ((r =? row) && (c =? col)).
Proof.
  intros H1 H2.
  destruct (Z.eqb_spec r row) as [->|Hr]; [destruct (Z.eqb_spec c col) as [->|Hc]|].
  - rewrite !Z.eqb_refl. reflexivity.
  - cbn [andb].
    destruct (Z.eqb_spec (ained_get_index row c) (ained_get_index row col)) as [E1|]; [|reflexivity].
    destruct (Z.eqb_spec (ained_get_word_index row c) (ained_get_word_index row col)) as [E2|];
      [|reflexivity].
    destruct (to_physical_inj row c row col H1 H2); [|congruence].
    unfold to_physical. congruence.
  - cbn [andb].
    destruct (Z.eqb_spec (ained_get_index r c) (ained_get_index row col)) as [E1|]; [|reflexivity].
    destruct (Z.eqb_spec (ained_get_word_index r c) (ained_get_word_index row col)) as [E2|];
      [|reflexivity].
    destruct (to_physical_inj r c row col H1 H2); [|congruence].
    unfold to_physical. congruence.
Qed.

Lemma flip_isolated_bit_cells h row col :
  length (memory h) = 128%nat -> reg_mask h = ones64 -> valid_coord row col ->
  exists h',
    ained_flip_isolated_bit row col h = Some (tt, h') /\
    length (memory h') = 128%nat /\ same_regs h h' /\
    (forall r c, valid_coord r c ->
       cell h' r c = xorb (cell h r c) ((r =? row) && (c =? col))).
Proof.
  intros Hlen Hm Hv.
  destruct (flip_isolated_bit_bits h row col Hlen Hm Hv) as (h' & E & Hlen' & Hregs & Hbits).
  exists h'. repeat (split; [assumption|]).
  intros r c Hrc. unfold cell. rewrite Hbits.
  - rewrite valid_cells_differ by assumption. reflexivity.
  - pose proof (get_index_range r c Hrc). lia.
  - apply get_word_index_range.
Qed.

(** C9: under bypass (the mode [ained_flip_isolated_bit] assumes, as
    [ained_set_bypass(handle, true)] establishes it), for every grid and every
    coordinate with row < 128 and col < 64, the call complements the bit
    addressed by [(row, col)], leaves every other bit of every one of the 128
    words unchanged, leaves the rest of the handle unchanged, and a second
    call on the same coordinate restores every bit of the grid. *)
Theorem flip_isolated_bit_exact (h : ained) (row col : Z)
  (Hwf : wf h) (Hbypass : bypassed h) (Hv : valid_coord row col) :
  exists h',
    ained_flip_isolated_bit row col h = Some (tt, h') /\
    cell h' row col = negb (cell h row col) /\
    (forall w k, 0 <= w < 128 -> 0 <= k < 64 ->
       (w, k) <> to_physical row col -> bit_at h' w k = bit_at h w k) /\
    same_regs h h' /\
    exists h'',
      ained_flip_isolated_bit row col h' = Some (tt, h'') /\
      (forall w k, 0 <= w < 128 -> 0 <= k < 64 -> bit_at h'' w k = bit_at h w k).
Proof.
  destruct Hwf as (Hlen & _ & _). destruct Hbypass as (_ & Hm).
  destruct (flip_isolated_bit_bits h row col Hlen Hm Hv) as (h' & E & Hlen' & Hregs & Hbits).
  assert (Hm' : reg_mask h' = ones64) by (destruct Hregs as (-> & _); exact Hm).
  destruct (flip_isolated_bit_bits h' row col Hlen' Hm' Hv) as (h'' & E' & _ & _ & Hbits').
  pose proof (get_index_range row col Hv) as Hw.
  pose proof (get_word_index_range row col) as Hb.
  exists h'. split; [exact E|]. split; [|split; [|split]].
  - unfold cell. rewrite Hbits by lia. rewrite !Z.eqb_refl. cbn [andb].
    apply xorb_true_r.
  - intros w k Hw0 Hk Hne. rewrite Hbits by lia.
    destruct (Z.eqb_spec w (ained_get_index row col)) as [->|];
      [destruct (Z.eqb_spec k (ained_get_word_index row col)) as [->|]|];
      cbn [andb]; rewrite ?xorb_false_r; try reflexivity.
    exfalso. apply Hne. reflexivity.
  - exact Hregs.
  - exists h''. split; [exact E'|].
    intros w k Hw0 Hk. rewrite Hbits', Hbits by lia.
    rewrite xorb_assoc, xorb_nilpotent, xorb_false_r. reflexivity.
Qed.

Lemma flip_isolated_bit_exact_witness :
  exists h',
    ained_flip_isolated_bit 9 10
      (set_reg_mask ones64 (set_reg_bypass 1
         (with_grid (replicate 128 5) sample_handle))) = Some (tt, h') /\
    cell h' 9 10 = true.
Proof.
  destruct (flip_isolated_bit_exact
              (set_reg_mask ones64 (set_reg_bypass 1
                 (with_grid (replicate 128 5) sample_handle))) 9 10)
    as (h' & E & Hc & _).
  - repeat split.
  - split; reflexivity.
  - unfold valid_coord. lia.
  - exists h'. split; [exact E | exact Hc].
Defined.

(** ** Dipole and coefficient accessors *)

Lemma dipole_beyond_count_rejected h dipole s0 s1 s2 o0 o1 o2 :
  num_dipoles h < dipole ->
  ained_set_dipole_rng dipole s0 s1 s2 h
    = Some (tt, report (OutOfRangeDipole (num_dipoles h) dipole) h) /\
  ained_get_dipole_rng dipole o0 o1 o2 h
    = Some ((0, (o0, o1, o2)), report (OutOfRangeDipole (num_dipoles h) dipole) h).
Proof.
  intros Hd. unfold ained_set_dipole_rng, ained_get_dipole_rng.
  destruct (Z.ltb_spec (num_dipoles h) dipole); [|lia]. split; reflexivity.
Qed.

Lemma coeff_beyond_count_rejected h idx val :
  11 < idx ->
  ained_set_coefficients idx val h = Some (tt, report OutOfRangeCoeff h) /\
  ained_get_coefficients idx h = Some (0, report OutOfRangeCoeff h).
Proof.
  intros Hi. unfold ained_set_coefficients, ained_get_coefficients.
  destruct (Z.ltb_spec 11 idx); [|lia]. split; reflexivity.
Qed.

(** C7 at the first invalid dipole index: with two dipoles detected (valid
    indices 0 and 1), [ained_set_dipole_rng] with [dipole = 2] reports nothing
    and overwrites the three seed registers of block 2, and
    [ained_get_dipole_rng] with [dipole = 2] reports nothing and hands back
    those seeds through its out-parameters. *)
Theorem dipole_index_at_count_is_accepted :
  exists h',
    ained_set_dipole_rng 2 11 22 33 sample_handle = Some (tt, h') /\
    stderr h' = [] /\
    reg_dipole sample_handle !! 9%nat = Some 0 /\
    reg_dipole h' !! 9%nat = Some 11 /\
    reg_dipole h' !! 10%nat = Some 22 /\
    reg_dipole h' !! 11%nat = Some 33 /\
    ained_get_dipole_rng 2 (Some 0) (Some 0) (Some 0) h'
      = Some ((0, (Some 11, Some 22, Some 33)), h').
Proof.
  eexists. split; [vm_compute; reflexivity|].
  repeat split.
Qed.

(** ** The entry guard of the cross flip *)

(** C10: when the target fails the entry guard - [row < start_row], or
    [row > start_row + num_row - 1], or [col < start_col], or
    [col > start_col + num_col - 1], the sums taken in [uint32_t] -
    [ained_flip_lights] returns at once and the handle (grid words, pending
    transaction fields, bypass and mask registers, diagnostics) is the one it
    was given. *)
Theorem flip_lights_guard_rejects (h : ained) (start_row start_col num_row num_col row col : Z)
  (Hguard : row < start_row \/ row > u32 (start_row + num_row - 1) \/
            col < start_col \/ col > u32 (start_col + num_col - 1)) :
  ained_flip_lights start_row start_col num_row num_col row col h = Some (tt, h).
Proof.
  unfold ained_flip_lights.
  replace (flip_lights_guard start_row start_col num_row num_col row col) with true.
  - reflexivity.
  - symmetry. unfold flip_lights_guard. zbool.
Qed.

Lemma flip_lights_guard_rejects_witness :
  ained_flip_lights 2 2 3 3 5 2 (with_grid (replicate 128 5) sample_handle)
  = Some (tt, with_grid (replicate 128 5) sample_handle).
Proof.
  apply (flip_lights_guard_rejects (with_grid (replicate 128 5) sample_handle) 2 2 3 3 5 2).
  right. left. vm_compute. reflexivity.
Defined.

(** ** Coefficient kernels at factor 1.0 *)

Lemma kernel_fields_lookup (cell : Z -> Z -> Z) r c :
  0 <= r < 5 -> 0 <= c < 5 -> (r, c) <> (0, 0) ->
  kernel_fields cell !! Z.to_nat (r * 5 + c - 1) = Some (cell r c).
Proof.
  intros Hr Hc Hne.
  assert (Er : r = 0 \/ r = 1 \/ r = 2 \/ r = 3 \/ r = 4) by lia.
  assert (Ec : c = 0 \/ c = 1 \/ c = 2 \/ c = 3 \/ c = 4) by lia.
  destruct Er as [-> | [-> | [-> | [-> | ->]]]];
    destruct Ec as [-> | [-> | [-> | [-> | ->]]]];
    try reflexivity.
  exfalso. apply Hne. reflexivity.
Qed.

Lemma kernel_fields_length (cell : Z -> Z -> Z) : length (kernel_fields cell) = 24%nat.
Proof. reflexivity. Qed.

Lemma coeff_byte_base_one pow d reach :
  (forall y, pow 1%float y = 1%float) ->
  coeff_byte pow 1 d reach = if in_reach d reach then 255 else 0.
Proof.
  intros Hpow. unfold coeff_byte.
  destruct (in_reach d reach); [rewrite Hpow|]; vm_compute; reflexivity.
Qed.

Lemma store_coeffs_lookup h co cfs :
  length (reg_coeff h) = 48%nat -> length cfs = 24%nat ->
  exists h',
    store_coeffs co cfs h = Some (tt, h') /\
    forall i, (i < 24)%nat -> reg_coeff h' !! (coeff_offset co + i)%nat = cfs !! i.
Proof.
  intros Hl Hc. unfold store_coeffs. rewrite Hl, Hc.
  replace (coeff_offset co + 24 <=? 48)%nat with true by (destruct co; reflexivity).
  eexists. split; [reflexivity|].
  intros i Hi. cbn [reg_coeff set_reg_coeff].
  rewrite list_lookup_inserts by (destruct co; cbn [coeff_offset]; lia).
  f_equal. lia.
Qed.

(** C8 (amended): with [factor = 1.0] and any [reach], both generators store,
    for each of the 24 non-center cells [(r, c)], the byte 255 when the
    cell's distance [d] passes the guard [0 < d <= reach] and the byte 0
    otherwise; the two cells next to the center, (0, 1) and (1, 0), have
    distance 0 under both metrics and store 0 whatever [reach] is. *)
Theorem unit_factor_kernel (pow : float -> float -> float) (h : ained)
  (reach : Z) (co_index : ained_coeff_t)
  (Hpow : forall y, pow 1%float y = 1%float) (Hwf : wf h) :
  exists he hm,
    ained_set_coefficients_euclidean pow 1 reach co_index h = Some (tt, he) /\
    ained_set_coefficients_manhattan pow 1 reach co_index h = Some (tt, hm) /\
    (forall r c, 0 <= r < 5 -> 0 <= c < 5 -> (r, c) <> (0, 0) ->
       reg_coeff he !! (coeff_offset co_index + Z.to_nat (r * 5 + c - 1))%nat
         = Some (if in_reach (euclidean_distance r c) reach then 255 else 0) /\
       reg_coeff hm !! (coeff_offset co_index + Z.to_nat (r * 5 + c - 1))%nat
         = Some (if in_reach (manhattan_distance r c) reach then 255 else 0)) /\
    reg_coeff he !! (coeff_offset co_index + 0)%nat = Some 0 /\
    reg_coeff he !! (coeff_offset co_index + 4)%nat = Some 0 /\
    reg_coeff hm !! (coeff_offset co_index + 0)%nat = Some 0 /\
    reg_coeff hm !! (coeff_offset co_index + 4)%nat = Some 0.
Proof.
  destruct Hwf as (_ & _ & Hl).
  unfold ained_set_coefficients_euclidean, ained_set_coefficients_manhattan.
  destruct (store_coeffs_lookup h co_index
              (kernel_fields (fun r c => coeff_byte pow 1 (euclidean_distance r c) reach))
              Hl (kernel_fields_length _)) as (he & Ee & He).
  destruct (store_coeffs_lookup h co_index
              (kernel_fields (fun r c => coeff_byte pow 1 (manhattan_distance r c) reach))
              Hl (kernel_fields_length _)) as (hm & Em & Hm).
  exists he, hm. split; [exact Ee|]. split; [exact Em|].
  assert (Hcells : forall r c, 0 <= r < 5 -> 0 <= c < 5 -> (r, c) <> (0, 0) ->
            reg_coeff he !! (coeff_offset co_index + Z.to_nat (r * 5 + c - 1))%nat
              = Some (if in_reach (euclidean_distance r c) reach then 255 else 0) /\
            reg_coeff hm !! (coeff_offset co_index + Z.to_nat (r * 5 + c - 1))%nat
              = Some (if in_reach (manhattan_distance r c) reach then 255 else 0)).
  { intros r c Hr Hc Hne.
    assert (Hi : (Z.to_nat (r * 5 + c - 1) < 24)%nat) by lia.
    rewrite He, Hm by exact Hi.
    rewrite !kernel_fields_lookup by assumption.
    rewrite !coeff_byte_base_one by exact Hpow. split; reflexivity. }
  split; [exact Hcells|].
  destruct (Hcells 0 1) as [E01 M01]; [lia | lia | discriminate |].
  destruct (Hcells 1 0) as [E10 M10]; [lia | lia | discriminate |].
  repeat split; assumption.
Qed.

Lemma unit_factor_kernel_witness :
  exists he hm,
    ained_set_coefficients_euclidean pow_base_one 1 3 AINED_COEFF_LOW sample_handle
      = Some (tt, he) /\
    ained_set_coefficients_manhattan pow_base_one 1 3 AINED_COEFF_LOW sample_handle
      = Some (tt, hm) /\
    reg_coeff he !! 25%nat = Some 255 /\ reg_coeff hm !! 47%nat = Some 0 /\
    reg_coeff he !! 28%nat = Some 0.
Proof.
  destruct (unit_factor_kernel pow_base_one sample_handle 3 AINED_COEFF_LOW)
    as (he & hm & Ee & Em & Hcells & _ & He4 & _).
  - intros y. reflexivity.
  - repeat split.
  - exists he, hm. split; [exact Ee|]. split; [exact Em|].
    destruct (Hcells 0 2) as [E02 _]; [lia | lia | discriminate |].
    destruct (Hcells 4 4) as [_ M44]; [lia | lia | discriminate |].
    split; [exact E02|]. split; [exact M44 | exact He4].
Defined.

(** C8 as stated fails: with [factor = 1.0] and [reach = 999999] the first
    stored byte, cell (0, 1), is 0 under both metrics, and with [reach = 1]
    the last stored byte, cell (4, 4), is 0 under both metrics. *)
Lemma unit_factor_kernel_not_all_255 :
  option_map (fun r => reg_coeff (snd r) !! 0%nat)
    (ained_set_coefficients_euclidean pow_base_one 1 999999 AINED_COEFF_HIGH sample_handle)
    = Some (Some 0) /\
  option_map (fun r => reg_coeff (snd r) !! 0%nat)
    (ained_set_coefficients_manhattan pow_base_one 1 999999 AINED_COEFF_HIGH sample_handle)
    = Some (Some 0) /\
  option_map (fun r => reg_coeff (snd r) !! 23%nat)
    (ained_set_coefficients_euclidean pow_base_one 1 1 AINED_COEFF_HIGH sample_handle)
    = Some (Some 0) /\
  option_map (fun r => reg_coeff (snd r) !! 23%nat)
    (ained_set_coefficients_manhattan pow_base_one 1 1 AINED_COEFF_HIGH sample_handle)
    = Some (Some 0).
Proof. repeat split; vm_compute; reflexivity. Qed.

(** ** Snapshot of the sub-region *)

Lemma bind_some {A B : Type} (c : M A) (k : A -> M B) h a h' :
  c h = Some (a, h') -> bind c k h = k a h'.
Proof. intros E. unfold bind. rewrite E. reflexivity. Qed.

Lemma lookup_insert_Z (l : list Z) i j v :
  0 <= i < Z.of_nat (length l) -> 0 <= j ->
  <[Z.to_nat i := v]> l !! Z.to_nat j = if j =? i then Some v else l !! Z.to_nat j.
Proof.
  intros Hi Hj. destruct (Z.eqb_spec j i) as [->|Hne].
  - apply list_lookup_insert_eq. lia.
  - apply list_lookup_insert_ne. lia.
Qed.

Section Region.

Variables start_row start_col num_row num_col : Z.
Hypothesis Hsr : 0 <= start_row.
Hypothesis Hsc : 0 <= start_col.
Hypothesis Hnr : 1 <= num_row.
Hypothesis Hnc : 1 <= num_col.
Hypothesis Hrows : start_row + num_row <= 128.
Hypothesis Hcols : start_col + num_col <= 64.

Lemma region_index_bound row col :
  0 <= row < num_row -> 0 <= col < num_col ->
  0 <= num_col * row + col < num_row * num_col.
Proof. intros Hr Hc. nia. Qed.

Lemma region_div_mod row i :
  0 <= row -> num_col * row <= i < num_col * row + num_col ->
  i / num_col = row /\ i mod num_col = i - num_col * row.
Proof.
  intros Hr Hi. split; symmetry.
  - apply (Z.div_unique i num_col row (i - num_col * row)); lia.
  - apply (Z.mod_unique i num_col row (i - num_col * row)); lia.
Qed.

Lemma get_board_row_spec h row :
  length (memory h) = 128%nat -> 0 <= row < num_row ->
  forall n c0 (board : list Z),
    Z.of_nat (length board) = num_row * num_col ->
    0 <= c0 -> c0 + Z.of_nat n <= num_col ->
    exists board',
      for_loop n c0 (fun col board =>
          b <~ ained_get_bit (u32 (start_row + row)) (u32 (start_col + col)) ;;
          board_store board (u32 (num_col * row + col)) b) board h
        = Some (board', h) /\
      Z.of_nat (length board') = num_row * num_col /\
      forall i, 0 <= i ->
        board' !! Z.to_nat i =
        if (num_col * row + c0 <=? i) && (i <? num_col * row + c0 + Z.of_nat n)
        then Some (Z.b2z (cell h (start_row + row) (start_col + (i - num_col * row))))
        else board !! Z.to_nat i.
Proof.
  intros Hlen Hrow. induction n as [|n IH]; intros c0 board Hb Hc0 Hn.
  - exists board. split; [reflexivity|]. split; [exact Hb|]. intros i Hi. zbool.
  - cbn [for_loop].
    pose proof (region_index_bound row c0 Hrow ltac:(lia)) as Hidx.
    assert (Harea : num_row * num_col <= 8192) by nia.
    assert (Hcell : (b <~ ained_get_bit (u32 (start_row + row)) (u32 (start_col + c0)) ;;
                     board_store board (u32 (num_col * row + c0)) b) h
                    = Some (<[Z.to_nat (num_col * row + c0) :=
                               Z.b2z (cell h (start_row + row) (start_col + c0))]> board, h)).
    { rewrite !u32_small by lia.
      erewrite bind_some by (apply get_bit_ok; [exact Hlen | unfold valid_coord; lia]).
      unfold board_store. rewrite Hb.
      replace ((0 <=? num_col * row + c0) && (num_col * row + c0 <? num_row * num_col))
        with true by (symmetry; zbool).
      reflexivity. }
    erewrite bind_some by exact Hcell.
    destruct (IH (c0 + 1)
                (<[Z.to_nat (num_col * row + c0) :=
                    Z.b2z (cell h (start_row + row) (start_col + c0))]> board))
      as (board' & E & Hb' & Hlook); [rewrite length_insert; exact Hb | lia | lia |].
    exists board'. split; [exact E|]. split; [exact Hb'|].
    intros i Hi. rewrite Hlook by exact Hi.
    rewrite lookup_insert_Z by lia.
    destruct (Z.eqb_spec i (num_col * row + c0)) as [->|Hne].
    + replace (num_col * row + c0 - num_col * row) with c0 by lia. zbool.
    + zbool.
Qed.

Lemma get_board_rows_spec h :
  length (memory h) = 128%nat ->
  forall n r0 (board : list Z),
    Z.of_nat (length board) = num_row * num_col ->
    0 <= r0 -> r0 + Z.of_nat n <= num_row ->
    exists board',
      for_loop n r0 (fun row board =>
          for_loop (Z.to_nat num_col) 0 (fun col board =>
            b <~ ained_get_bit (u32 (start_row + row)) (u32 (start_col + col)) ;;
            board_store board (u32 (num_col * row + col)) b) board) board h
        = Some (board', h) /\
      Z.of_nat (length board') = num_row * num_col /\
      forall i, 0 <= i ->
        board' !! Z.to_nat i =
        if (num_col * r0 <=? i) && (i <? num_col * (r0 + Z.of_nat n))
        then Some (Z.b2z (cell h (start_row + i / num_col) (start_col + i mod num_col)))
        else board !! Z.to_nat i.
Proof.
  intros Hlen. induction n as [|n IH]; intros r0 board Hb Hr0 Hn.
  - exists board. split; [reflexivity|]. split; [exact Hb|]. intros i Hi. zbool.
  - cbn [for_loop].
    destruct (get_board_row_spec h r0 Hlen ltac:(lia) (Z.to_nat num_col) 0 board Hb)
      as (board1 & E1 & Hb1 & Hlook1); [lia | lia |].
    erewrite bind_some by exact E1.
    destruct (IH (r0 + 1) board1 Hb1) as (board' & E & Hb' & Hlook); [lia | lia |].
    exists board'. split; [exact E|]. split; [exact Hb'|].
    intros i Hi. rewrite Hlook, Hlook1 by exact Hi.
    destruct ((num_col * (r0 + 1) <=? i) && (i <? num_col * (r0 + 1 + Z.of_nat n))) eqn:Hin.
    + apply andb_true_iff in Hin. destruct Hin as [H1 H2].
      apply Z.leb_le in H1. apply Z.ltb_lt in H2. zbool.
    + destruct ((num_col * r0 + 0 <=? i) && (i <? num_col * r0 + 0 + Z.of_nat (Z.to_nat num_col)))
        eqn:Hrow.
      * apply andb_true_iff in Hrow. destruct Hrow as [H1 H2].
        apply Z.leb_le in H1. apply Z.ltb_lt in H2.
        destruct (region_div_mod r0 i Hr0 ltac:(lia)) as [-> ->]. zbool.
      * apply andb_false_iff in Hin. apply andb_false_iff in Hrow.
        rewrite Z.leb_gt, Z.ltb_ge in Hin, Hrow. zbool.
Qed.

Lemma get_board_spec h :
  length (memory h) = 128%nat ->
  exists board,
    ained_get_board start_row start_col num_row num_col h = Some (board, h) /\
    Z.of_nat (length board) = num_row * num_col /\
    forall i, 0 <= i < num_row * num_col ->
      board !! Z.to_nat i =
      Some (Z.b2z (cell h (start_row + i / num_col) (start_col + i mod num_col))).
Proof.
  intros Hlen. unfold ained_get_board.
  assert (Hsmall : 0 <= num_row * num_col < 2 ^ 32) by nia.
  destruct (get_board_rows_spec h Hlen (Z.to_nat num_row) 0
              (replicate (Z.to_nat (u32 (num_row * num_col))) 0))
    as (board & E & Hb & Hlook).
  - rewrite length_replicate, u32_small by exact Hsmall. lia.
  - lia.
  - lia.
  - exists board. split; [exact E|]. split; [exact Hb|].
    intros i Hi. rewrite Hlook by lia.
    replace ((num_col * 0 <=? i) && (i <? num_col * (0 + Z.of_nat (Z.to_nat num_row))))
      with true; [reflexivity|].
    symmetry. replace (0 + Z.of_nat (Z.to_nat num_row)) with num_row by lia. zbool.
Qed.

(** ** Restoring the snapshot under bypass *)

Lemma same_regs_refl h : same_regs h h.
Proof. repeat split. Qed.

Lemma same_regs_trans h1 h2 h3 : same_regs h1 h2 -> same_regs h2 h3 -> same_regs h1 h3.
Proof.
  unfold same_regs. intros H12 H23.
  destruct H12 as (?&?&?&?&?&?&?&?&?), H23 as (?&?&?&?&?&?&?&?&?).
  repeat split; congruence.
Qed.

Lemma region_cell_of_index i :
  0 <= i < num_row * num_col ->
  0 <= i / num_col < num_row /\ 0 <= i mod num_col < num_col.
Proof.
  intros Hi. split; [split|].
  - apply Z.div_pos; lia.
  - apply Z.div_lt_upper_bound; lia.
  - apply Z.mod_pos_bound. lia.
Qed.

Lemma restore_step_merge (a e oi o R lo1 lo hi : bool) :
  (e = true -> oi = o /\ R = true /\ lo = true /\ lo1 = false /\ hi = true) ->
  (e = false -> R = true -> lo1 = lo) ->
  xorb (xorb a (e && oi)) (R && lo1 && hi && o) = xorb a (R && lo && hi && o).
Proof.
  intros He Hne. destruct e.
  - destruct (He eq_refl) as (-> & -> & -> & -> & ->). destruct a, o; reflexivity.
  - destruct R; [rewrite (Hne eq_refl eq_refl)|]; destruct a, lo, hi, o; reflexivity.
Qed.

Lemma restore_loop_spec (board : list Z) (h0 : ained) :
  Z.of_nat (length board) = num_row * num_col ->
  (forall i, 0 <= i < num_row * num_col ->
     board !! Z.to_nat i =
     Some (Z.b2z (cell h0 (start_row + i / num_col) (start_col + i mod num_col)))) ->
  forall n i h,
    length (memory h) = 128%nat -> reg_mask h = ones64 ->
    0 <= i -> i + Z.of_nat n <= num_row * num_col ->
    exists h',
      for_loop n i (fun i _ =>
          b <~ board_load board i ;;
          if b =? 1 then
            ained_flip_isolated_bit (u32 (start_row + i / num_col))
                                    (u32 (start_col + i mod num_col))
          else ret tt) tt h = Some (tt, h') /\
      length (memory h') = 128%nat /\ same_regs h h' /\
      forall r c, valid_coord r c ->
        cell h' r c =
        xorb (cell h r c)
             (in_region start_row start_col num_row num_col r c
              && (i <=? num_col * (r - start_row) + (c - start_col))
              && (num_col * (r - start_row) + (c - start_col) <? i + Z.of_nat n)
              && cell h0 r c).
Proof.
  intros Hblen Hboard. induction n as [|n IH]; intros i h Hlen Hm Hi Hn.
  - exists h. split; [reflexivity|]. split; [exact Hlen|]. split; [apply same_regs_refl|].
    intros r c Hv.
    destruct (Z.leb_spec i (num_col * (r - start_row) + (c - start_col))),
      (Z.ltb_spec (num_col * (r - start_row) + (c - start_col)) (i + Z.of_nat 0));
      try lia;
      rewrite ?andb_false_r; cbn [andb]; rewrite ?xorb_false_r; reflexivity.
  - cbn [for_loop].
    destruct (region_cell_of_index i ltac:(lia)) as [Hq Hr].
    set (ri := start_row + i / num_col) in *.
    set (ci := start_col + i mod num_col) in *.
    assert (Hvi : valid_coord ri ci) by (unfold valid_coord, ri, ci; lia).
    assert (Hstep : exists h1,
               (b <~ board_load board i ;;
                if b =? 1 then ained_flip_isolated_bit (u32 ri) (u32 ci) else ret tt) h
               = Some (tt, h1) /\
               length (memory h1) = 128%nat /\ same_regs h h1 /\
               forall r c, valid_coord r c ->
                 cell h1 r c = xorb (cell h r c) ((r =? ri) && (c =? ci) && cell h0 ri ci)).
    { assert (Hload : board_load board i h = Some (Z.b2z (cell h0 ri ci), h)).
      { unfold board_load. rewrite Hblen.
        replace ((0 <=? i) && (i <? num_row * num_col)) with true by (symmetry; zbool).
        rewrite Hboard by lia. reflexivity. }
      erewrite bind_some by exact Hload.
      destruct (cell h0 ri ci) eqn:Hold; cbn [Z.b2z Z.eqb Pos.eqb].
      - destruct Hvi as [Hvr Hvc]. rewrite !u32_small by lia.
        destruct (flip_isolated_bit_cells h ri ci Hlen Hm (conj Hvr Hvc))
          as (h1 & E1 & Hlen1 & Hregs1 & Hc1).
        exists h1. repeat (split; [assumption|]).
        intros r c Hv. rewrite Hc1 by exact Hv. rewrite andb_true_r. reflexivity.
      - exists h. split; [reflexivity|]. split; [exact Hlen|]. split; [apply same_regs_refl|].
        intros r c Hv. rewrite andb_false_r, xorb_false_r. reflexivity. }
    destruct Hstep as (h1 & E1 & Hlen1 & Hregs1 & Hc1).
    erewrite bind_some by exact E1.
    assert (Hm1 : reg_mask h1 = ones64) by (destruct Hregs1 as (-> & _); exact Hm).
    destruct (IH (i + 1) h1 Hlen1 Hm1) as (h' & E & Hlen' & Hregs' & Hc'); [lia | lia |].
    exists h'. split; [exact E|]. split; [exact Hlen'|].
    split; [eapply same_regs_trans; eassumption|].
    intros r c Hv. rewrite Hc', Hc1 by exact Hv.
    replace (i + 1 + Z.of_nat n) with (i + Z.of_nat (S n)) by lia.
    apply restore_step_merge.
    + intros He. apply andb_true_iff in He. destruct He as [Her Hec].
      apply Z.eqb_eq in Her. apply Z.eqb_eq in Hec. subst r c.
      pose proof (Z.div_mod i num_col ltac:(lia)) as Hdm.
      unfold in_region, ri, ci.
      replace (num_col * (start_row + i / num_col - start_row)
               + (start_col + i mod num_col - start_col)) with i by lia.
      repeat split; zbool.
    + intros He HR. unfold in_region in HR.
      apply andb_true_iff in HR. destruct HR as [HR Hc4].
      apply andb_true_iff in HR. destruct HR as [HR Hc3].
      apply andb_true_iff in HR. destruct HR as [Hc1' Hc2].
      apply Z.leb_le in Hc1'. apply Z.ltb_lt in Hc2.
      apply Z.leb_le in Hc3. apply Z.ltb_lt in Hc4.
      destruct (Z.eq_dec (num_col * (r - start_row) + (c - start_col)) i) as [Heq|Hneq];
        [|zbool].
      exfalso.
      destruct (region_div_mod (r - start_row) i ltac:(lia) ltac:(lia)) as [Hd Hmod].
      assert (r = ri) by (unfold ri; lia).
      assert (c = ci) by (unfold ci; lia).
      subst r c. rewrite !Z.eqb_refl in He. discriminate He.
Qed.

(** ** The cross flip, cell by cell *)

Lemma set_bypass_eq (enable : bool) h :
  ained_set_bypass enable h =
  Some (tt, set_reg_mask (if enable then ones64 else 0)
              (set_reg_bypass (if enable then 1 else 0) h)).
Proof. destruct enable; reflexivity. Qed.

Lemma cond_flip_cells (b : bool) h r0 c0 :
  length (memory h) = 128%nat -> reg_mask h = ones64 ->
  (b = true -> valid_coord r0 c0) ->
  exists h',
    (if b then ained_flip_isolated_bit (u32 r0) (u32 c0) else ret tt) h = Some (tt, h') /\
    length (memory h') = 128%nat /\ same_regs h h' /\
    forall r c, valid_coord r c ->
      cell h' r c = xorb (cell h r c) (b && ((r =? r0) && (c =? c0))).
Proof.
  intros Hlen Hm Hv. destruct b.
  - destruct (Hv eq_refl) as [Hr Hc]. rewrite !u32_small by lia.
    destruct (flip_isolated_bit_cells h r0 c0 Hlen Hm (conj Hr Hc))
      as (h' & E & Hlen' & Hregs & Hcells).
    exists h'. repeat (split; [assumption|]). exact Hcells.
  - exists h. split; [reflexivity|]. split; [exact Hlen|]. split; [apply same_regs_refl|].
    intros r c _. cbn [andb]. rewrite xorb_false_r. reflexivity.
Qed.

Lemma set_target_commit_cells h row col :
  length (memory h) = 128%nat -> valid_coord row col ->
  index h < 0 -> mask h = 0 -> value h = 0 ->
  (forall w, 0 <= w < 128 -> word_at h w = 0) ->
  exists h',
    (ained_set_bit row col 1 ;;> ained_commit) h = Some (tt, h') /\
    length (memory h') = 128%nat /\
    index h' = -1 /\ mask h' = 0 /\ value h' = 0 /\
    reg_coeff h' = reg_coeff h /\ reg_dipole h' = reg_dipole h /\
    num_dipoles h' = num_dipoles h /\ stderr h' = stderr h /\
    forall r c, valid_coord r c -> cell h' r c = ((r =? row) && (c =? col)).
Proof.
  intros Hlen Hv Hidx Hmask Hval Hzero.
  pose proof (get_index_range row col Hv) as Hw.
  pose proof (get_word_index_range row col) as Hb.
  erewrite bind_some by (apply set_bit_accepted; [exact Hv | left; exact Hidx]).
  cbn zeta. cbn [negb Z.eqb]. rewrite Hmask, Hval, !Z.lor_0_l.
  match goal with |- context [ained_commit ?g] => set (h2 := g) end.
  destruct (commit_bits h2) as (h' & Ec & Hbits & Hother & Hi & Hm & Hvl & _ & Hl & Hco & _ & Hdi & Hnd & Her);
    [exact Hlen | cbn; lia |].
  exists h'. split; [exact Ec|].
  cbn [index mask value h2 set_mask set_value set_index] in Hbits, Hother.
  repeat (split; [assumption|]).
  intros r c Hrc.
  pose proof (get_index_range r c Hrc) as Hw'.
  pose proof (get_word_index_range r c) as Hb'.
  rewrite <- (valid_cells_differ r c row col Hrc Hv). unfold cell.
  destruct (Z.eqb_spec (ained_get_index r c) (ained_get_index row col)) as [->|Hne]; cbn [andb].
  - rewrite Hbits by lia. rewrite testbit_bit64 by lia.
    rewrite (Z.eqb_sym (ained_get_word_index r c)).
    destruct (ained_get_word_index row col =? ained_get_word_index r c); [reflexivity|].
    change (bit_at h2 (ained_get_index row col) (ained_get_word_index r c))
      with (bit_at h (ained_get_index row col) (ained_get_word_index r c)).
    unfold bit_at. rewrite Hzero by lia. apply Z.bits_0.
  - rewrite Hother by lia.
    change (bit_at h2 (ained_get_index r c) (ained_get_word_index r c))
      with (bit_at h (ained_get_index r c) (ained_get_word_index r c)).
    unfold bit_at. rewrite Hzero by lia. apply Z.bits_0.
Qed.

Lemma in_region_index r c :
  in_region start_row start_col num_row num_col r c = true ->
  0 <= num_col * (r - start_row) + (c - start_col) < num_row * num_col.
Proof.
  unfold in_region. intros H.
  apply andb_true_iff in H. destruct H as [H H4].
  apply andb_true_iff in H. destruct H as [H H3].
  apply andb_true_iff in H. destruct H as [H1 H2].
  apply Z.leb_le in H1. apply Z.ltb_lt in H2. apply Z.leb_le in H3. apply Z.ltb_lt in H4.
  nia.
Qed.

Lemma xor_chain (t g u d l r : bool) :
  xorb (xorb (xorb (xorb (xorb t g) u) d) l) r = xorb g (xorb t (xorb u (xorb d (xorb l r)))).
Proof. destruct t, g, u, d, l, r; reflexivity. Qed.

Lemma flip_lights_cells h row col :
  wf h -> no_pending h ->
  0 <= row -> 0 <= col -> start_row + row < 128 -> start_col + col < 64 ->
  flip_lights_guard start_row start_col num_row num_col row col = false ->
  exists h',
    ained_flip_lights start_row start_col num_row num_col row col h = Some (tt, h') /\
    wf h' /\ no_pending h' /\ reg_bypass h' = 0 /\ reg_mask h' = 0 /\
    stderr h' = stderr h /\
    forall r c, valid_coord r c ->
      cell h' r c =
      xorb (in_region start_row start_col num_row num_col r c && cell h r c)
           (cross start_row start_col num_row num_col row col r c).
Proof.
  intros (Hlen & Hdl & Hcl) (Hidx & Hmask & Hval) Hrow Hcol Hrow' Hcol' Hguard.
  unfold ained_flip_lights. rewrite Hguard.
  assert (Harea : 0 <= num_row * num_col <= 8192) by nia.
  (* snapshot *)
  destruct (get_board_spec h Hlen) as (board & Eb & Hbl & Hboard).
  erewrite bind_some by exact Eb.
  (* clear *)
  destruct (clear_memory_spec h Hlen)
    as (h1 & E1 & Hlen1 & Hz1 & _ & _ & Hc1 & Hd1 & Hn1 & Hi1 & Hm1 & Hv1 & He1).
  erewrite bind_some by exact E1.
  (* set the target bit and commit *)
  assert (Hvt : valid_coord (start_row + row) (start_col + col))
    by (unfold valid_coord; lia).
  destruct (set_target_commit_cells h1 (start_row + row) (start_col + col) Hlen1 Hvt)
    as (h3 & E3 & Hlen3 & Hi3 & Hm3 & Hv3 & Hc3 & Hd3 & Hn3 & He3 & Hcell3);
    [lia | congruence | congruence | exact Hz1 |].
  unfold bind at 1 in E3.
  destruct (ained_set_bit (start_row + row) (start_col + col) 1 h1) as [[[] h2]|] eqn:E2;
    [|discriminate E3].
  assert (E2' : ained_set_bit (u32 (start_row + row)) (u32 (start_col + col)) 1 h1
                = Some (tt, h2))
    by (rewrite !u32_small by lia; exact E2).
  erewrite bind_some by exact E2'.
  erewrite bind_some by exact E3.
  (* the read of cell (0, 0) *)
  erewrite bind_some by (apply get_bit_ok; [exact Hlen3 | unfold valid_coord; lia]).
  (* bypass on *)
  erewrite bind_some by apply set_bypass_eq.
  set (h4 := set_reg_mask ones64 (set_reg_bypass 1 h3)).
  (* restore the snapshot *)
  destruct (restore_loop_spec board h Hbl Hboard (Z.to_nat (num_row * num_col)) 0 h4)
    as (h5 & E5 & Hlen5 & Hregs5 & Hcell5); [exact Hlen3 | reflexivity | lia | lia |].
  rewrite <- (u32_small (num_row * num_col)) in E5 at 1 by lia.
  erewrite bind_some by exact E5.
  assert (Hmask5 : reg_mask h5 = ones64) by (destruct Hregs5 as (-> & _); reflexivity).
  (* the four neighbours *)
  destruct (cond_flip_cells (0 <? row) h5 (start_row + row - 1) (start_col + col) Hlen5 Hmask5)
    as (h6 & E6 & Hlen6 & Hregs6 & Hcell6);
    [intros Hb; apply Z.ltb_lt in Hb; unfold valid_coord; lia|].
  erewrite bind_some by exact E6.
  assert (Hmask6 : reg_mask h6 = ones64) by (destruct Hregs6 as (-> & _); exact Hmask5).
  destruct (cond_flip_cells (row <? u32 (num_row - 1)) h6 (start_row + row + 1) (start_col + col)
              Hlen6 Hmask6)
    as (h7 & E7 & Hlen7 & Hregs7 & Hcell7);
    [rewrite u32_small by lia; intros Hb; apply Z.ltb_lt in Hb; unfold valid_coord; lia|].
  erewrite bind_some by exact E7.
  assert (Hmask7 : reg_mask h7 = ones64) by (destruct Hregs7 as (-> & _); exact Hmask6).
  destruct (cond_flip_cells (0 <? col) h7 (start_row + row) (start_col + col - 1) Hlen7 Hmask7)
    as (h8 & E8 & Hlen8 & Hregs8 & Hcell8);
    [intros Hb; apply Z.ltb_lt in Hb; unfold valid_coord; lia|].
  erewrite bind_some by exact E8.
  assert (Hmask8 : reg_mask h8 = ones64) by (destruct Hregs8 as (-> & _); exact Hmask7).
  destruct (cond_flip_cells (col <? u32 (num_col - 1)) h8 (start_row + row) (start_col + col + 1)
              Hlen8 Hmask8)
    as (h9 & E9 & Hlen9 & Hregs9 & Hcell9);
    [rewrite u32_small by lia; intros Hb; apply Z.ltb_lt in Hb; unfold valid_coord; lia|].
  erewrite bind_some by exact E9.
  (* bypass off *)
  rewrite set_bypass_eq.
  pose proof (same_regs_trans _ _ _ Hregs5
                (same_regs_trans _ _ _ Hregs6
                   (same_regs_trans _ _ _ Hregs7
                      (same_regs_trans _ _ _ Hregs8 Hregs9)))) as Hregs.
  destruct Hregs as (_ & Hrc & _ & Hrd & _ & Hri & Hrm & Hrv & Hre).
  cbn [reg_coeff reg_dipole index mask value stderr h4 set_reg_mask set_reg_bypass] in *.
  eexists. split; [reflexivity|].
  split; [|split; [|split; [|split; [|split]]]].
  - unfold wf. cbn [memory reg_coeff reg_dipole set_reg_mask set_reg_bypass].
    repeat split; congruence.
  - unfold no_pending. cbn [index mask value set_reg_mask set_reg_bypass].
    repeat split; congruence.
  - reflexivity.
  - reflexivity.
  - cbn [stderr set_reg_mask set_reg_bypass]. congruence.
  - intros r c Hv.
    change (cell (set_reg_mask 0 (set_reg_bypass 0 h9)) r c) with (cell h9 r c).
    rewrite Hcell9, Hcell8, Hcell7, Hcell6, Hcell5 by exact Hv.
    change (cell h4 r c) with (cell h3 r c). rewrite Hcell3 by exact Hv.
    assert (Hrestored :
              in_region start_row start_col num_row num_col r c
              && (0 <=? num_col * (r - start_row) + (c - start_col))
              && (num_col * (r - start_row) + (c - start_col)
                  <? 0 + Z.of_nat (Z.to_nat (num_row * num_col)))
              && cell h r c
              = in_region start_row start_col num_row num_col r c && cell h r c).
    { destruct (in_region start_row start_col num_row num_col r c) eqn:HR; [|reflexivity].
      pose proof (in_region_index r c HR). cbn [andb]. zbool. }
    rewrite Hrestored, !u32_small by lia. unfold cross. apply xor_chain.
Qed.

End Region.

Lemma in_region_valid start_row start_col num_row num_col r c :
  0 <= start_row -> 0 <= start_col ->
  start_row + num_row <= 128 -> start_col + num_col <= 64 ->
  in_region start_row start_col num_row num_col r c = true -> valid_coord r c.
Proof.
  unfold in_region, valid_coord. intros Hsr Hsc Hr Hc H.
  apply andb_true_iff in H. destruct H as [H H4].
  apply andb_true_iff in H. destruct H as [H H3].
  apply andb_true_iff in H. destruct H as [H1 H2].
  apply Z.leb_le in H1. apply Z.ltb_lt in H2. apply Z.leb_le in H3. apply Z.ltb_lt in H4.
  lia.
Qed.

Lemma get_board_determined start_row start_col num_row num_col h h' :
  0 <= start_row -> 0 <= start_col -> 1 <= num_row -> 1 <= num_col ->
  start_row + num_row <= 128 -> start_col + num_col <= 64 ->
  length (memory h) = 128%nat -> length (memory h') = 128%nat ->
  (forall r c, in_region start_row start_col num_row num_col r c = true ->
     cell h' r c = cell h r c) ->
  fst <$> ained_get_board start_row start_col num_row num_col h'
  = fst <$> ained_get_board start_row start_col num_row num_col h.
Proof.
  intros Hsr Hsc Hnr Hnc Hrows Hcols Hlen Hlen' Hcells.
  destruct (get_board_spec start_row start_col num_row num_col Hsr Hsc Hnr Hnc Hrows Hcols h Hlen)
    as (b & E & Hbl & Hb).
  destruct (get_board_spec start_row start_col num_row num_col Hsr Hsc Hnr Hnc Hrows Hcols h' Hlen')
    as (b' & E' & Hbl' & Hb').
  rewrite E, E'. cbn. f_equal.
  apply list_eq. intros n.
  destruct (Z.lt_ge_cases (Z.of_nat n) (num_row * num_col)) as [Hlt|Hge].
  - specialize (Hb (Z.of_nat n) ltac:(lia)). specialize (Hb' (Z.of_nat n) ltac:(lia)).
    rewrite Nat2Z.id in Hb, Hb'. rewrite Hb, Hb'. do 2 f_equal.
    apply Hcells.
    destruct (region_cell_of_index num_row num_col Hnc (Z.of_nat n) ltac:(lia)) as [Hq Hr].
    unfold in_region. zbool.
  - rewrite !lookup_ge_None_2 by lia. reflexivity.
Qed.

(** ** The cross flip: self-inverse, and its shape at the origin *)

(** Where the cross flip is its own inverse: with no transaction pending,
    for every grid state, every non-empty sub-region inside the 128 x 64
    grid and every target [(row, col)] whose addressed cell
    [(start_row + row, start_col + col)] lies in the grid (every target of a
    sub-region anchored at the origin, and every target given relative to
    the sub-region), two successive calls of [ained_flip_lights] with the
    same arguments both return, and every cell of the sub-region then holds
    its pre-call value: the snapshot [ained_get_board] takes afterwards is
    the one it takes before. *)
Theorem flip_lights_twice_restores (h : ained)
  (start_row start_col num_row num_col row col : Z)
  (Hwf : wf h) (Hidle : no_pending h)
  (Hsr : 0 <= start_row) (Hsc : 0 <= start_col)
  (Hnr : 1 <= num_row) (Hnc : 1 <= num_col)
  (Hrows : start_row + num_row <= 128) (Hcols : start_col + num_col <= 64)
  (Hrow : 0 <= row) (Hcol : 0 <= col)
  (Hrow' : start_row + row < 128) (Hcol' : start_col + col < 64) :
  exists h1 h2,
    ained_flip_lights start_row start_col num_row num_col row col h = Some (tt, h1) /\
    ained_flip_lights start_row start_col num_row num_col row col h1 = Some (tt, h2) /\
    (forall r c, in_region start_row start_col num_row num_col r c = true ->
       cell h2 r c = cell h r c) /\
    fst <$> ained_get_board start_row start_col num_row num_col h2
    = fst <$> ained_get_board start_row start_col num_row num_col h.
Proof.
  destruct (flip_lights_guard start_row start_col num_row num_col row col) eqn:Hg.
  - exists h, h. unfold ained_flip_lights. rewrite Hg. repeat split.
  - destruct (flip_lights_cells start_row start_col num_row num_col
                Hsr Hsc Hnr Hnc Hrows Hcols h row col Hwf Hidle Hrow Hcol Hrow' Hcol' Hg)
      as (h1 & E1 & Hwf1 & Hidle1 & _ & _ & _ & Hc1).
    destruct (flip_lights_cells start_row start_col num_row num_col
                Hsr Hsc Hnr Hnc Hrows Hcols h1 row col Hwf1 Hidle1 Hrow Hcol Hrow' Hcol' Hg)
      as (h2 & E2 & Hwf2 & _ & _ & _ & _ & Hc2).
    exists h1, h2. split; [exact E1|]. split; [exact E2|].
    assert (Hcells : forall r c, in_region start_row start_col num_row num_col r c = true ->
                       cell h2 r c = cell h r c).
    { intros r c HR.
      pose proof (in_region_valid _ _ _ _ r c Hsr Hsc Hrows Hcols HR) as Hv.
      rewrite Hc2, Hc1 by exact Hv. rewrite HR. cbn [andb].
      rewrite xorb_assoc, xorb_nilpotent, xorb_false_r. reflexivity. }
    split; [exact Hcells|].
    destruct Hwf as (Hlen & _), Hwf2 as (Hlen2 & _).
    apply get_board_determined; assumption.
Qed.

Lemma flip_lights_twice_restores_witness :
  exists h1 h2,
    ained_flip_lights 0 0 3 3 1 1
      (with_grid (<[0%nat := 2 ^ 9 + 2 ^ 1 + 2 ^ 63]> (replicate 128 0)) sample_handle)
      = Some (tt, h1) /\
    ained_flip_lights 0 0 3 3 1 1 h1 = Some (tt, h2) /\
    fst <$> ained_get_board 0 0 3 3 h2
    = fst <$> ained_get_board 0 0 3 3
                (with_grid (<[0%nat := 2 ^ 9 + 2 ^ 1 + 2 ^ 63]> (replicate 128 0))
                   sample_handle).
Proof.
  destruct (flip_lights_twice_restores
              (with_grid (<[0%nat := 2 ^ 9 + 2 ^ 1 + 2 ^ 63]> (replicate 128 0)) sample_handle)
              0 0 3 3 1 1)
    as (h1 & h2 & E1 & E2 & _ & Hb); try lia.
  - repeat split.
  - repeat split.
  - exists h1, h2. split; [exact E1|]. split; [exact E2 | exact Hb].
Defined.




Lemma cross_at_origin num_row num_col row col r c :
  0 <= row < num_row -> 0 <= col < num_col ->
  0 <= r < num_row -> 0 <= c < num_col ->
  cross 0 0 num_row num_col row col r c = is_target_or_neighbour row col r c.
Proof.
  intros Hrow Hcol Hr Hc. unfold cross, is_target_or_neighbour.
  rewrite !Z.add_0_l.
  destruct (Z.eqb_spec r row), (Z.eqb_spec c col),
    (Z.eqb_spec r (row - 1)), (Z.eqb_spec r (row + 1)); try lia;
    destruct (Z.eqb_spec c (col - 1)), (Z.eqb_spec c (col + 1)); try lia;
    destruct (Z.ltb_spec 0 row), (Z.ltb_spec row (num_row - 1)); try lia;
    destruct (Z.ltb_spec 0 col), (Z.ltb_spec col (num_col - 1)); try lia;
    reflexivity.
Qed.

(** Where the cross flip is right: on a sub-region anchored at the grid
    origin, with no transaction pending, the call flips the target and its
    orthogonal neighbours inside the sub-region and restores every other
    cell of the sub-region. *)
Theorem flip_lights_origin_cross (h : ained) (num_row num_col row col : Z)
  (Hwf : wf h) (Hidle : no_pending h)
  (Hnr : 1 <= num_row <= 128) (Hnc : 1 <= num_col <= 64)
  (Hrow : 0 <= row < num_row) (Hcol : 0 <= col < num_col) :
  exists h',
    ained_flip_lights 0 0 num_row num_col row col h = Some (tt, h') /\
    forall r c, in_region 0 0 num_row num_col r c = true ->
      cell h' r c = xorb (cell h r c) (is_target_or_neighbour row col r c).
Proof.
  assert (Hg : flip_lights_guard 0 0 num_row num_col row col = false).
  { unfold flip_lights_guard. rewrite !Z.add_0_l, !u32_small by lia. zbool. }
  destruct (flip_lights_cells 0 0 num_row num_col
              ltac:(lia) ltac:(lia) ltac:(lia) ltac:(lia) ltac:(lia) ltac:(lia)
              h row col Hwf Hidle ltac:(lia) ltac:(lia) ltac:(lia) ltac:(lia) Hg)
    as (h' & E & _ & _ & _ & _ & _ & Hc).
  exists h'. split; [exact E|].
  intros r c HR.
  pose proof (in_region_valid 0 0 num_row num_col r c
                ltac:(lia) ltac:(lia) ltac:(lia) ltac:(lia) HR) as Hv.
  rewrite Hc by exact Hv. rewrite HR. cbn [andb].
  unfold in_region in HR.
  apply andb_true_iff in HR. destruct HR as [HR H4].
  apply andb_true_iff in HR. destruct HR as [HR H3].
  apply andb_true_iff in HR. destruct HR as [H1 H2].
  apply Z.leb_le in H1. apply Z.ltb_lt in H2. apply Z.leb_le in H3. apply Z.ltb_lt in H4.
  rewrite cross_at_origin by lia. reflexivity.
Qed.

Lemma flip_lights_origin_cross_witness :
  exists h',
    ained_flip_lights 0 0 3 3 1 1
      (with_grid (<[0%nat := 2 ^ 9 + 2 ^ 1 + 2 ^ 63]> (replicate 128 0)) sample_handle)
      = Some (tt, h') /\
    cell h' 1 1 = false /\ cell h' 0 0 = false /\ cell h' 2 1 = true.
Proof.
  destruct (flip_lights_origin_cross
              (with_grid (<[0%nat := 2 ^ 9 + 2 ^ 1 + 2 ^ 63]> (replicate 128 0)) sample_handle)
              3 3 1 1)
    as (h' & E & Hc); try lia.
  - repeat split.
  - repeat split.
  - exists h'. split; [exact E|].
    split; [exact (Hc 1 1 eq_refl)|]. split; [exact (Hc 0 0 eq_refl) | exact (Hc 2 1 eq_refl)].
Defined.

(** C1 on a sub-region that does not start at the origin.  The sub-region is
    rows 1..2 x columns 1..2 of an all-zero grid.
    - Target (1, 1), its top-left cell: the snapshot afterwards reads
      [0; 1; 1; 1] - the target is still 0 and the opposite corner (2, 2) is
      lit - where the claim gives [1; 1; 1; 0].
    - Target (2, 2), its bottom-right cell: the snapshot afterwards reads
      [0; 0; 0; 0]; neither the target nor its two neighbours in the
      sub-region changed.
    - Target (0, 0) relative to the sub-region, i.e. cell (1, 1): the guard
      rejects it and nothing changes. *)
Theorem flip_lights_offset_region_misses_cross :
  fst <$> (ained_flip_lights 1 1 2 2 1 1 ;;> ained_get_board 1 1 2 2) sample_handle
    = Some [0; 1; 1; 1] /\
  fst <$> (ained_flip_lights 1 1 2 2 2 2 ;;> ained_get_board 1 1 2 2) sample_handle
    = Some [0; 0; 0; 0] /\
  fst <$> ained_get_board 1 1 2 2 sample_handle = Some [0; 0; 0; 0] /\
  ained_flip_lights 1 1 2 2 0 0 sample_handle = Some (tt, sample_handle).
Proof. repeat split; vm_compute; reflexivity. Qed.

(** * Further properties of the code *)

(** ** Transaction buffer: read back, repeated commit, raw words *)

(** A committed [set_bit] is read back by [ained_get_bit], and the read of
    every other cell is what it was before. *)
Theorem set_bit_commit_read_back (h : ained) (row col v : Z)
  (Hwf : wf h) (Hidle : index h < 0) (Hmask : mask h = 0)
  (Hv : valid_coord row col) :
  exists h',
    (ained_set_bit row col v ;;> ained_commit) h = Some (tt, h') /\
    ained_get_bit row col h' = Some (if v =? 0 then 0 else 1, h') /\
    forall r c, valid_coord r c -> (r, c) <> (row, col) ->
      fst <$> ained_get_bit r c h' = fst <$> ained_get_bit r c h.
Proof.
  destruct Hwf as (Hlen & _ & _).
  pose proof (get_index_range row col Hv) as Hw.
  pose proof (get_word_index_range row col) as Hb.
  erewrite bind_some by (apply set_bit_accepted; [exact Hv | left; exact Hidle]).
  cbn zeta. rewrite Hmask, Z.lor_0_l.
  match goal with |- context [ained_commit ?g] => set (h2 := g) end.
  destruct (commit_bits h2) as (h' & Ec & Hbits & Hother & _ & _ & _ & _ & Hlen' & _);
    [exact Hlen | cbn; lia |].
  cbn [index mask value h2 set_mask set_value set_index] in Hbits, Hother.
  exists h'. split; [exact Ec|]. split.
  - rewrite get_bit_ok by assumption. unfold cell.
    rewrite Hbits by lia. rewrite testbit_bit64, Z.eqb_refl by lia.
    rewrite (testbit_requested v (value h) _ _) by lia. rewrite Z.eqb_refl.
    destruct (v =? 0); reflexivity.
  - intros r c Hrc Hne.
    pose proof (get_index_range r c Hrc) as Hw'.
    pose proof (get_word_index_range r c) as Hb'.
    rewrite !get_bit_ok by assumption. cbn. do 2 f_equal. unfold cell.
    destruct (Z.eq_dec (ained_get_index r c) (ained_get_index row col)) as [Heq|Hneq].
    + rewrite Heq, Hbits by lia. rewrite testbit_bit64 by lia.
      destruct (Z.eqb_spec (ained_get_word_index row col) (ained_get_word_index r c))
        as [Heb|Hneb]; [|reflexivity].
      exfalso. apply Hne.
      destruct (to_physical_inj r c row col Hrc Hv); [|congruence].
      unfold to_physical. congruence.
    + rewrite Hother by lia. reflexivity.
Qed.

Lemma set_bit_commit_read_back_witness :
  exists h',
    (ained_set_bit 9 10 1 ;;> ained_commit) sample_handle = Some (tt, h') /\
    ained_get_bit 9 10 h' = Some (1, h').
Proof.
  destruct (set_bit_commit_read_back sample_handle 9 10 1) as (h' & E & Hr & _).
  - repeat split.
  - cbn. lia.
  - reflexivity.
  - unfold valid_coord. lia.
  - exists h'. split; [exact E | exact Hr].
Defined.

(** A commit consumes the pending transaction: a second commit right after a
    successful one only reports [NothingToCommit], leaving the grid, the
    registers and the cleared transaction fields as the first commit left
    them. *)
Theorem commit_twice_reports_nothing (h : ained)
  (Hwf : wf h) (Hidx : 0 <= index h < 128) :
  exists h1,
    ained_commit h = Some (tt, h1) /\
    ained_commit h1 = Some (tt, report NothingToCommit h1) /\
    memory (report NothingToCommit h1) = memory h1 /\
    reg_mask (report NothingToCommit h1) = reg_mask h1 /\
    index (report NothingToCommit h1) = -1 /\
    stderr (report NothingToCommit h1) = NothingToCommit :: stderr h.
Proof.
  destruct Hwf as (Hlen & _ & _).
  destruct (commit_bits h Hlen Hidx)
    as (h1 & E & _ & _ & Hi & _ & _ & _ & _ & _ & _ & _ & _ & He).
  exists h1. split; [exact E|].
  split.
  - unfold ained_commit. rewrite Hi. reflexivity.
  - cbn [memory reg_mask index stderr report]. rewrite He. auto.
Qed.

Lemma commit_twice_reports_nothing_witness :
  exists h1,
    ained_commit (set_index 3 (set_mask 5 (set_value 4 sample_handle))) = Some (tt, h1) /\
    ained_commit h1 = Some (tt, report NothingToCommit h1) /\
    stderr (report NothingToCommit h1) = [NothingToCommit].
Proof.
  destruct (commit_twice_reports_nothing (set_index 3 (set_mask 5 (set_value 4 sample_handle))))
    as (h1 & E1 & E2 & _ & _ & _ & He).
  - repeat split.
  - cbn. lia.
  - exists h1. split; [exact E1|]. split; [exact E2 | exact He].
Defined.

(** The raw path [ained_set_mask]; [ained_set_word]; [ained_commit], from any
    state of the transaction buffer: the word at [offset] takes the bits of
    [word] where [m] is set and keeps its own elsewhere, every other word is
    unchanged, the write-mask register holds [m], the buffer is cleared, and
    no diagnostic is printed - whatever was pending before is dropped
    silently. *)
Theorem set_mask_set_word_commit (h : ained) (m offset word : Z)
  (Hwf : wf h) (Hoff : 0 <= offset < 128) :
  exists h',
    (ained_set_mask m ;;> ained_set_word offset word ;;> ained_commit) h = Some (tt, h') /\
    (forall k, 0 <= k < 64 ->
       bit_at h' offset k = if Z.testbit m k then Z.testbit word k else bit_at h offset k) /\
    (forall w k, 0 <= w -> w <> offset -> bit_at h' w k = bit_at h w k) /\
    reg_mask h' = m /\ index h' = -1 /\ mask h' = 0 /\ value h' = 0 /\
    stderr h' = stderr h.
Proof.
  destruct Hwf as (Hlen & _ & _).
  unfold ained_set_mask, ained_set_word.
  erewrite bind_some by reflexivity. erewrite bind_some by reflexivity.
  rewrite to_int32_small by lia.
  match goal with |- context [ained_commit ?g] => set (h2 := g) end.
  destruct (commit_bits h2)
    as (h' & Ec & Hbits & Hother & Hi & Hm & Hv & Hrm & _ & _ & _ & _ & _ & He);
    [exact Hlen | cbn; lia |].
  cbn [index mask value stderr h2 set_mask set_value set_index set_reg_mask]
    in Hbits, Hother, Hrm, He.
  exists h'. split; [exact Ec|].
  repeat (split; [assumption|]). exact He.
Qed.

Lemma set_mask_set_word_commit_witness :
  exists h',
    (ained_set_mask 12 ;;> ained_set_word 13 ones64 ;;> ained_commit)
      (set_index 7 (set_mask 1 sample_handle)) = Some (tt, h') /\
    bit_at h' 13 2 = true /\ bit_at h' 13 0 = false /\ stderr h' = [].
Proof.
  destruct (set_mask_set_word_commit (set_index 7 (set_mask 1 sample_handle)) 12 13 ones64)
    as (h' & E & Hb & _ & _ & _ & _ & _ & He).
  - repeat split.
  - lia.
  - exists h'. split; [exact E|].
    split; [exact (Hb 2 ltac:(lia))|]. split; [exact (Hb 0 ltac:(lia)) | exact He].
Defined.

(** A mask installed with [ained_set_mask] stays in the transaction buffer:
    the next [set_bit]/[commit] writes the addressed bit and, besides,
    clears every bit of the target word that the mask names. *)
Theorem set_mask_stays_in_transaction (h : ained) (m row col v : Z)
  (Hwf : wf h) (Hidle : index h < 0) (Hval : value h = 0)
  (Hv : valid_coord row col) :
  exists h',
    (ained_set_mask m ;;> ained_set_bit row col v ;;> ained_commit) h = Some (tt, h') /\
    forall k, 0 <= k < 64 ->
      bit_at h' (ained_get_index row col) k =
      if k =? ained_get_word_index row col then negb (v =? 0)
      else if Z.testbit m k then false
      else bit_at h (ained_get_index row col) k.
Proof.
  destruct Hwf as (Hlen & _ & _).
  pose proof (get_index_range row col Hv) as Hw.
  pose proof (get_word_index_range row col) as Hb.
  unfold ained_set_mask. erewrite bind_some by reflexivity.
  erewrite bind_some
    by (apply set_bit_accepted; [exact Hv | left; cbn [index set_reg_mask set_mask]; exact Hidle]).
  cbn zeta. cbn [mask value set_reg_mask set_mask]. rewrite Hval.
  match goal with |- context [ained_commit ?g] => set (h2 := g) end.
  destruct (commit_bits h2) as (h' & Ec & Hbits & _); [exact Hlen | cbn; lia |].
  cbn [index mask value h2 set_mask set_value set_index] in Hbits.
  exists h'. split; [exact Ec|].
  intros k Hk. rewrite Hbits by exact Hk.
  rewrite Z.lor_spec, testbit_bit64 by lia.
  rewrite (testbit_requested v 0 _ k) by lia. rewrite Z.bits_0.
  rewrite (Z.eqb_sym k).
  destruct (ained_get_word_index row col =? k); [rewrite orb_true_r; reflexivity|].
  rewrite orb_false_r. destruct (Z.testbit m k); reflexivity.
Qed.

Lemma set_mask_stays_in_transaction_witness :
  exists h',
    (ained_set_mask 6 ;;> ained_set_bit 0 0 1 ;;> ained_commit)
      (with_grid (replicate 128 ones64) sample_handle) = Some (tt, h') /\
    bit_at h' 0 0 = true /\ bit_at h' 0 1 = false /\ bit_at h' 0 3 = true.
Proof.
  destruct (set_mask_stays_in_transaction (with_grid (replicate 128 ones64) sample_handle) 6 0 0 1)
    as (h' & E & Hb).
  - repeat split.
  - cbn. lia.
  - reflexivity.
  - unfold valid_coord. lia.
  - exists h'. split; [exact E|].
    split; [exact (Hb 0 ltac:(lia))|]. split; [exact (Hb 1 ltac:(lia)) | exact (Hb 3 ltac:(lia))].
Defined.

(** [ained_set_word] does not test for a pending transaction: after a
    [set_bit] on one word, a [set_word] on another prints no
    [CrossWordConflict] and takes the transaction over.  The commit then
    writes the new word under the mask the [set_bit] built - the bit position
    of the [set_bit] takes its value from [word] - and the word the [set_bit]
    addressed is never written. *)
Theorem set_word_takes_over_pending (h : ained) (row col v offset word : Z)
  (Hwf : wf h) (Hidle : index h < 0) (Hmask : mask h = 0)
  (Hv : valid_coord row col) (Hoff : 0 <= offset < 128)
  (Hdiff : offset <> ained_get_index row col) :
  exists h',
    (ained_set_bit row col v ;;> ained_set_word offset word ;;> ained_commit) h
      = Some (tt, h') /\
    stderr h' = stderr h /\
    (forall k, 0 <= k < 64 ->
       bit_at h' offset k =
       if k =? ained_get_word_index row col then Z.testbit word k else bit_at h offset k) /\
    (forall k, bit_at h' (ained_get_index row col) k = bit_at h (ained_get_index row col) k).
Proof.
  destruct Hwf as (Hlen & _ & _).
  pose proof (get_index_range row col Hv) as Hw.
  pose proof (get_word_index_range row col) as Hb.
  erewrite bind_some by (apply set_bit_accepted; [exact Hv | left; exact Hidle]).
  cbn zeta. rewrite Hmask, Z.lor_0_l.
  unfold ained_set_word. erewrite bind_some by reflexivity.
  rewrite to_int32_small by lia.
  match goal with |- context [ained_commit ?g] => set (h2 := g) end.
  destruct (commit_bits h2)
    as (h' & Ec & Hbits & Hother & _ & _ & _ & _ & _ & _ & _ & _ & _ & He);
    [exact Hlen | cbn; lia |].
  cbn [index mask value stderr h2 set_mask set_value set_index] in Hbits, Hother, He.
  exists h'. split; [exact Ec|]. split; [exact He|]. split.
  - intros k Hk. rewrite Hbits by exact Hk. rewrite testbit_bit64 by lia.
    rewrite (Z.eqb_sym k). reflexivity.
  - intros k. apply Hother; lia.
Qed.

Lemma set_word_takes_over_pending_witness :
  exists h',
    (ained_set_bit 0 1 1 ;;> ained_set_word 5 0 ;;> ained_commit)
      (with_grid (replicate 128 ones64) sample_handle) = Some (tt, h') /\
    stderr h' = [] /\ bit_at h' 5 1 = false /\ bit_at h' 0 1 = true.
Proof.
  destruct (set_word_takes_over_pending (with_grid (replicate 128 ones64) sample_handle)
              0 1 1 5 0)
    as (h' & E & He & Hb & Ho).
  - repeat split.
  - cbn. lia.
  - reflexivity.
  - unfold valid_coord. lia.
  - lia.
  - vm_compute. discriminate.
  - exists h'. split; [exact E|]. split; [exact He|].
    split; [exact (Hb 1 ltac:(lia)) | exact (Ho 1)].
Defined.

(** ** Dipole seeds and coefficient groups *)

Lemma dipole_reg_small dipole k :
  0 <= dipole < 256 -> 0 <= k < 4 ->
  dipole_reg dipole k = 1024 + (4 * dipole + k).
Proof.
  intros Hd Hk. unfold dipole_reg, AINED_REG_DIPOLE_OFFSET, AINED_REG_DIPOLE_NUM_REG_PD.
  rewrite u32_small by lia. lia.
Qed.

Lemma dipole_reg_read_ok h dipole k :
  length (reg_dipole h) = 1024%nat -> 0 <= dipole < 256 -> 0 <= k < 4 ->
  dipole_reg_read (dipole_reg dipole k) h
  = Some (default 0 (reg_dipole h !! Z.to_nat (4 * dipole + k)), h).
Proof.
  intros Hlen Hd Hk. rewrite dipole_reg_small by assumption.
  unfold dipole_reg_read, AINED_REG_DIPOLE_OFFSET, num_reg32.
  replace ((1024 <=? 1024 + (4 * dipole + k)) && (1024 + (4 * dipole + k) <? 2048))
    with true by (symmetry; zbool).
  replace (1024 + (4 * dipole + k) - 1024) with (4 * dipole + k) by lia.
  destruct (lookup_lt_is_Some_2 (reg_dipole h) (Z.to_nat (4 * dipole + k))) as [x Hx]; [lia|].
  rewrite Hx. reflexivity.
Qed.

Lemma dipole_reg_write_ok h dipole k v :
  length (reg_dipole h) = 1024%nat -> 0 <= dipole < 256 -> 0 <= k < 4 ->
  dipole_reg_write (dipole_reg dipole k) v h
  = Some (tt, set_reg_dipole (<[Z.to_nat (4 * dipole + k) := v]> (reg_dipole h)) h).
Proof.
  intros Hlen Hd Hk. rewrite dipole_reg_small by assumption.
  unfold dipole_reg_write, AINED_REG_DIPOLE_OFFSET, num_reg32. rewrite Hlen.
  replace ((1024 <=? 1024 + (4 * dipole + k)) && (1024 + (4 * dipole + k) <? 2048)
           && (1024 + (4 * dipole + k) - 1024 <? Z.of_nat 1024))
    with true by (symmetry; zbool).
  replace (1024 + (4 * dipole + k) - 1024) with (4 * dipole + k) by lia.
  reflexivity.
Qed.

Lemma set_dipole_rng_accepted h dipole s0 s1 s2 :
  length (reg_dipole h) = 1024%nat ->
  0 <= dipole <= num_dipoles h -> dipole < 256 ->
  ained_set_dipole_rng dipole s0 s1 s2 h
  = Some (tt, set_reg_dipole
                (<[Z.to_nat (4 * dipole + 3) := s2]>
                 (<[Z.to_nat (4 * dipole + 2) := s1]>
                  (<[Z.to_nat (4 * dipole + 1) := s0]> (reg_dipole h)))) h).
Proof.
  intros Hlen Hd Hmap. unfold ained_set_dipole_rng.
  destruct (Z.ltb_spec (num_dipoles h) dipole); [lia|].
  erewrite bind_some by (apply dipole_reg_write_ok; [exact Hlen | lia | lia]).
  erewrite bind_some
    by (apply dipole_reg_write_ok;
        [cbn [reg_dipole set_reg_dipole]; rewrite length_insert; exact Hlen | lia | lia]).
  rewrite dipole_reg_write_ok
    by (cbn [reg_dipole set_reg_dipole]; rewrite ?length_insert; try exact Hlen; lia).
  reflexivity.
Qed.

(** Seeds written with [ained_set_dipole_rng] are the seeds
    [ained_get_dipole_rng] hands back, for every dipole index the guard lets
    through ([dipole <= num_dipoles]) inside the register mapping; the value
    returned is the dipole's output word, which the write does not touch, and
    a [NULL] out-parameter stays [NULL]. *)
Theorem dipole_seeds_round_trip (h : ained) (dipole s0 s1 s2 o0 o1 o2 : Z)
  (Hwf : wf h) (Hd : 0 <= dipole <= num_dipoles h) (Hmap : dipole < 256) :
  exists h',
    ained_set_dipole_rng dipole s0 s1 s2 h = Some (tt, h') /\
    ained_get_dipole_rng dipole (Some o0) (Some o1) (Some o2) h'
      = Some ((default 0 (reg_dipole h !! Z.to_nat (4 * dipole)),
               (Some s0, Some s1, Some s2)), h') /\
    ained_get_dipole_rng dipole None None None h'
      = Some ((default 0 (reg_dipole h !! Z.to_nat (4 * dipole)), (None, None, None)), h').
Proof.
  destruct Hwf as (_ & Hlen & _).
  eexists. split; [apply set_dipole_rng_accepted; assumption|].
  match goal with |- context [ained_get_dipole_rng _ _ _ _ ?g] => set (h' := g) end.
  assert (Hlen' : length (reg_dipole h') = 1024%nat)
    by (cbn [reg_dipole h' set_reg_dipole]; rewrite !length_insert; exact Hlen).
  assert (Hn : num_dipoles h' = num_dipoles h) by reflexivity.
  assert (Hlook : forall k, 0 <= k < 4 ->
            default 0 (reg_dipole h' !! Z.to_nat (4 * dipole + k)) =
            if k =? 3 then s2 else if k =? 2 then s1 else if k =? 1 then s0
            else default 0 (reg_dipole h !! Z.to_nat (4 * dipole))).
  { intros k Hk. cbn [reg_dipole h' set_reg_dipole].
    assert (Ek : k = 0 \/ k = 1 \/ k = 2 \/ k = 3) by lia.
    destruct Ek as [-> | [-> | [-> | ->]]]; cbn [Z.eqb Pos.eqb].
    - rewrite !list_lookup_insert_ne by lia. rewrite Z.add_0_r. reflexivity.
    - rewrite !list_lookup_insert_ne by lia.
      rewrite list_lookup_insert_eq by lia. reflexivity.
    - rewrite list_lookup_insert_ne by lia.
      rewrite list_lookup_insert_eq by (rewrite length_insert; lia). reflexivity.
    - rewrite list_lookup_insert_eq by (rewrite !length_insert; lia). reflexivity. }
  unfold ained_get_dipole_rng. rewrite Hn.
  destruct (Z.ltb_spec (num_dipoles h) dipole); [lia|].
  split.
  - unfold out_store.
    erewrite bind_some
      by (erewrite bind_some by (apply dipole_reg_read_ok; [exact Hlen' | lia | lia]);
          reflexivity).
    erewrite bind_some
      by (erewrite bind_some by (apply dipole_reg_read_ok; [exact Hlen' | lia | lia]);
          reflexivity).
    erewrite bind_some
      by (erewrite bind_some by (apply dipole_reg_read_ok; [exact Hlen' | lia | lia]);
          reflexivity).
    erewrite bind_some by (apply dipole_reg_read_ok; [exact Hlen' | lia | lia]).
    rewrite (Hlook 0), (Hlook 1), (Hlook 2), (Hlook 3) by lia. reflexivity.
  - unfold out_store.
    erewrite bind_some by reflexivity. erewrite bind_some by reflexivity.
    erewrite bind_some by reflexivity.
    erewrite bind_some by (apply dipole_reg_read_ok; [exact Hlen' | lia | lia]).
    rewrite (Hlook 0) by lia. reflexivity.
Qed.

Lemma dipole_seeds_round_trip_witness :
  exists h',
    ained_set_dipole_rng 1 11 22 33 sample_handle = Some (tt, h') /\
    ained_get_dipole_rng 1 (Some 0) (Some 0) (Some 0) h'
      = Some ((6, (Some 11, Some 22, Some 33)), h').
Proof.
  destruct (dipole_seeds_round_trip sample_handle 1 11 22 33 0 0 0) as (h' & E & Hg & _).
  - repeat split.
  - cbn. lia.
  - lia.
  - exists h'. split; [exact E | exact Hg].
Defined.

(** [ained_set_dipole_rng] writes the three seed registers of its block and
    nothing else: every other dipole register, the grid, the other registers,
    the transaction buffer and the diagnostics are unchanged. *)
Theorem set_dipole_rng_frame (h : ained) (dipole s0 s1 s2 : Z)
  (Hwf : wf h) (Hd : 0 <= dipole <= num_dipoles h) (Hmap : dipole < 256) :
  exists h',
    ained_set_dipole_rng dipole s0 s1 s2 h = Some (tt, h') /\
    (forall j : nat,
       j <> Z.to_nat (4 * dipole + 1) -> j <> Z.to_nat (4 * dipole + 2) ->
       j <> Z.to_nat (4 * dipole + 3) -> reg_dipole h' !! j = reg_dipole h !! j) /\
    memory h' = memory h /\ same_regs (set_reg_dipole (reg_dipole h') h) h' /\
    wf h'.
Proof.
  destruct Hwf as (Hm & Hlen & Hc).
  eexists. split; [apply set_dipole_rng_accepted; assumption|].
  split; [|split; [|split]].
  - intros j H1 H2 H3. cbn [reg_dipole set_reg_dipole].
    rewrite !list_lookup_insert_ne by congruence. reflexivity.
  - reflexivity.
  - repeat split.
  - unfold wf. cbn [memory reg_dipole reg_coeff set_reg_dipole].
    rewrite !length_insert. auto.
Qed.

Lemma set_dipole_rng_frame_witness :
  exists h',
    ained_set_dipole_rng 0 11 22 33 sample_handle = Some (tt, h') /\
    reg_dipole h' !! 4%nat = Some 6 /\ reg_dipole h' !! 0%nat = Some 5 /\
    memory h' = memory sample_handle.
Proof.
  destruct (set_dipole_rng_frame sample_handle 0 11 22 33) as (h' & E & Hf & Hm & _).
  - repeat split.
  - cbn. lia.
  - lia.
  - exists h'. split; [exact E|].
    split; [exact (Hf 4%nat ltac:(discriminate) ltac:(discriminate) ltac:(discriminate))|].
    split; [exact (Hf 0%nat ltac:(discriminate) ltac:(discriminate) ltac:(discriminate))
           | exact Hm].
Defined.

Lemma bytes_of_word v :
  0 <= v < 2 ^ 32 ->
  v mod 2 ^ 8 + 2 ^ 8 * ((v / 2 ^ 8) mod 2 ^ 8) + 2 ^ 16 * ((v / 2 ^ 16) mod 2 ^ 8)
  + 2 ^ 24 * ((v / 2 ^ 24) mod 2 ^ 8) = v.
Proof.
  intros Hv.
  pose proof (Z.div_mod v (2 ^ 8) ltac:(lia)) as H0.
  pose proof (Z.div_mod (v / 2 ^ 8) (2 ^ 8) ltac:(lia)) as H1.
  pose proof (Z.div_mod (v / 2 ^ 8 / 2 ^ 8) (2 ^ 8) ltac:(lia)) as H2.
  assert (E16 : v / 2 ^ 16 = v / 2 ^ 8 / 2 ^ 8)
    by (rewrite Z.div_div by lia; reflexivity).
  assert (E24 : v / 2 ^ 24 = v / 2 ^ 8 / 2 ^ 8 / 2 ^ 8)
    by (rewrite !Z.div_div by lia; reflexivity).
  assert (Hsmall : 0 <= v / 2 ^ 24 < 2 ^ 8)
    by (split; [apply Z.div_pos | apply Z.div_lt_upper_bound]; lia).
  rewrite (Z.mod_small (v / 2 ^ 24)) by exact Hsmall.
  rewrite E16, E24 in *. lia.
Qed.

(** A coefficient group written with [ained_set_coefficients] is read back
    unchanged by [ained_get_coefficients], and the other eleven groups read
    as before. *)
Theorem coefficients_round_trip (h : ained) (idx val : Z)
  (Hwf : wf h) (Hidx : 0 <= idx <= 11) (Hval : 0 <= val < 2 ^ 32) :
  exists h',
    ained_set_coefficients idx val h = Some (tt, h') /\
    ained_get_coefficients idx h' = Some (val, h') /\
    forall j, 0 <= j <= 11 -> j <> idx ->
      fst <$> ained_get_coefficients j h' = fst <$> ained_get_coefficients j h.
Proof.
  destruct Hwf as (_ & _ & Hlen).
  unfold ained_set_coefficients, ained_get_coefficients.
  destruct (Z.ltb_spec 11 idx); [lia|].
  unfold coeff_reg_write. rewrite Hlen.
  destruct (Z.ltb_spec (4 * idx + 3) (Z.of_nat 48)); [|lia].
  eexists. split; [reflexivity|]. split.
  - unfold coeff_reg_read. cbn [reg_coeff set_reg_coeff].
    rewrite list_lookup_insert_ne by lia.
    rewrite list_lookup_insert_ne by lia.
    rewrite list_lookup_insert_ne by lia.
    rewrite list_lookup_insert_eq by lia.
    rewrite list_lookup_insert_ne by lia.
    rewrite list_lookup_insert_ne by lia.
    rewrite list_lookup_insert_eq by (rewrite length_insert; lia).
    rewrite list_lookup_insert_ne by lia.
    rewrite list_lookup_insert_eq by (rewrite !length_insert; lia).
    rewrite list_lookup_insert_eq by (rewrite !length_insert; lia).
    rewrite bytes_of_word by exact Hval. reflexivity.
  - intros j Hj Hne. destruct (Z.ltb_spec 11 j); [lia|].
    unfold coeff_reg_read. cbn [reg_coeff set_reg_coeff].
    rewrite !list_lookup_insert_ne by lia.
    destruct (reg_coeff h !! Z.to_nat (4 * j)), (reg_coeff h !! Z.to_nat (4 * j + 1)),
      (reg_coeff h !! Z.to_nat (4 * j + 2)), (reg_coeff h !! Z.to_nat (4 * j + 3));
      reflexivity.
Qed.

Lemma coefficients_round_trip_witness :
  exists h',
    ained_set_coefficients 11 (2 ^ 32 - 2) sample_handle = Some (tt, h') /\
    ained_get_coefficients 11 h' = Some (2 ^ 32 - 2, h').
Proof.
  destruct (coefficients_round_trip sample_handle 11 (2 ^ 32 - 2)) as (h' & E & Hg & _).
  - repeat split.
  - lia.
  - lia.
  - exists h'. split; [exact E | exact Hg].
Defined.

(** The two kernels do not overlap: a generator run for one kernel writes the
    24 bytes of that kernel and leaves the 24 bytes of the other kernel, the
    grid and the rest of the handle as they were - for any factor, reach and
    [pow]. *)
Theorem kernel_leaves_other_kernel (pow : float -> float -> float) (h : ained)
  (factor : float) (reach : Z) (co_index : ained_coeff_t) (Hwf : wf h) :
  exists he hm,
    ained_set_coefficients_euclidean pow factor reach co_index h = Some (tt, he) /\
    ained_set_coefficients_manhattan pow factor reach co_index h = Some (tt, hm) /\
    (forall i, (i < 24)%nat ->
       reg_coeff he !! (24 - coeff_offset co_index + i)%nat
         = reg_coeff h !! (24 - coeff_offset co_index + i)%nat /\
       reg_coeff hm !! (24 - coeff_offset co_index + i)%nat
         = reg_coeff h !! (24 - coeff_offset co_index + i)%nat) /\
    same_regs (set_reg_coeff (reg_coeff he) h) he /\ memory he = memory h /\
    same_regs (set_reg_coeff (reg_coeff hm) h) hm /\ memory hm = memory h.
Proof.
  destruct Hwf as (_ & _ & Hlen).
  unfold ained_set_coefficients_euclidean, ained_set_coefficients_manhattan, store_coeffs.
  rewrite !kernel_fields_length, Hlen.
  replace (coeff_offset co_index + 24 <=? 48)%nat with true by (destruct co_index; reflexivity).
  eexists. eexists. split; [reflexivity|]. split; [reflexivity|].
  split; [|repeat split].
  intros i Hi. cbn [reg_coeff set_reg_coeff].
  split.
  - destruct co_index; cbn [coeff_offset].
    + apply list_lookup_inserts_ge. rewrite kernel_fields_length. lia.
    + apply list_lookup_inserts_lt. lia.
  - destruct co_index; cbn [coeff_offset].
    + apply list_lookup_inserts_ge. rewrite kernel_fields_length. lia.
    + apply list_lookup_inserts_lt. lia.
Qed.

Lemma kernel_leaves_other_kernel_witness :
  exists he,
    ained_set_coefficients_euclidean pow_base_one 1 3 AINED_COEFF_HIGH
      (set_reg_coeff (replicate 48 7) sample_handle) = Some (tt, he) /\
    reg_coeff he !! 24%nat = Some 7 /\ reg_coeff he !! 47%nat = Some 7.
Proof.
  destruct (kernel_leaves_other_kernel pow_base_one
              (set_reg_coeff (replicate 48 7) sample_handle) 1 3 AINED_COEFF_HIGH)
    as (he & hm & Ee & _ & Hf & _).
  - repeat split.
  - exists he. split; [exact Ee|].
    split; [exact (proj1 (Hf 0%nat ltac:(lia))) | exact (proj1 (Hf 23%nat ltac:(lia)))].
Defined.

Lemma in_reach_zero d : in_reach d 0 = false.
Proof.
  unfold in_reach.
  destruct (0 <? d)%float eqn:Hpos; [|reflexivity]. cbn [andb].
  change (double_of_int 0) with 0%float.
  rewrite ltb_spec in Hpos. rewrite leb_spec.
  change (Prim2SF 0) with (S754_zero false) in *.
  destruct (Prim2SF d) as [s | s | | s m e]; try discriminate Hpos.
  - destruct s; [discriminate Hpos | reflexivity].
  - destruct s; [discriminate Hpos | reflexivity].
Qed.

Lemma kernel_fields_explicit (cell : Z -> Z -> Z) :
  kernel_fields cell =
  [cell 0 1; cell 0 2; cell 0 3; cell 0 4;
   cell 1 0; cell 1 1; cell 1 2; cell 1 3; cell 1 4;
   cell 2 0; cell 2 1; cell 2 2; cell 2 3; cell 2 4;
   cell 3 0; cell 3 1; cell 3 2; cell 3 3; cell 3 4;
   cell 4 0; cell 4 1; cell 4 2; cell 4 3; cell 4 4].
Proof. reflexivity. Qed.

Lemma kernel_fields_const (cell : Z -> Z -> Z) x :
  (forall r c, cell r c = x) -> kernel_fields cell = replicate 24 x.
Proof.
  intros Hc. rewrite kernel_fields_explicit. rewrite !Hc. reflexivity.
Qed.

(** With [reach = 0] nothing is in reach: both generators store 0 in all 24
    bytes of the kernel, for every factor and every [pow]. *)
Theorem zero_reach_kernel (pow : float -> float -> float) (h : ained)
  (factor : float) (co_index : ained_coeff_t) (Hwf : wf h) :
  exists he hm,
    ained_set_coefficients_euclidean pow factor 0 co_index h = Some (tt, he) /\
    ained_set_coefficients_manhattan pow factor 0 co_index h = Some (tt, hm) /\
    forall i, (i < 24)%nat ->
      reg_coeff he !! (coeff_offset co_index + i)%nat = Some 0 /\
      reg_coeff hm !! (coeff_offset co_index + i)%nat = Some 0.
Proof.
  destruct Hwf as (_ & _ & Hl).
  assert (Hbyte : forall d, coeff_byte pow factor d 0 = 0).
  { intros d. unfold coeff_byte. rewrite in_reach_zero. vm_compute. reflexivity. }
  unfold ained_set_coefficients_euclidean, ained_set_coefficients_manhattan.
  rewrite (kernel_fields_const (fun r c => coeff_byte pow factor (euclidean_distance r c) 0) 0)
    by (intros; apply Hbyte).
  rewrite (kernel_fields_const (fun r c => coeff_byte pow factor (manhattan_distance r c) 0) 0)
    by (intros; apply Hbyte).
  destruct (store_coeffs_lookup h co_index (replicate 24 0) Hl eq_refl) as (h' & E & Hlook).
  exists h', h'. split; [exact E|]. split; [exact E|].
  intros i Hi. rewrite Hlook by exact Hi.
  rewrite lookup_replicate_2 by exact Hi. split; reflexivity.
Qed.

Lemma zero_reach_kernel_witness :
  exists he,
    ained_set_coefficients_euclidean pow_base_one 1 0 AINED_COEFF_LOW
      (set_reg_coeff (replicate 48 7) sample_handle) = Some (tt, he) /\
    reg_coeff he !! 24%nat = Some 0 /\ reg_coeff he !! 47%nat = Some 0.
Proof.
  destruct (zero_reach_kernel pow_base_one (set_reg_coeff (replicate 48 7) sample_handle)
              1 AINED_COEFF_LOW)
    as (he & hm & Ee & _ & Hz).
  - repeat split.
  - exists he. split; [exact Ee|].
    split; [exact (proj1 (Hz 0%nat ltac:(lia))) | exact (proj1 (Hz 23%nat ltac:(lia)))].
Defined.

(** Both kernels are symmetric: the byte stored for cell [(r, c)] is the
    byte stored for cell [(c, r)], for every factor, reach and [pow]. *)
Theorem kernel_is_symmetric (pow : float -> float -> float) (h : ained)
  (factor : float) (reach : Z) (co_index : ained_coeff_t) (r c : Z)
  (Hwf : wf h) (Hr : 0 <= r < 5) (Hc : 0 <= c < 5) (Hne : (r, c) <> (0, 0)) :
  exists he hm,
    ained_set_coefficients_euclidean pow factor reach co_index h = Some (tt, he) /\
    ained_set_coefficients_manhattan pow factor reach co_index h = Some (tt, hm) /\
    reg_coeff he !! (coeff_offset co_index + Z.to_nat (r * 5 + c - 1))%nat
      = reg_coeff he !! (coeff_offset co_index + Z.to_nat (c * 5 + r - 1))%nat /\
    reg_coeff hm !! (coeff_offset co_index + Z.to_nat (r * 5 + c - 1))%nat
      = reg_coeff hm !! (coeff_offset co_index + Z.to_nat (c * 5 + r - 1))%nat.
Proof.
  destruct Hwf as (_ & _ & Hl).
  assert (Hne' : (c, r) <> (0, 0)) by (intros E; apply Hne; injection E; congruence).
  unfold ained_set_coefficients_euclidean, ained_set_coefficients_manhattan.
  destruct (store_coeffs_lookup h co_index
              (kernel_fields (fun r c => coeff_byte pow factor (euclidean_distance r c) reach))
              Hl (kernel_fields_length _)) as (he & Ee & He).
  destruct (store_coeffs_lookup h co_index
              (kernel_fields (fun r c => coeff_byte pow factor (manhattan_distance r c) reach))
              Hl (kernel_fields_length _)) as (hm & Em & Hm).
  exists he, hm. split; [exact Ee|]. split; [exact Em|].
  rewrite !He, !Hm by lia.
  rewrite !kernel_fields_lookup by assumption.
  unfold euclidean_distance, manhattan_distance.
  replace (c * c + r * r) with (r * r + c * c) by lia.
  replace (c + r - 1) with (r + c - 1) by lia.
  split; reflexivity.
Qed.

Lemma kernel_is_symmetric_witness :
  exists he,
    ained_set_coefficients_euclidean pow_base_one 1 3 AINED_COEFF_HIGH sample_handle
      = Some (tt, he) /\
    reg_coeff he !! 8%nat = reg_coeff he !! 20%nat.
Proof.
  destruct (kernel_is_symmetric pow_base_one sample_handle 1 3 AINED_COEFF_HIGH 1 4)
    as (he & hm & Ee & _ & Hs & _).
  - repeat split.
  - lia.
  - lia.
  - discriminate.
  - exists he. split; [exact Ee | exact Hs].
Defined.

(** ** Start-up: the dipole scan *)

Lemma scan_dipoles_spec (n : Z) (d : nat) : forall fuel h,
  length (reg_dipole h) = 1024%nat ->
  0 <= num_dipoles h -> num_dipoles h + Z.of_nat d = n -> n < 256 ->
  (d < fuel)%nat ->
  (forall k, num_dipoles h <= k < n -> default 0 (reg_dipole h !! Z.to_nat (4 * k)) <> 0) ->
  reg_dipole h !! Z.to_nat (4 * n) = Some 0 ->
  exists h',
    scan_dipoles fuel h = Some (tt, h') /\ num_dipoles h' = n /\
    reg_mask h' = reg_mask h /\ reg_coeff h' = reg_coeff h /\
    reg_bypass h' = reg_bypass h /\ reg_dipole h' = reg_dipole h /\
    memory h' = memory h /\ index h' = index h /\ mask h' = mask h /\
    value h' = value h /\ stderr h' = stderr h.
Proof.
  induction d as [|d IH]; intros fuel h Hlen Hk Hsum Hn Hfuel Hnz Hz.
  - destruct fuel as [|fuel]; [lia|]. cbn [scan_dipoles].
    rewrite dipole_reg_read_ok by (try assumption; lia).
    rewrite Z.add_0_r.
    replace (num_dipoles h) with n by lia. rewrite Hz. cbn.
    exists h. repeat split. lia.
  - destruct fuel as [|fuel]; [lia|]. cbn [scan_dipoles].
    rewrite dipole_reg_read_ok by (try assumption; lia).
    rewrite Z.add_0_r.
    destruct (Z.eqb_spec (default 0 (reg_dipole h !! Z.to_nat (4 * num_dipoles h))) 0) as [E|_].
    + exfalso. apply (Hnz (num_dipoles h)); [lia | exact E].
    + rewrite u32_small by lia.
      destruct (IH fuel (set_num_dipoles (num_dipoles h + 1) h))
        as (h' & E' & Hn' & Hrest); try assumption.
      * cbn [num_dipoles set_num_dipoles]. lia.
      * cbn [num_dipoles set_num_dipoles]. lia.
      * lia.
      * cbn [num_dipoles reg_dipole set_num_dipoles]. intros k Hr. apply Hnz. lia.
      * exists h'. split; [exact E'|]. split; [exact Hn'|]. exact Hrest.
Qed.

(** [ained_init] counts the dipoles by their output words: when the first 
    [n] dipole blocks start with a non-zero word and block [n] starts with 0,
    the handle it returns has [num_dipoles = n], no transaction pending and
    no diagnostics, and shows the two regions as they were mapped. *)
Theorem ained_init_counts_dipoles (r : reg_image) (m : list Z) (n : Z)
  (Hlen : length (img_dipole r) = 1024%nat) (Hn : 0 <= n < 256)
  (Hnz : forall k, 0 <= k < n -> default 0 (img_dipole r !! Z.to_nat (4 * k)) <> 0)
  (Hz : img_dipole r !! Z.to_nat (4 * n) = Some 0) :
  exists h,
    ained_init (Some r) (Some m) = Some (Some h) /\
    num_dipoles h = n /\ no_pending h /\ stderr h = [] /\
    memory h = m /\ reg_dipole h = img_dipole r /\ reg_coeff h = img_coeff r /\
    reg_mask h = img_mask r /\ reg_bypass h = img_bypass r.
Proof.
  unfold ained_init.
  destruct (scan_dipoles_spec n (Z.to_nat n) 257
              (mk_ained (img_mask r) (img_coeff r) (img_bypass r) (img_dipole r) m 0 0 0 0 []))
    as (h' & E & Hn' & Hrm & Hrc & Hrb & Hrd & Hm & _ & _ & _ & He);
    cbn [num_dipoles reg_dipole]; try assumption; try lia.
  cbn zeta. rewrite E. eexists. split; [reflexivity|].
  cbn [num_dipoles stderr memory reg_dipole reg_coeff reg_mask reg_bypass
       set_index set_value set_mask] in *.
  unfold no_pending. cbn [index mask value set_index set_value set_mask].
  repeat split; assumption.
Qed.

Lemma ained_init_counts_dipoles_witness :
  exists h,
    ained_init (Some (mk_reg_image 0 (replicate 48 0) 0
                        ([5; 1; 2; 3; 6; 4; 5; 6] ++ replicate 1016 0)))
               (Some (replicate 128 0)) = Some (Some h) /\
    num_dipoles h = 2 /\ no_pending h.
Proof.
  destruct (ained_init_counts_dipoles
              (mk_reg_image 0 (replicate 48 0) 0 ([5; 1; 2; 3; 6; 4; 5; 6] ++ replicate 1016 0))
              (replicate 128 0) 2)
    as (h & E & Hn & Hp & _).
  - reflexivity.
  - lia.
  - intros k Hk. assert (Ek : k = 0 \/ k = 1) by lia.
    destruct Ek as [-> | ->]; cbn; discriminate.
  - reflexivity.
  - exists h. split; [exact E|]. split; [exact Hn | exact Hp].
Defined.

(** ** Snapshot and game-over test *)

(** [ained_get_board] returns the sub-region in row-major order: the board
    has [num_row * num_col] entries, entry [num_col * i + j] is the bit (0 or
    1) that [ained_get_bit] reads at [(start_row + i, start_col + j)], and
    the handle is not changed. *)
Theorem get_board_row_major (h : ained) (start_row start_col num_row num_col : Z)
  (Hwf : wf h) (Hsr : 0 <= start_row) (Hsc : 0 <= start_col)
  (Hnr : 1 <= num_row) (Hnc : 1 <= num_col)
  (Hrows : start_row + num_row <= 128) (Hcols : start_col + num_col <= 64) :
  exists board,
    ained_get_board start_row start_col num_row num_col h = Some (board, h) /\
    Z.of_nat (length board) = num_row * num_col /\
    forall i j, 0 <= i < num_row -> 0 <= j < num_col ->
      exists b, (b = 0 \/ b = 1) /\
        board !! Z.to_nat (num_col * i + j) = Some b /\
        ained_get_bit (start_row + i) (start_col + j) h = Some (b, h).
Proof.
  destruct Hwf as (Hlen & _ & _).
  destruct (get_board_spec start_row start_col num_row num_col
              Hsr Hsc Hnr Hnc Hrows Hcols h Hlen) as (board & E & Hbl & Hb).
  exists board. split; [exact E|]. split; [exact Hbl|].
  intros i j Hi Hj.
  exists (Z.b2z (cell h (start_row + i) (start_col + j))).
  split; [destruct (cell h (start_row + i) (start_col + j)); cbn; auto|].
  split.
  - rewrite Hb by nia.
    destruct (region_div_mod num_col i (num_col * i + j)) as [-> ->]; [lia | lia |].
    do 3 f_equal. lia.
  - apply get_bit_ok; [exact Hlen | unfold valid_coord; lia].
Qed.

Lemma get_board_row_major_witness :
  exists board,
    ained_get_board 0 0 3 3
      (with_grid (<[0%nat := 2 ^ 9 + 2 ^ 1 + 2 ^ 63]> (replicate 128 0)) sample_handle)
      = Some (board,
              with_grid (<[0%nat := 2 ^ 9 + 2 ^ 1 + 2 ^ 63]> (replicate 128 0)) sample_handle) /\
    Z.of_nat (length board) = 3 * 3.
Proof.
  destruct (get_board_row_major
              (with_grid (<[0%nat := 2 ^ 9 + 2 ^ 1 + 2 ^ 63]> (replicate 128 0)) sample_handle)
              0 0 3 3) as (board & E & Hl & _); try lia.
  - repeat split.
  - exists board. split; [exact E | exact Hl].
Defined.

Section GameOver.

Variables start_row start_col num_row num_col : Z.
Hypothesis Hsr : 0 <= start_row.
Hypothesis Hsc : 0 <= start_col.
Hypothesis Hrows : start_row + num_row <= 128.
Hypothesis Hcols : start_col + num_col <= 64.

Lemma game_row_spec h i :
  length (memory h) = 128%nat -> 0 <= i < num_row ->
  forall n j0, 0 <= j0 -> j0 + Z.of_nat n <= num_col ->
    exists res,
      for_loop_ret n j0 (fun j =>
          b <~ ained_get_bit (u32 (start_row + i)) (u32 (start_col + j)) ;;
          ret (if b =? 1 then Some true else None)) h = Some (res, h) /\
      (res = Some true \/ res = None) /\
      (res = Some true <->
       exists j, j0 <= j < j0 + Z.of_nat n /\ cell h (start_row + i) (start_col + j) = true).
Proof.
  intros Hlen Hi. induction n as [|n IH]; intros j0 Hj0 Hn.
  - exists None. split; [reflexivity|]. split; [right; reflexivity|].
    split; [discriminate | intros (j & Hj & _); lia].
  - cbn [for_loop_ret].
    assert (Hbody : (b <~ ained_get_bit (u32 (start_row + i)) (u32 (start_col + j0)) ;;
                     ret (if b =? 1 then Some true else None)) h
                    = Some (if cell h (start_row + i) (start_col + j0)
                            then Some true else None, h)).
    { rewrite !u32_small by lia.
      erewrite bind_some by (apply get_bit_ok; [exact Hlen | unfold valid_coord; lia]).
      destruct (cell h (start_row + i) (start_col + j0)); reflexivity. }
    erewrite bind_some by exact Hbody.
    destruct (cell h (start_row + i) (start_col + j0)) eqn:Hc.
    + exists (Some true). split; [reflexivity|]. split; [left; reflexivity|].
      split; [|reflexivity]. intros _. exists j0. split; [lia | exact Hc].
    + destruct (IH (j0 + 1)) as (res & E & Hres & Hiff); [lia | lia |].
      exists res. split; [exact E|]. split; [exact Hres|].
      rewrite Hiff. split; intros (j & Hj & Hcj).
      * exists j. split; [lia | exact Hcj].
      * exists j. split; [|exact Hcj].
        destruct (Z.eq_dec j j0) as [->|]; [congruence | lia].
Qed.

Lemma game_rows_spec h :
  length (memory h) = 128%nat ->
  forall n i0, 0 <= i0 -> i0 + Z.of_nat n <= num_row ->
    exists res,
      for_loop_ret n i0 (fun i =>
          for_loop_ret (Z.to_nat num_col) 0 (fun j =>
            b <~ ained_get_bit (u32 (start_row + i)) (u32 (start_col + j)) ;;
            ret (if b =? 1 then Some true else None))) h = Some (res, h) /\
      (res = Some true \/ res = None) /\
      (res = Some true <->
       exists i j, i0 <= i < i0 + Z.of_nat n /\ 0 <= j < num_col /\
                   cell h (start_row + i) (start_col + j) = true).
Proof.
  intros Hlen. induction n as [|n IH]; intros i0 Hi0 Hn.
  - exists None. split; [reflexivity|]. split; [right; reflexivity|].
    split; [discriminate | intros (i & j & Hi & _); lia].
  - cbn [for_loop_ret].
    destruct (Z.le_gt_cases num_col 0) as [Hempty|Hpos].
    + (* no columns: every row is skipped *)
      replace (Z.to_nat num_col) with 0%nat by lia. cbn [for_loop_ret].
      erewrite bind_some by reflexivity.
      destruct (IH (i0 + 1)) as (res & E & Hres & Hiff); [lia | lia |].
      replace (Z.to_nat num_col) with 0%nat in E by lia.
      exists res. split; [exact E|]. split; [exact Hres|].
      rewrite Hiff. split; intros (i & j & Hi & Hj & _); lia.
    + destruct (game_row_spec h i0 Hlen ltac:(lia) (Z.to_nat num_col) 0)
        as (r1 & E1 & Hr1 & Hiff1); [lia | lia |].
      erewrite bind_some by exact E1.
      destruct Hr1 as [-> | ->].
      * exists (Some true). split; [reflexivity|]. split; [left; reflexivity|].
        split; [|reflexivity]. intros _.
        destruct (proj1 Hiff1 eq_refl) as (j & Hj & Hc).
        exists i0, j. split; [lia|]. split; [lia | exact Hc].
      * destruct (IH (i0 + 1)) as (res & E & Hres & Hiff); [lia | lia |].
        exists res. split; [exact E|]. split; [exact Hres|].
        rewrite Hiff. split; intros (i & j & Hi & Hj & Hc).
        -- exists i, j. split; [lia|]. split; [lia | exact Hc].
        -- exists i, j. split; [|split; [lia | exact Hc]].
           destruct (Z.eq_dec i i0) as [->|]; [|lia].
           exfalso. assert (Hsome : @None bool = Some true); [|discriminate Hsome].
           apply Hiff1. exists j. split; [lia | exact Hc].
Qed.

End GameOver.

(** [ained_game_not_over] answers [true] exactly when some cell of the
    sub-region is lit, for every sub-region inside the grid (an empty one
    included: the answer is [false]); it does not change the handle. *)
Theorem game_not_over_iff_lit_cell (h : ained) (start_row start_col num_row num_col : Z)
  (Hwf : wf h) (Hsr : 0 <= start_row) (Hsc : 0 <= start_col)
  (Hnr : 0 <= num_row) (Hnc : 0 <= num_col)
  (Hrows : start_row + num_row <= 128) (Hcols : start_col + num_col <= 64) :
  exists b,
    ained_game_not_over start_row start_col num_row num_col h = Some (b, h) /\
    (b = true <->
     exists r c, in_region start_row start_col num_row num_col r c = true /\
                 cell h r c = true).
Proof.
  destruct Hwf as (Hlen & _ & _).
  destruct (game_rows_spec start_row start_col num_row num_col Hsr Hsc Hrows Hcols h Hlen
              (Z.to_nat num_row) 0) as (res & E & Hres & Hiff); [lia | lia |].
  unfold ained_game_not_over. erewrite bind_some by exact E.
  exists (match res with Some b => b | None => false end). split; [reflexivity|].
  assert (Hb : match res with Some b => b | None => false end = true <-> res = Some true).
  { destruct Hres as [-> | ->]; split; intros; congruence. }
  rewrite Hb, Hiff. split.
  - intros (i & j & Hi & Hj & Hc). exists (start_row + i), (start_col + j).
    split; [unfold in_region; zbool | exact Hc].
  - intros (r & c & HR & Hc). unfold in_region in HR.
    apply andb_true_iff in HR. destruct HR as [HR H4].
    apply andb_true_iff in HR. destruct HR as [HR H3].
    apply andb_true_iff in HR. destruct HR as [H1 H2].
    apply Z.leb_le in H1. apply Z.ltb_lt in H2. apply Z.leb_le in H3. apply Z.ltb_lt in H4.
    exists (r - start_row), (c - start_col).
    split; [lia|]. split; [lia|].
    replace (start_row + (r - start_row)) with r by lia.
    replace (start_col + (c - start_col)) with c by lia. exact Hc.
Qed.

Lemma game_not_over_iff_lit_cell_witness :
  exists b,
    ained_game_not_over 0 0 3 3
      (with_grid (<[0%nat := 2 ^ 9]> (replicate 128 0)) sample_handle)
      = Some (b, with_grid (<[0%nat := 2 ^ 9]> (replicate 128 0)) sample_handle) /\
    b = true.
Proof.
  destruct (game_not_over_iff_lit_cell
              (with_grid (<[0%nat := 2 ^ 9]> (replicate 128 0)) sample_handle) 0 0 3 3)
    as (b & E & Hiff); try lia.
  - repeat split.
  - exists b. split; [exact E|]. apply Hiff. exists 1, 1. split; reflexivity.
Defined.

(** After [ained_clear_memory] the game is over on every sub-region inside
    the grid. *)
Theorem game_over_after_clear (h : ained) (start_row start_col num_row num_col : Z)
  (Hwf : wf h) (Hsr : 0 <= start_row) (Hsc : 0 <= start_col)
  (Hnr : 0 <= num_row) (Hnc : 0 <= num_col)
  (Hrows : start_row + num_row <= 128) (Hcols : start_col + num_col <= 64) :
  exists h',
    (ained_clear_memory ;;> ained_game_not_over start_row start_col num_row num_col) h
    = Some (false, h').
Proof.
  destruct Hwf as (Hlen & Hd & Hc).
  destruct (clear_memory_spec h Hlen)
    as (h1 & E1 & Hlen1 & Hz & _ & _ & Hc1 & Hd1 & _).
  erewrite bind_some by exact E1.
  destruct (game_not_over_iff_lit_cell h1 start_row start_col num_row num_col)
    as (b & E & Hiff); try assumption.
  { unfold wf. repeat split; congruence. }
  exists h1. rewrite E. do 2 f_equal.
  destruct b; [|reflexivity].
  destruct (proj1 Hiff eq_refl) as (r & c & HR & Hcell).
  pose proof (in_region_valid _ _ _ _ r c Hsr Hsc Hrows Hcols HR) as Hv.
  unfold cell, bit_at in Hcell.
  rewrite Hz, Z.bits_0 in Hcell by (apply get_index_range; exact Hv).
  discriminate Hcell.
Qed.

Lemma game_over_after_clear_witness :
  exists h',
    (ained_clear_memory ;;> ained_game_not_over 2 3 5 5)
      (with_grid (replicate 128 ones64) sample_handle) = Some (false, h').
Proof.
  apply (game_over_after_clear (with_grid (replicate 128 ones64) sample_handle) 2 3 5 5);
    try lia.
  repeat split.
Defined.

(** ** Reloading a board *)

Section Reconstruct.

Variable board : list Z.
Variables start_row start_col num_row num_col : Z.
Hypothesis Hsr : 0 <= start_row.
Hypothesis Hsc : 0 <= start_col.
Hypothesis Hnr : 1 <= num_row.
Hypothesis Hnc : 1 <= num_col.
Hypothesis Hrows : start_row + num_row <= 128.
Hypothesis Hcols : start_col + num_col <= 64.
Hypothesis Hboard : num_row * num_col <= Z.of_nat (length board).

Notation acc := (reconstruct_acc board start_row start_col num_row num_col).
Notation lin := (linear_index start_row start_col num_col).
Notation inr := (in_region start_row start_col num_row num_col).
Notation w0 := (ained_get_index start_row start_col).

Lemma reconstruct_acc_refl lo h : acc lo lo h h.
Proof.
  unfold reconstruct_acc. rewrite Z.ltb_irrefl.
  repeat (split; [reflexivity|]). split.
  - intros r c Hv Hw. split.
    + destruct (Z.leb_spec lo (lin r c)), (Z.ltb_spec (lin r c) lo); try lia;
        rewrite ?andb_false_r, ?orb_false_r; reflexivity.
    + destruct (Z.leb_spec lo (lin r c)), (Z.ltb_spec (lin r c) lo); try lia;
        rewrite ?andb_false_r; reflexivity.
  - exists []. split; [reflexivity|]. split; [constructor|].
    split; [reflexivity|]. intros r c _ Hx. lia.
Qed.

Lemma reconstruct_acc_trans lo mid hi h h1 h2 :
  lo <= mid <= hi -> acc lo mid h h1 -> acc mid hi h1 h2 -> acc lo hi h h2.
Proof.
  intros Hord (Hm1 & Hrm1 & Hrc1 & Hrb1 & Hrd1 & Hnd1 & Hi1 & Hb1 & l1 & He1 & Hf1 & Hz1 & Hn1)
              (Hm2 & Hrm2 & Hrc2 & Hrb2 & Hrd2 & Hnd2 & Hi2 & Hb2 & l2 & He2 & Hf2 & Hz2 & Hn2).
  unfold reconstruct_acc.
  repeat (split; [congruence|]). split; [|split].
  - rewrite Hi2, Hi1.
    destruct (Z.ltb_spec mid hi), (Z.ltb_spec lo mid), (Z.ltb_spec lo hi);
      try reflexivity; lia.
  - intros r c Hv Hw. destruct (Hb1 r c Hv Hw) as [Ea1 Eb1].
    destruct (Hb2 r c Hv Hw) as [Ea2 Eb2]. rewrite Ea2, Eb2, Ea1, Eb1.
    destruct (inr r c); cbn [andb]; [|rewrite !orb_false_r; split; reflexivity].
    destruct (Z.leb_spec lo (lin r c)), (Z.ltb_spec (lin r c) mid),
      (Z.leb_spec mid (lin r c)), (Z.ltb_spec (lin r c) hi);
      cbn [andb orb]; rewrite ?orb_false_r, ?orb_true_r; try (split; reflexivity); lia.
  - exists (l2 ++ l1). split; [rewrite He2, He1, app_assoc; reflexivity|].
    split; [apply Forall_app; split; assumption|]. split.
    + intros Hall. rewrite Hz1, Hz2; [reflexivity| |].
      * intros r c HR Hx. apply Hall; [exact HR | lia].
      * intros r c HR Hx. apply Hall; [exact HR | lia].
    + intros r c HR Hx Hne.
      destruct (Z.lt_ge_cases (lin r c) mid) as [Hlt|Hge].
      * pose proof (Hn1 r c HR ltac:(lia) Hne) as Hl1.
        intros Happ. apply app_eq_nil in Happ. destruct Happ as [_ Happ]. exact (Hl1 Happ).
      * pose proof (Hn2 r c HR ltac:(lia) Hne) as Hl2.
        intros Happ. apply app_eq_nil in Happ. destruct Happ as [Happ _]. exact (Hl2 Happ).
Qed.

Lemma region_cell_at_index i j r c :
  0 <= i < num_row -> 0 <= j < num_col ->
  inr r c && (num_col * i + j <=? lin r c) && (lin r c <? num_col * i + j + 1)
  = ((r =? start_row + i) && (c =? start_col + j)).
Proof.
  intros Hi Hj. unfold in_region, linear_index.
  destruct (Z.eqb_spec r (start_row + i)) as [->|Hr];
    [destruct (Z.eqb_spec c (start_col + j)) as [->|Hc]|]; cbn [andb].
  - replace (num_col * (start_row + i - start_row) + (start_col + j - start_col))
      with (num_col * i + j) by lia. zbool.
  - destruct (Z.leb_spec start_row (start_row + i)), (Z.ltb_spec (start_row + i) (start_row + num_row)),
      (Z.leb_spec start_col c), (Z.ltb_spec c (start_col + num_col)); cbn [andb]; try reflexivity.
    zbool.
  - destruct (Z.leb_spec start_row r), (Z.ltb_spec r (start_row + num_row)),
      (Z.leb_spec start_col c), (Z.ltb_spec c (start_col + num_col)); cbn [andb]; try reflexivity.
    destruct (Z.leb_spec (num_col * i + j) (num_col * (r - start_row) + (c - start_col)));
      [|reflexivity].
    destruct (Z.ltb_spec (num_col * (r - start_row) + (c - start_col)) (num_col * i + j + 1));
      [|reflexivity].
    exfalso. apply Hr.
    destruct (region_div_mod num_col (r - start_row) (num_col * i + j)) as [Hd _]; [lia | lia |].
    destruct (region_div_mod num_col i (num_col * i + j)) as [Hd' _]; [lia | lia |].
    lia.
Qed.

Lemma reconstruct_cell_step h i j :
  0 <= i < num_row -> 0 <= j < num_col ->
  index h = w0 \/ (index h < 0 /\ num_col * i + j = 0) ->
  exists h',
    (let index := u32 (i * num_col + j) in
     v <~ board_load board index ;;
     ained_set_bit (u32 (start_row + i)) (u32 (start_col + j)) v) h = Some (tt, h') /\
    acc (num_col * i + j) (num_col * i + j + 1) h h'.
Proof.
  intros Hi Hj Hpre. cbn zeta.
  assert (Hx : 0 <= num_col * i + j < num_row * num_col) by nia.
  assert (Harea : num_row * num_col <= 8192) by nia.
  assert (Hvi : valid_coord (start_row + i) (start_col + j)) by (unfold valid_coord; lia).
  assert (Hvs : valid_coord start_row start_col) by (unfold valid_coord; lia).
  pose proof (get_index_range _ _ Hvs) as Hw0.
  pose proof (get_word_index_range (start_row + i) (start_col + j)) as Hid.
  replace (i * num_col + j) with (num_col * i + j) by lia.
  rewrite !u32_small by lia.
  assert (Hload : board_load board (num_col * i + j) h
                  = Some (default 0 (board !! Z.to_nat (num_col * i + j)), h)).
  { unfold board_load.
    replace ((0 <=? num_col * i + j) && (num_col * i + j <? Z.of_nat (length board)))
      with true by (symmetry; zbool).
    destruct (lookup_lt_is_Some_2 board (Z.to_nat (num_col * i + j))) as [x Hlx]; [lia|].
    rewrite Hlx. reflexivity. }
  erewrite bind_some by exact Hload.
  set (v := default 0 (board !! Z.to_nat (num_col * i + j))).
  assert (Hrange : (num_col * i + j <? num_col * i + j + 1) = true) by (apply Z.ltb_lt; lia).
  destruct (Z.eq_dec (ained_get_index (start_row + i) (start_col + j)) w0) as [Hsame|Hother].
  - (* accepted *)
    rewrite set_bit_accepted; [|exact Hvi|destruct Hpre as [->|[Hneg _]]; [right; congruence | left; exact Hneg]].
    cbn zeta. eexists. split; [reflexivity|].
    unfold reconstruct_acc.
    cbn [memory reg_mask reg_coeff reg_bypass reg_dipole num_dipoles index mask value stderr
         set_mask set_value set_index].
    rewrite Hrange.
    repeat (split; [first [reflexivity | exact Hsame]|]). split.
    + intros r c Hv Hw.
      pose proof (get_word_index_range r c) as Hid'.
      rewrite region_cell_at_index by assumption.
      rewrite <- (valid_cells_differ r c _ _ Hv Hvi).
      rewrite Hw, Hsame, Z.eqb_refl. cbn [andb].
      rewrite Z.lor_spec, testbit_bit64 by lia.
      rewrite (testbit_requested v (value h) _ _) by lia.
      rewrite (Z.eqb_sym (ained_get_word_index r c)).
      destruct (Z.eqb_spec (ained_get_word_index (start_row + i) (start_col + j))
                           (ained_get_word_index r c)) as [Eid|Nid]; [|split; reflexivity].
      split; [reflexivity|].
      assert (Hrc : r = start_row + i /\ c = start_col + j).
      { apply to_physical_inj; try assumption. unfold to_physical. congruence. }
      destruct Hrc as [-> ->]. unfold board_bit, linear_index.
      replace (num_col * (start_row + i - start_row) + (start_col + j - start_col))
        with (num_col * i + j) by lia. reflexivity.
    + exists []. split; [reflexivity|]. split; [constructor|]. split; [reflexivity|].
      intros r c HR Hlin Hne. exfalso. apply Hne.
      pose proof (region_cell_at_index i j r c Hi Hj) as Hcell.
      rewrite HR in Hcell. cbn [andb] in Hcell.
      replace ((num_col * i + j <=? lin r c) && (lin r c <? num_col * i + j + 1)) with true
        in Hcell by (symmetry; zbool).
      symmetry in Hcell. apply andb_true_iff in Hcell. destruct Hcell as [Er Ec].
      apply Z.eqb_eq in Er. apply Z.eqb_eq in Ec. subst r c. exact Hsame.
  - (* rejected *)
    assert (Hidx : index h = w0).
    { destruct Hpre as [E|[_ Hz]]; [exact E|].
      exfalso. apply Hother. assert (i = 0 /\ j = 0) as [-> ->] by nia.
      rewrite !Z.add_0_r. reflexivity. }
    unfold ained_set_bit. rewrite Hidx, u32_small by lia.
    destruct (Z.leb_spec 0 w0); [|lia].
    destruct (Z.eqb_spec (ained_get_index (start_row + i) (start_col + j)) w0); [congruence|].
    cbn [andb negb]. eexists. split; [reflexivity|].
    unfold reconstruct_acc.
    cbn [memory reg_mask reg_coeff reg_bypass reg_dipole num_dipoles index mask value stderr
         report].
    rewrite Hrange.
    repeat (split; [first [reflexivity | exact Hidx]|]). split.
    + intros r c Hv Hw. rewrite region_cell_at_index by assumption.
      destruct (Z.eqb_spec r (start_row + i)) as [->|]; cbn [andb];
        [destruct (Z.eqb_spec c (start_col + j)) as [->|]|];
        rewrite ?orb_false_r; try (split; reflexivity).
      congruence.
    + exists [CrossWordConflict]. split; [reflexivity|].
      split; [repeat constructor|]. split; [|intros; discriminate].
      intros Hall. exfalso. apply Hother. apply Hall.
      * unfold in_region. zbool.
      * unfold linear_index. lia.
Qed.

Lemma reconstruct_row_spec i :
  0 <= i < num_row ->
  forall n j0 h,
    0 <= j0 -> j0 + Z.of_nat n <= num_col ->
    index h = w0 \/ (index h < 0 /\ num_col * i + j0 = 0) ->
    exists h',
      for_loop n j0 (fun col _ =>
          let index := u32 (i * num_col + col) in
          v <~ board_load board index ;;
          ained_set_bit (u32 (start_row + i)) (u32 (start_col + col)) v) tt h
        = Some (tt, h') /\
      acc (num_col * i + j0) (num_col * i + j0 + Z.of_nat n) h h'.
Proof.
  intros Hi. induction n as [|n IH]; intros j0 h Hj0 Hn Hpre.
  - exists h. split; [reflexivity|]. rewrite Z.add_0_r. apply reconstruct_acc_refl.
  - cbn [for_loop].
    destruct (reconstruct_cell_step h i j0 Hi ltac:(lia) Hpre) as (h1 & E1 & Hacc1).
    erewrite bind_some by exact E1.
    destruct (IH (j0 + 1) h1) as (h' & E & Hacc); [lia | lia | |].
    { left. destruct Hacc1 as (_ & _ & _ & _ & _ & _ & Hidx & _).
      rewrite Hidx. destruct (Z.ltb_spec (num_col * i + j0) (num_col * i + j0 + 1)); [reflexivity | lia]. }
    exists h'. split; [exact E|].
    apply (reconstruct_acc_trans _ (num_col * i + j0 + 1) _ h h1 h'); [lia | exact Hacc1 |].
    replace (num_col * i + j0 + Z.of_nat (S n)) with (num_col * i + (j0 + 1) + Z.of_nat n) by lia.
    replace (num_col * i + j0 + 1) with (num_col * i + (j0 + 1)) by lia.
    exact Hacc.
Qed.

Lemma reconstruct_rows_spec :
  forall n i0 h,
    0 <= i0 -> i0 + Z.of_nat n <= num_row ->
    index h = w0 \/ (index h < 0 /\ i0 = 0) ->
    exists h',
      for_loop n i0 (fun row _ =>
          for_loop (Z.to_nat num_col) 0 (fun col _ =>
            let index := u32 (row * num_col + col) in
            v <~ board_load board index ;;
            ained_set_bit (u32 (start_row + row)) (u32 (start_col + col)) v) tt) tt h
        = Some (tt, h') /\
      acc (num_col * i0) (num_col * (i0 + Z.of_nat n)) h h'.
Proof.
  induction n as [|n IH]; intros i0 h Hi0 Hn Hpre.
  - exists h. split; [reflexivity|]. rewrite Z.add_0_r. apply reconstruct_acc_refl.
  - cbn [for_loop].
    destruct (reconstruct_row_spec i0 ltac:(lia) (Z.to_nat num_col) 0 h)
      as (h1 & E1 & Hacc1); [lia | lia | |].
    { destruct Hpre as [E|[Hneg ->]]; [left; exact E | right; split; [exact Hneg | lia]]. }
    erewrite bind_some by exact E1.
    assert (Hidx1 : index h1 = w0).
    { destruct Hacc1 as (_ & _ & _ & _ & _ & _ & Hidx & _). rewrite Hidx.
      destruct (Z.ltb_spec (num_col * i0 + 0) (num_col * i0 + 0 + Z.of_nat (Z.to_nat num_col)));
        [reflexivity | lia]. }
    destruct (IH (i0 + 1) h1) as (h' & E & Hacc); [lia | lia | left; exact Hidx1 |].
    exists h'. split; [exact E|].
    apply (reconstruct_acc_trans _ (num_col * (i0 + 1)) _ h h1 h'); [nia | |].
    + replace (num_col * i0) with (num_col * i0 + 0) by lia.
      replace (num_col * (i0 + 1)) with (num_col * i0 + 0 + Z.of_nat (Z.to_nat num_col)) by lia.
      exact Hacc1.
    + replace (i0 + Z.of_nat (S n)) with (i0 + 1 + Z.of_nat n) by lia. exact Hacc.
Qed.

End Reconstruct.

Lemma reconstruct_board_cells (board : list Z) (h : ained)
  (start_row start_col num_row num_col : Z) :
  wf h -> index h < 0 -> mask h = 0 ->
  0 <= start_row -> 0 <= start_col -> 1 <= num_row -> 1 <= num_col ->
  start_row + num_row <= 128 -> start_col + num_col <= 64 ->
  num_row * num_col <= Z.of_nat (length board) ->
  exists h',
    ained_reconstruct_board board start_row start_col num_row num_col h = Some (tt, h') /\
    wf h' /\ no_pending h' /\ reg_bypass h' = 0 /\ reg_mask h' = 0 /\
    (forall r c, valid_coord r c ->
       cell h' r c =
       if in_region start_row start_col num_row num_col r c
          && in_first_tile start_row start_col r c
       then board_bit board (linear_index start_row start_col num_col r c)
       else cell h r c) /\
    exists l,
      stderr h' = l ++ stderr h /\ Forall (eq CrossWordConflict) l /\
      ((forall r c, in_region start_row start_col num_row num_col r c = true ->
          ained_get_index r c = ained_get_index start_row start_col) -> l = []) /\
      (forall r c, in_region start_row start_col num_row num_col r c = true ->
         ained_get_index r c <> ained_get_index start_row start_col -> l <> []).
Proof.
  intros (Hlen & Hdl & Hcl) Hidle Hmask Hsr Hsc Hnr Hnc Hrows Hcols Hboard.
  assert (Hvs : valid_coord start_row start_col) by (unfold valid_coord; lia).
  pose proof (get_index_range _ _ Hvs) as Hw0.
  assert (Harea : 0 < num_col * num_row) by nia.
  unfold ained_reconstruct_board.
  erewrite bind_some by apply set_bypass_eq.
  set (h1 := set_reg_mask ones64 (set_reg_bypass 1 h)).
  destruct (reconstruct_rows_spec board start_row start_col num_row num_col
              Hsr Hsc Hnr Hnc Hrows Hcols Hboard (Z.to_nat num_row) 0 h1)
    as (h2 & E2 & Hm2 & _ & Hrc2 & _ & Hrd2 & Hnd2 & Hi2 & Hb2 & l & He2 & Hf & Hz & Hnz);
    [lia | lia | right; split; [exact Hidle | reflexivity] |].
  erewrite bind_some by exact E2.
  replace (num_col * (0 + Z.of_nat (Z.to_nat num_row))) with (num_col * num_row) in * by lia.
  rewrite Z.mul_0_r in *.
  destruct (Z.ltb_spec 0 (num_col * num_row)); [|lia].
  cbn [memory reg_coeff reg_dipole num_dipoles mask value stderr h1
       set_reg_mask set_reg_bypass] in Hm2, Hrc2, Hrd2, Hnd2, Hb2, He2.
  destruct (commit_bits h2)
    as (h3 & E3 & Hbits & Hother & Hi3 & Hm3 & Hv3 & _ & Hlen3 & Hrc3 & _ & Hrd3 & _ & He3);
    [congruence | lia |].
  erewrite bind_some by exact E3. rewrite set_bypass_eq.
  eexists. split; [reflexivity|].
  split; [|split; [|split; [|split; [|split]]]].
  - unfold wf. cbn [memory reg_dipole reg_coeff set_reg_mask set_reg_bypass].
    repeat split; congruence.
  - unfold no_pending. cbn [index mask value set_reg_mask set_reg_bypass]. auto.
  - reflexivity.
  - reflexivity.
  - intros r c Hv.
    change (cell (set_reg_mask 0 (set_reg_bypass 0 h3)) r c) with (cell h3 r c).
    pose proof (get_index_range r c Hv) as Hw.
    pose proof (get_word_index_range r c) as Hid.
    unfold in_first_tile, cell.
    destruct (Z.eqb_spec (ained_get_index r c) (ained_get_index start_row start_col))
      as [Hsame|Hdiff].
    + rewrite Hsame. rewrite <- Hi2. rewrite Hbits by exact Hid.
      destruct (Hb2 r c Hv Hsame) as [Emask Eval]. rewrite Emask, Eval, Hmask, Z.bits_0.
      cbn [orb]. rewrite andb_true_r.
      destruct (in_region start_row start_col num_row num_col r c) eqn:HR; cbn [andb].
      * pose proof (in_region_index start_row start_col num_row num_col Hsr Hnr Hnc Hrows r c HR)
          as Hx.
        unfold linear_index in *.
        destruct (Z.leb_spec 0 (num_col * (r - start_row) + (c - start_col))); [|lia].
        destruct (Z.ltb_spec (num_col * (r - start_row) + (c - start_col)) (num_col * num_row));
          [|lia].
        reflexivity.
      * rewrite Hi2, <- Hsame. unfold bit_at, word_at. rewrite Hm2. reflexivity.
    + rewrite andb_false_r. rewrite Hother by (rewrite ?Hi2; lia).
      unfold bit_at, word_at. rewrite Hm2. reflexivity.
  - exists l. cbn [stderr set_reg_mask set_reg_bypass]. rewrite He3, He2.
    split; [reflexivity|]. split; [exact Hf|]. split.
    + intros Hall. apply Hz. intros r c HR _. apply Hall. exact HR.
    + intros r c HR Hne. apply (Hnz r c HR); [|exact Hne].
      pose proof (in_region_index start_row start_col num_row num_col Hsr Hnr Hnc Hrows r c HR).
      unfold linear_index. lia.
Qed.

Lemma region_in_one_tile start_row start_col num_row num_col r c :
  0 <= start_row -> 0 <= start_col ->
  start_row + num_row <= 128 -> start_col + num_col <= 64 ->
  (start_row + num_row - 1) / 8 = start_row / 8 ->
  (start_col + num_col - 1) / 8 = start_col / 8 ->
  in_region start_row start_col num_row num_col r c = true ->
  ained_get_index r c = ained_get_index start_row start_col.
Proof.
  intros Hsr Hsc Hrows Hcols Htr Htc HR.
  pose proof (in_region_valid _ _ _ _ r c Hsr Hsc Hrows Hcols HR) as Hv.
  unfold in_region in HR.
  apply andb_true_iff in HR. destruct HR as [HR H4].
  apply andb_true_iff in HR. destruct HR as [HR H3].
  apply andb_true_iff in HR. destruct HR as [H1 H2].
  apply Z.leb_le in H1. apply Z.ltb_lt in H2. apply Z.leb_le in H3. apply Z.ltb_lt in H4.
  assert (Hvs : valid_coord start_row start_col) by (unfold valid_coord; lia).
  destruct (get_index_valid r c Hv) as (-> & _ & _).
  destruct (get_index_valid _ _ Hvs) as (-> & _ & _).
  pose proof (Z.div_le_mono start_row r 8 ltac:(lia) H1).
  pose proof (Z.div_le_mono r (start_row + num_row - 1) 8 ltac:(lia) ltac:(lia)).
  pose proof (Z.div_le_mono start_col c 8 ltac:(lia) H3).
  pose proof (Z.div_le_mono c (start_col + num_col - 1) 8 ltac:(lia) ltac:(lia)).
  lia.
Qed.

(** A sub-region that lies inside one 8 x 8 tile is reloaded faithfully:
    with no transaction pending, after [ained_reconstruct_board] every cell
    of the sub-region holds its board entry (non-zero is lit), every other
    cell of the grid is unchanged, nothing is reported, no transaction is
    left pending and the bypass is off; [ained_get_board] then reads the
    board back, entry by entry, and returns the very board when its entries
    are bits. *)
Theorem reconstruct_board_in_one_tile (board : list Z) (h : ained)
  (start_row start_col num_row num_col : Z)
  (Hwf : wf h) (Hidle : index h < 0) (Hmask : mask h = 0)
  (Hsr : 0 <= start_row) (Hsc : 0 <= start_col)
  (Hnr : 1 <= num_row) (Hnc : 1 <= num_col)
  (Hrows : start_row + num_row <= 128) (Hcols : start_col + num_col <= 64)
  (Htile_r : (start_row + num_row - 1) / 8 = start_row / 8)
  (Htile_c : (start_col + num_col - 1) / 8 = start_col / 8)
  (Hboard : Z.of_nat (length board) = num_row * num_col) :
  exists h',
    ained_reconstruct_board board start_row start_col num_row num_col h = Some (tt, h') /\
    (forall r c, valid_coord r c ->
       cell h' r c =
       if in_region start_row start_col num_row num_col r c
       then board_bit board (linear_index start_row start_col num_col r c)
       else cell h r c) /\
    stderr h' = stderr h /\ no_pending h' /\ reg_bypass h' = 0 /\
    exists snapshot,
      ained_get_board start_row start_col num_row num_col h' = Some (snapshot, h') /\
      (forall i, 0 <= i < num_row * num_col ->
         snapshot !! Z.to_nat i = Some (Z.b2z (board_bit board i))) /\
      (Forall (fun v => v = 0 \/ v = 1) board -> snapshot = board).
Proof.
  destruct (reconstruct_board_cells board h start_row start_col num_row num_col)
    as (h' & E & Hwf' & Hnp & Hbp & _ & Hcells & l & He & _ & Hz & _);
    try assumption; try lia.
  assert (Hone : forall r c, in_region start_row start_col num_row num_col r c = true ->
                   ained_get_index r c = ained_get_index start_row start_col)
    by (intros r c; apply region_in_one_tile; assumption).
  exists h'. split; [exact E|].
  assert (Hcells' : forall r c, valid_coord r c ->
            cell h' r c =
            if in_region start_row start_col num_row num_col r c
            then board_bit board (linear_index start_row start_col num_col r c)
            else cell h r c).
  { intros r c Hv. rewrite Hcells by exact Hv. unfold in_first_tile.
    destruct (in_region start_row start_col num_row num_col r c) eqn:HR; [|reflexivity].
    rewrite (Hone r c HR), Z.eqb_refl. reflexivity. }
  split; [exact Hcells'|].
  split; [rewrite He, (Hz Hone); reflexivity|].
  split; [exact Hnp|]. split; [exact Hbp|].
  destruct Hwf' as (Hlen' & _).
  destruct (get_board_spec start_row start_col num_row num_col
              Hsr Hsc Hnr Hnc Hrows Hcols h' Hlen') as (snap & Es & Hsl & Hs).
  exists snap. split; [exact Es|].
  assert (Hsnap : forall i, 0 <= i < num_row * num_col ->
            snap !! Z.to_nat i = Some (Z.b2z (board_bit board i))).
  { intros i Hi. rewrite Hs by exact Hi.
    destruct (region_cell_of_index num_row num_col Hnc i Hi) as [Hq Hr].
    rewrite Hcells' by (unfold valid_coord; lia).
    replace (in_region start_row start_col num_row num_col
               (start_row + i / num_col) (start_col + i mod num_col)) with true
      by (symmetry; unfold in_region; zbool).
    unfold linear_index.
    replace (num_col * (start_row + i / num_col - start_row)
             + (start_col + i mod num_col - start_col)) with i; [reflexivity|].
    pose proof (Z.div_mod i num_col ltac:(lia)). lia. }
  split; [exact Hsnap|].
  intros Hbits. apply list_eq. intros n.
  destruct (Z.lt_ge_cases (Z.of_nat n) (num_row * num_col)) as [Hlt|Hge].
  - specialize (Hsnap (Z.of_nat n) ltac:(lia)). rewrite Nat2Z.id in Hsnap. rewrite Hsnap.
    unfold board_bit. rewrite Nat2Z.id.
    destruct (lookup_lt_is_Some_2 board n) as [v Hv]; [lia|].
    rewrite Hv. cbn [default]. f_equal.
    rewrite Forall_lookup in Hbits. destruct (Hbits n v Hv) as [-> | ->]; reflexivity.
  - rewrite !lookup_ge_None_2 by lia. reflexivity.
Qed.

Lemma reconstruct_board_in_one_tile_witness :
  exists h',
    ained_reconstruct_board [1; 0; 0; 1] 2 3 2 2
      (with_grid (replicate 128 ones64) sample_handle) = Some (tt, h') /\
    ained_get_board 2 3 2 2 h' = Some ([1; 0; 0; 1], h').
Proof.
  destruct (reconstruct_board_in_one_tile [1; 0; 0; 1]
              (with_grid (replicate 128 ones64) sample_handle) 2 3 2 2)
    as (h' & E & _ & _ & _ & _ & snap & Es & _ & Heq);
    [repeat split | cbn; lia | reflexivity | lia | lia | lia | lia | lia | lia
    | reflexivity | reflexivity | reflexivity |].
  exists h'. split; [exact E|]. rewrite Es. rewrite Heq; [reflexivity|].
    repeat (constructor; [lia|]). constructor.
Defined.

(** A sub-region that spans several tiles is not reloaded: every
    [set_bit] for a cell outside the tile of the first cell is rejected, so
    [ained_reconstruct_board] reports [CrossWordConflict] and leaves that
    cell with the value it had, while the cells of the first tile take their
    board entries. *)
Theorem reconstruct_board_drops_other_tiles (board : list Z) (h : ained)
  (start_row start_col num_row num_col r c : Z)
  (Hwf : wf h) (Hidle : index h < 0) (Hmask : mask h = 0)
  (Hsr : 0 <= start_row) (Hsc : 0 <= start_col)
  (Hnr : 1 <= num_row) (Hnc : 1 <= num_col)
  (Hrows : start_row + num_row <= 128) (Hcols : start_col + num_col <= 64)
  (Hboard : num_row * num_col <= Z.of_nat (length board))
  (HR : in_region start_row start_col num_row num_col r c = true)
  (Hother : ained_get_index r c <> ained_get_index start_row start_col) :
  exists h',
    ained_reconstruct_board board start_row start_col num_row num_col h = Some (tt, h') /\
    cell h' r c = cell h r c /\
    In CrossWordConflict (stderr h') /\
    cell h' start_row start_col = board_bit board 0.
Proof.
  destruct (reconstruct_board_cells board h start_row start_col num_row num_col)
    as (h' & E & _ & _ & _ & _ & Hcells & l & He & Hf & _ & Hnz); try assumption.
  exists h'. split; [exact E|]. split; [|split].
  - rewrite Hcells by exact (in_region_valid _ _ _ _ r c Hsr Hsc Hrows Hcols HR).
    unfold in_first_tile.
    destruct (Z.eqb_spec (ained_get_index r c) (ained_get_index start_row start_col));
      [congruence|].
    rewrite andb_false_r. reflexivity.
  - rewrite He. apply in_or_app. left.
    pose proof (Hnz r c HR Hother) as Hl.
    destruct l as [|d l]; [congruence|].
    inversion Hf; subst. left. reflexivity.
  - rewrite Hcells by (unfold valid_coord; lia).
    unfold in_first_tile. rewrite Z.eqb_refl, andb_true_r.
    replace (in_region start_row start_col num_row num_col start_row start_col) with true
      by (symmetry; unfold in_region; zbool).
    unfold linear_index. rewrite !Z.sub_diag, Z.mul_0_r. reflexivity.
Qed.

Lemma reconstruct_board_drops_other_tiles_witness :
  exists h',
    ained_reconstruct_board [1; 1] 7 0 2 1 sample_handle = Some (tt, h') /\
    cell h' 8 0 = false /\ In CrossWordConflict (stderr h') /\ cell h' 7 0 = true.
Proof.
  destruct (reconstruct_board_drops_other_tiles [1; 1] sample_handle 7 0 2 1 8 0)
    as (h' & E & Hc & Hi & Hf);
    [repeat split | cbn; lia | reflexivity | lia | lia | lia | lia | lia | lia
    | cbn; lia | reflexivity | vm_compute; discriminate |].
  exists h'. split; [exact E|]. split; [exact Hc|]. split; [exact Hi | exact Hf].
Defined.

(** ** More on [ained_flip_lights] *)

Lemma cross_at_origin_outside num_row num_col row col r c :
  0 <= row < num_row -> 0 <= col < num_col -> 0 <= r -> 0 <= c ->
  in_region 0 0 num_row num_col r c = false ->
  cross 0 0 num_row num_col row col r c = false.
Proof.
  intros Hrow Hcol Hr Hc. unfold in_region, cross. rewrite !Z.add_0_l.
  destruct (Z.leb_spec 0 r), (Z.leb_spec 0 c); try lia.
  destruct (Z.ltb_spec r num_row), (Z.ltb_spec c num_col); cbn [andb];
    try discriminate; intros _;
    destruct (Z.eqb_spec r row), (Z.eqb_spec c col),
      (Z.eqb_spec r (row - 1)), (Z.eqb_spec r (row + 1)); try lia;
    destruct (Z.eqb_spec c (col - 1)), (Z.eqb_spec c (col + 1)); try lia;
    destruct (Z.ltb_spec 0 row), (Z.ltb_spec row (num_row - 1)); try lia;
    destruct (Z.ltb_spec 0 col), (Z.ltb_spec col (num_col - 1)); try lia;
    reflexivity.
Qed.

Lemma flip_lights_origin_cells h num_row num_col row col :
  wf h -> no_pending h ->
  1 <= num_row <= 128 -> 1 <= num_col <= 64 ->
  0 <= row < num_row -> 0 <= col < num_col ->
  exists h',
    ained_flip_lights 0 0 num_row num_col row col h = Some (tt, h') /\
    wf h' /\ no_pending h' /\ reg_bypass h' = 0 /\ reg_mask h' = 0 /\
    stderr h' = stderr h /\
    forall r c, valid_coord r c ->
      cell h' r c =
      in_region 0 0 num_row num_col r c
      && xorb (cell h r c) (is_target_or_neighbour row col r c).
Proof.
  intros Hwf Hidle Hnr Hnc Hrow Hcol.
  assert (Hg : flip_lights_guard 0 0 num_row num_col row col = false).
  { unfold flip_lights_guard. rewrite !Z.add_0_l, !u32_small by lia. zbool. }
  destruct (flip_lights_cells 0 0 num_row num_col
              ltac:(lia) ltac:(lia) ltac:(lia) ltac:(lia) ltac:(lia) ltac:(lia)
              h row col Hwf Hidle ltac:(lia) ltac:(lia) ltac:(lia) ltac:(lia) Hg)
    as (h' & E & Hwf' & Hnp & Hb & Hm & He & Hc).
  exists h'. repeat (split; [assumption|]).
  intros r c Hv. rewrite Hc by exact Hv.
  destruct (in_region 0 0 num_row num_col r c) eqn:HR; cbn [andb].
  - unfold in_region in HR.
    apply andb_true_iff in HR. destruct HR as [HR H4].
    apply andb_true_iff in HR. destruct HR as [HR H3].
    apply andb_true_iff in HR. destruct HR as [H1 H2].
    apply Z.leb_le in H1. apply Z.ltb_lt in H2. apply Z.leb_le in H3. apply Z.ltb_lt in H4.
    rewrite cross_at_origin by lia. reflexivity.
  - destruct Hv. rewrite cross_at_origin_outside by (assumption || lia). reflexivity.
Qed.

(** [ained_flip_lights] keeps nothing of the grid outside the sub-region:
    on a sub-region anchored at the grid origin, with no transaction pending,
    every cell of the 128 x 64 grid outside the sub-region is off after the
    call, whatever it held before; the call reports nothing and leaves no
    transaction pending and the bypass off. *)
Theorem flip_lights_wipes_outside_region (h : ained) (num_row num_col row col : Z)
  (Hwf : wf h) (Hidle : no_pending h)
  (Hnr : 1 <= num_row <= 128) (Hnc : 1 <= num_col <= 64)
  (Hrow : 0 <= row < num_row) (Hcol : 0 <= col < num_col) :
  exists h',
    ained_flip_lights 0 0 num_row num_col row col h = Some (tt, h') /\
    (forall r c, valid_coord r c -> in_region 0 0 num_row num_col r c = false ->
       cell h' r c = false) /\
    no_pending h' /\ reg_bypass h' = 0 /\ reg_mask h' = 0 /\ stderr h' = stderr h.
Proof.
  destruct (flip_lights_origin_cells h num_row num_col row col Hwf Hidle Hnr Hnc Hrow Hcol)
    as (h' & E & _ & Hnp & Hb & Hm & He & Hc).
  exists h'. split; [exact E|]. split; [|auto].
  intros r c Hv HR. rewrite Hc by exact Hv. rewrite HR. reflexivity.
Qed.

Lemma flip_lights_wipes_outside_region_witness :
  exists h',
    ained_flip_lights 0 0 3 3 1 1 (with_grid (replicate 128 ones64) sample_handle)
      = Some (tt, h') /\
    cell h' 100 40 = false /\ cell h' 3 0 = false.
Proof.
  destruct (flip_lights_wipes_outside_region
              (with_grid (replicate 128 ones64) sample_handle) 3 3 1 1)
    as (h' & E & Hout & _);
    [repeat split | repeat split | lia | lia | lia | lia |].
  exists h'. split; [exact E|].
  split; apply Hout; unfold valid_coord; try lia; reflexivity.
Defined.

(** Two Lights-Out moves commute: on a sub-region anchored at the grid
    origin, with no transaction pending, flipping at [(row1, col1)] and then
    at [(row2, col2)] leaves every cell of the grid as flipping in the other
    order does. *)
Theorem flip_lights_moves_commute (h : ained)
  (num_row num_col row1 col1 row2 col2 : Z)
  (Hwf : wf h) (Hidle : no_pending h)
  (Hnr : 1 <= num_row <= 128) (Hnc : 1 <= num_col <= 64)
  (Hrow1 : 0 <= row1 < num_row) (Hcol1 : 0 <= col1 < num_col)
  (Hrow2 : 0 <= row2 < num_row) (Hcol2 : 0 <= col2 < num_col) :
  exists h12 h21,
    (ained_flip_lights 0 0 num_row num_col row1 col1 ;;>
     ained_flip_lights 0 0 num_row num_col row2 col2) h = Some (tt, h12) /\
    (ained_flip_lights 0 0 num_row num_col row2 col2 ;;>
     ained_flip_lights 0 0 num_row num_col row1 col1) h = Some (tt, h21) /\
    forall r c, valid_coord r c -> cell h12 r c = cell h21 r c.
Proof.
  destruct (flip_lights_origin_cells h num_row num_col row1 col1 Hwf Hidle Hnr Hnc Hrow1 Hcol1)
    as (h1 & E1 & Hwf1 & Hnp1 & _ & _ & _ & Hc1).
  destruct (flip_lights_origin_cells h1 num_row num_col row2 col2 Hwf1 Hnp1 Hnr Hnc Hrow2 Hcol2)
    as (h12 & E12 & _ & _ & _ & _ & _ & Hc12).
  destruct (flip_lights_origin_cells h num_row num_col row2 col2 Hwf Hidle Hnr Hnc Hrow2 Hcol2)
    as (h2 & E2 & Hwf2 & Hnp2 & _ & _ & _ & Hc2).
  destruct (flip_lights_origin_cells h2 num_row num_col row1 col1 Hwf2 Hnp2 Hnr Hnc Hrow1 Hcol1)
    as (h21 & E21 & _ & _ & _ & _ & _ & Hc21).
  exists h12, h21.
  split; [erewrite bind_some by exact E1; exact E12|].
  split; [erewrite bind_some by exact E2; exact E21|].
  intros r c Hv.
  rewrite Hc12, Hc1, Hc21, Hc2 by exact Hv.
  destruct (in_region 0 0 num_row num_col r c), (cell h r c),
    (is_target_or_neighbour row1 col1 r c), (is_target_or_neighbour row2 col2 r c);
    reflexivity.
Qed.

Lemma flip_lights_moves_commute_witness :
  exists h12 h21,
    (ained_flip_lights 0 0 3 3 0 0 ;;> ained_flip_lights 0 0 3 3 1 1) sample_handle
      = Some (tt, h12) /\
    (ained_flip_lights 0 0 3 3 1 1 ;;> ained_flip_lights 0 0 3 3 0 0) sample_handle
      = Some (tt, h21) /\
    cell h12 0 1 = cell h21 0 1.
Proof.
  destruct (flip_lights_moves_commute sample_handle 3 3 0 0 1 1)
    as (h12 & h21 & E12 & E21 & Hc);
    [repeat split | repeat split | lia | lia | lia | lia | lia | lia |].
  exists h12, h21. split; [exact E12|]. split; [exact E21|].
  apply Hc. unfold valid_coord. lia.
Defined.

(** ** Coordinates beyond the grid *)

(** The addressing functions check no bound: a column at or beyond 64 wraps
    onto the tiles of the next band of eight rows, so [(row, col + 64)] is the
    very cell [(row + 8, col)] for [ained_set_bit], [ained_get_bit] and
    [ained_flip_isolated_bit]. *)
Theorem column_beyond_grid_aliases_next_band (row col : Z)
  (Hrow : 0 <= row < 2 ^ 32 - 8) (Hcol : 0 <= col < 2 ^ 32 - 64) :
  to_physical row (col + 64) = to_physical (row + 8) col /\
  (forall v, ained_set_bit row (col + 64) v = ained_set_bit (row + 8) col v) /\
  ained_get_bit row (col + 64) = ained_get_bit (row + 8) col /\
  ained_flip_isolated_bit row (col + 64) = ained_flip_isolated_bit (row + 8) col.
Proof.
  assert (Hi : ained_get_index row (col + 64) = ained_get_index (row + 8) col).
  { unfold ained_get_index, bsize. f_equal.
    replace (col + 64) with (col + 8 * 8) by lia.
    replace (row + 8) with (row + 1 * 8) by lia.
    rewrite !Z.div_add by lia. lia. }
  assert (Hw : ained_get_word_index row (col + 64) = ained_get_word_index (row + 8) col).
  { unfold ained_get_word_index, bsize. f_equal.
    replace (col + 64) with (col + 8 * 8) by lia.
    replace (row + 8) with (row + 1 * 8) by lia.
    rewrite !Z.mod_add by lia. reflexivity. }
  split; [unfold to_physical; rewrite Hi, Hw; reflexivity|].
  split; [intros v; unfold ained_set_bit; rewrite Hi, Hw; reflexivity|].
  split; [unfold ained_get_bit | unfold ained_flip_isolated_bit]; rewrite Hi, Hw; reflexivity.
Qed.

Lemma column_beyond_grid_aliases_next_band_witness :
  to_physical 3 (5 + 64) = to_physical (3 + 8) 5 /\
  ained_get_bit 3 (5 + 64) = ained_get_bit (3 + 8) 5.
Proof.
  destruct (column_beyond_grid_aliases_next_band 3 5) as (Hp & _ & Hg & _); [lia | lia |].
  split; [exact Hp | exact Hg].
Defined.

(** [ained_set_bit] accepts a row beyond the last one: with no transaction
    pending it queues the bit without a diagnostic, the pending word index is
    at or beyond [num_words], and the following [ained_commit] indexes the
    grid outside its 128 words. *)
Theorem set_bit_beyond_last_row (h : ained) (row col v : Z)
  (Hidle : index h < 0) (Hrow : 128 <= row < 2 ^ 30) (Hcol : 0 <= col < 64) :
  exists h1,
    ained_set_bit row col v h = Some (tt, h1) /\
    stderr h1 = stderr h /\ num_words <= index h1 /\
    ained_commit h1 = None /\
    ained_get_bit row col h = None.
Proof.
  assert (Hq : 16 <= row / 8 < 2 ^ 27).
  { split; [apply Z.div_le_lower_bound | apply Z.div_lt_upper_bound]; lia. }
  assert (Hc : 0 <= col / 8 < 8).
  { split; [apply Z.div_pos | apply Z.div_lt_upper_bound]; lia. }
  assert (Hi : ained_get_index row col = row / 8 * 8 + col / 8).
  { unfold ained_get_index, bsize. cbv zeta. apply u32_small. lia. }
  assert (Hbig : 128 <= ained_get_index row col < 2 ^ 31) by (rewrite Hi; lia).
  assert (Hint : to_int32 (ained_get_index row col) = ained_get_index row col).
  { unfold to_int32. rewrite (u32_small (ained_get_index row col)) by lia.
    destruct (Z.ltb_spec (ained_get_index row col) (2 ^ 31)); [reflexivity|lia]. }
  assert (Hset : exists h1, ained_set_bit row col v h = Some (tt, h1) /\
                   stderr h1 = stderr h /\ index h1 = ained_get_index row col /\
                   reg_mask h1 = reg_mask h /\ memory h1 = memory h).
  { unfold ained_set_bit. cbv zeta.
    destruct (Z.leb_spec 0 (index h)); [lia|]. cbn [andb].
    destruct (negb (v =? 0)); eexists; (split; [reflexivity|]);
      cbn [stderr index reg_mask memory set_mask set_value set_index]; rewrite Hint; auto. }
  destruct Hset as (h1 & E1 & He & Hidx & _ & _).
  exists h1. split; [exact E1|]. split; [exact He|].
  split; [unfold num_words; lia|]. split.
  - unfold ained_commit. destruct (Z.ltb_spec (index h1) 0); [lia|].
    unfold bind, modify, mem_write.
    cbn [index value set_reg_mask].
    destruct (Z.leb_spec 0 (index h1)); [|lia].
    destruct (Z.ltb_spec (index h1) num_words); [unfold num_words in *; lia|].
    reflexivity.
  - unfold ained_get_bit, bind, mem_read. cbv zeta.
    destruct (Z.leb_spec 0 (ained_get_index row col)); [|lia].
    destruct (Z.ltb_spec (ained_get_index row col) num_words); [unfold num_words in *; lia|].
    reflexivity.
Qed.

Lemma set_bit_beyond_last_row_witness :
  exists h1,
    ained_set_bit 128 0 1 sample_handle = Some (tt, h1) /\
    ained_commit h1 = None.
Proof.
  destruct (set_bit_beyond_last_row sample_handle 128 0 1) as (h1 & E & _ & _ & Hc & _);
    [cbn; lia | lia | lia |].
  exists h1. split; [exact E | exact Hc].
Defined.

(** ** Reloading an empty board *)

Lemma for_loop_idle {A : Type} (body : Z -> A -> M A) :
  (forall i a h, body i a h = Some (a, h)) ->
  forall n i a h, for_loop n i body a h = Some (a, h).
Proof.
  intros Hbody n. induction n as [|n IH]; intros i a h; cbn [for_loop].
  - reflexivity.
  - erewrite bind_some by apply Hbody. apply IH.
Qed.

(** A sub-region without cells queues nothing: when [num_row] or [num_col]
    is zero and no transaction is pending, [ained_reconstruct_board] reports
    [NothingToCommit], leaves the grid and the transaction buffer as they
    were, and ends with the bypass off and the write mask zero. *)
Theorem reconstruct_board_without_cells (board : list Z) (h : ained)
  (start_row start_col num_row num_col : Z)
  (Hidle : index h < 0) (Hnr : 0 <= num_row) (Hnc : 0 <= num_col)
  (Hempty : num_row * num_col = 0) :
  exists h',
    ained_reconstruct_board board start_row start_col num_row num_col h = Some (tt, h') /\
    stderr h' = NothingToCommit :: stderr h /\
    memory h' = memory h /\
    index h' = index h /\ mask h' = mask h /\ value h' = value h /\
    reg_bypass h' = 0 /\ reg_mask h' = 0.
Proof.
  unfold ained_reconstruct_board.
  erewrite bind_some by apply set_bypass_eq.
  set (h1 := set_reg_mask ones64 (set_reg_bypass 1 h)).
  assert (Hloop : for_loop (Z.to_nat num_row) 0 (fun row _ =>
            for_loop (Z.to_nat num_col) 0 (fun col _ =>
              let index := u32 (row * num_col + col) in
              v <~ board_load board index ;;
              ained_set_bit (u32 (start_row + row)) (u32 (start_col + col)) v) tt) tt h1
          = Some (tt, h1)).
  { destruct (Z.eq_dec num_row 0) as [->|Hr]; [reflexivity|].
    assert (num_col = 0) as -> by nia.
    apply for_loop_idle. intros i [] h0. reflexivity. }
  erewrite bind_some by exact Hloop.
  assert (Hc : ained_commit h1 = Some (tt, report NothingToCommit h1)).
  { unfold ained_commit. change (index h1) with (index h).
    destruct (Z.ltb_spec (index h) 0); [reflexivity|lia]. }
  erewrite bind_some by exact Hc.
  rewrite set_bypass_eq. eexists. split; [reflexivity|].
  repeat split.
Qed.

Lemma reconstruct_board_without_cells_witness :
  exists h',
    ained_reconstruct_board [] 0 0 0 5 sample_handle = Some (tt, h') /\
    stderr h' = [NothingToCommit].
Proof.
  destruct (reconstruct_board_without_cells [] sample_handle 0 0 0 5)
    as (h' & E & He & _); [cbn; lia | lia | lia | lia |].
  exists h'. split; [exact E | exact He].
Defined.

(** ** Command-line front end: quoting *)

Lemma quote_detector_from_parity line :
  forall n, (n <= length line)%nat ->
    Main.quote_detector_from line n
    = Some (Nat.odd (leading_backslashes (reverse (take n line)))).
Proof.
  induction n as [|n IH]; intros Hn.
  - reflexivity.
  - cbn [Main.quote_detector_from].
    destruct (lookup_lt_is_Some_2 line n) as [ch Hch]; [lia|].
    rewrite lookup_app_l by lia.
    rewrite Hch. rewrite (take_S_r _ _ _ Hch), reverse_snoc.
    cbn [leading_backslashes].
    destruct (ch =? Main.backslash); [|reflexivity].
    rewrite IH by lia. rewrite Nat.odd_succ, <- Nat.negb_odd. reflexivity.
Qed.

(** A position of the line is quoted exactly when an odd number of
    backslashes ends right before it: for every [index] within the line,
    [quote_detector] returns the parity of that run of backslashes. *)
Theorem quote_detector_is_backslash_parity (line : list Z) (index : Z)
  (Hindex : 0 <= index <= Z.of_nat (length line)) :
  Main.quote_detector line index = Some (Nat.odd (backslashes_before line index)).
Proof.
  unfold Main.quote_detector, backslashes_before.
  destruct (Z.ltb_spec 0 index).
  - apply quote_detector_from_parity. lia.
  - replace index with 0 by lia. reflexivity.
Qed.

Lemma quote_detector_is_backslash_parity_witness :
  Main.quote_detector [97; 92; 92; 92; 32; 98] 4 = Some true.
Proof.
  rewrite (quote_detector_is_backslash_parity [97; 92; 92; 92; 32; 98] 4).
  - reflexivity.
  - cbn. lia.
Defined.

(** ** Command-line front end: escaping *)

Lemma buf_store_next (out : list Z) (free : nat) (ch : Z) :
  Main.buf_store ((Some <$> out) ++ replicate (S free) None) (Z.of_nat (length out)) ch
  = Some ((Some <$> (out ++ [ch])) ++ replicate free None).
Proof.
  unfold Main.buf_store.
  rewrite length_app, length_fmap, length_replicate.
  destruct (Z.leb_spec 0 (Z.of_nat (length out))); [|lia].
  destruct (Z.ltb_spec (Z.of_nat (length out)) (Z.of_nat (length out + S free))); [|lia].
  cbn [andb]. f_equal. rewrite Nat2Z.id.
  rewrite fmap_app, <- app_assoc. cbn [fmap list_fmap app].
  replace (length out) with (length (Some <$> out) + 0)%nat at 1
    by (rewrite length_fmap; lia).
  rewrite insert_app_r. reflexivity.
Qed.

Lemma escape_loop_spec (original : list Z) :
  forall todo done out free,
    original = done ++ todo ->
    (2 * length todo <= free)%nat ->
    Main.escape_loop (length todo) (Z.of_nat (length done)) (Z.of_nat (length out))
      original ((Some <$> out) ++ replicate free None)
    = Some (Z.of_nat (length (out ++ escaped_chars todo)),
            (Some <$> (out ++ escaped_chars todo))
            ++ replicate (free - length (escaped_chars todo)) None).
Proof.
  induction todo as [|ch todo IH]; intros done out free Horig Hfree.
  - cbn [length Main.escape_loop escaped_chars flat_map].
    rewrite app_nil_r, Nat.sub_0_r. reflexivity.
  - cbn [length] in Hfree. cbn [length Main.escape_loop].
    rewrite Nat2Z.id.
    assert (Hch : original !! length done = Some ch)
      by (rewrite Horig; apply list_lookup_middle; reflexivity).
    rewrite Hch.
    assert (Horig' : original = (done ++ [ch]) ++ todo)
      by (rewrite <- app_assoc; exact Horig).
    assert (Hi : Z.of_nat (length done) + 1 = Z.of_nat (length (done ++ [ch])))
      by (rewrite length_app; cbn [length]; lia).
    unfold escaped_chars at 1 2 3. cbn [flat_map]. fold (escaped_chars todo).
    destruct free as [|[|free]]; [lia | lia |].
    destruct (Z.eqb_spec ch Main.space) as [Hsp|Hsp].
    + rewrite buf_store_next.
      replace (Z.of_nat (length out) + 1) with (Z.of_nat (length (out ++ [Main.backslash])))
        by (rewrite length_app; cbn [length]; lia).
      rewrite buf_store_next.
      replace (Z.of_nat (length (out ++ [Main.backslash])) + 1)
        with (Z.of_nat (length ((out ++ [Main.backslash]) ++ [ch])))
        by (rewrite !length_app; cbn [length]; lia).
      rewrite Hi. rewrite (IH _ _ _ Horig') by lia.
      rewrite <- !app_assoc. cbn [app length]. reflexivity.
    + rewrite buf_store_next.
      replace (Z.of_nat (length out) + 1) with (Z.of_nat (length (out ++ [ch])))
        by (rewrite length_app; cbn [length]; lia).
      rewrite Hi. rewrite (IH _ _ _ Horig') by lia.
      rewrite <- !app_assoc. cbn [app length]. reflexivity.
Qed.

Lemma escaped_chars_length (original : list Z) :
  (length original <= length (escaped_chars original) <= 2 * length original)%nat.
Proof.
  induction original as [|ch l IH]; [cbn; lia|].
  unfold escaped_chars in *. cbn [flat_map]. rewrite length_app.
  destruct (ch =? Main.space); cbn [length]; lia.
Qed.

(** [escape] stays inside the block it allocates and returns the string
    with a backslash before each space: on a string that is not empty and
    not too long, every store lands in the [2 * len + 1] bytes of [malloc],
    and the block [realloc] returns holds the escaped characters, every byte
    written, and nothing else -- the NUL stored after them is cut off, so a
    string without a zero byte gives a block without one. *)
Theorem escape_returns_escaped_chars (size_max : Z) (original : list Z)
  (Hlen : Z.of_nat (length original) <= size_max / 2)
  (Hne : original <> []) :
  Main.escape size_max original = Some (Main.Escaped (Some <$> escaped_chars original)) /\
  (Forall (fun ch => ch <> 0) original ->
   Forall (fun b => b <> Some 0) (Some <$> escaped_chars original)).
Proof.
  split.
  - unfold Main.escape. cbv zeta.
    destruct (Z.ltb_spec (size_max / 2) (Z.of_nat (length original))); [lia|].
    replace (Z.to_nat (2 * Z.of_nat (length original) + 1))
      with (S (2 * length original)) by lia.
    pose proof (escape_loop_spec original original [] [] (S (2 * length original))
                  eq_refl ltac:(lia)) as Hloop.
    cbn [length fmap list_fmap app] in Hloop. change (Z.of_nat 0) with 0 in Hloop.
    rewrite Hloop.
    pose proof (escaped_chars_length original) as Hb.
    destruct (S (2 * length original) - length (escaped_chars original))%nat
      as [|free] eqn:Hfree; [lia|].
    rewrite buf_store_next.
    destruct (Z.eqb_spec (Z.of_nat (length (escaped_chars original))) 0) as [Hz|Hz].
    + destruct original; [congruence|]. cbn [length] in Hb. lia.
    + rewrite Nat2Z.id. do 2 f_equal.
      rewrite fmap_app, <- app_assoc.
      rewrite take_app_length'; [reflexivity|]. rewrite length_fmap. reflexivity.
  - intros Hnz. clear Hlen Hne. apply Forall_fmap. unfold escaped_chars.
    induction Hnz as [|ch l Hch Hl IH]; [constructor|].
    cbn [flat_map]. apply Forall_app. split; [|exact IH].
    destruct (ch =? Main.space); repeat constructor; cbn; try congruence.
    unfold Main.backslash. intros [=].
Qed.

Lemma escape_returns_escaped_chars_witness :
  Main.escape (2 ^ 32 - 1) [97; 32; 98]
  = Some (Main.Escaped [Some 97; Some 92; Some 32; Some 98]).
Proof.
  destruct (escape_returns_escaped_chars (2 ^ 32 - 1) [97; 32; 98]) as [E _].
  - vm_compute. discriminate.
  - discriminate.
  - exact E.
Defined.

(** ** Command-line front end: the [test] command *)

(** [test_memory] from any state of a full-length grid: word 13 gets the
    bits of [0xAAAAAAAAAAAAAAAA] set and word 1 the bits of
    [0x8000800080008000], every other bit of the grid is unchanged and no
    diagnostic is printed; the transaction buffer is left without a word
    index but with [0x8000800080008000] as its mask, which is also the
    write mask of the device. *)
Theorem test_memory_effect (h : ained) (Hlen : length (memory h) = 128%nat) :
  exists h',
    Main.test_memory h = Some (tt, h') /\
    (forall k, 0 <= k < 64 ->
       bit_at h' 13 k = Z.testbit 0xAAAAAAAAAAAAAAAA k || bit_at h 13 k) /\
    (forall k, 0 <= k < 64 ->
       bit_at h' 1 k = Z.testbit 0x8000800080008000 k || bit_at h 1 k) /\
    (forall w k, 0 <= w -> w <> 1 -> w <> 13 -> bit_at h' w k = bit_at h w k) /\
    index h' = -1 /\ value h' = 0 /\
    mask h' = 0x8000800080008000 /\ reg_mask h' = 0x8000800080008000 /\
    stderr h' = stderr h.
Proof.
  unfold Main.test_memory, ained_set_mask, ained_set_word.
  erewrite bind_some by reflexivity. erewrite bind_some by reflexivity.
  rewrite to_int32_small by lia.
  match goal with |- context [bind ained_commit _ ?g] => set (h2 := g) end.
  destruct (commit_bits h2)
    as (h3 & Ec & Hbits & Hother & Hi & Hm & Hv & Hrm & Hlen3 & _ & _ & _ & _ & He);
    [exact Hlen | cbn; lia |].
  cbn [index mask value stderr h2 set_mask set_value set_index set_reg_mask]
    in Hbits, Hother, Hrm, He.
  erewrite bind_some by exact Ec. erewrite bind_some by reflexivity.
  set (h4 := set_reg_mask 0x8000800080008000 (set_mask 0x8000800080008000 h3)).
  assert (Hlen4 : length (memory h4) = 128%nat) by exact Hlen3.
  rewrite (mem_write_ok h4 1 _ Hlen4) by lia.
  eexists. split; [reflexivity|].
  assert (Hw4 : forall w, word_at h4 w = word_at h3 w) by reflexivity.
  assert (Hones : forall k, 0 <= k < 64 -> Z.testbit 0xFFFFFFFFFFFFFFFF k = true).
  { intros k Hk. change 0xFFFFFFFFFFFFFFFF with (Z.ones 64).
    apply Z.ones_spec_low. lia. }
  split; [|split; [|split]].
  - intros k Hk. unfold bit_at.
    rewrite word_at_set_memory_insert by (exact Hlen4 || lia).
    change (13 =? 1) with false. cbv iota. rewrite Hw4.
    fold (bit_at h3 13 k). rewrite (Hbits k Hk), (Hones k Hk).
    destruct (Z.testbit 0xAAAAAAAAAAAAAAAA k); reflexivity.
  - intros k Hk. unfold bit_at.
    rewrite word_at_set_memory_insert by (exact Hlen4 || lia).
    change (1 =? 1) with true. cbv iota.
    rewrite testbit_masked_word by exact Hk.
    change (reg_mask h4) with 0x8000800080008000.
    rewrite (Hones k Hk), Hw4. fold (bit_at h3 1 k).
    rewrite (Hother 1 k) by lia.
    destruct (Z.testbit 0x8000800080008000 k); reflexivity.
  - intros w k Hw H1 H13. unfold bit_at.
    rewrite word_at_set_memory_insert by (exact Hlen4 || lia).
    destruct (Z.eqb_spec w 1); [lia|]. rewrite Hw4.
    fold (bit_at h3 w k). apply Hother; lia.
  - cbn [index value mask reg_mask stderr set_memory h4 set_reg_mask set_mask].
    repeat split; assumption.
Qed.

Lemma test_memory_effect_witness :
  exists h',
    Main.test_memory sample_handle = Some (tt, h') /\
    bit_at h' 13 1 = true /\ bit_at h' 13 0 = false /\ bit_at h' 1 15 = true.
Proof.
  destruct (test_memory_effect sample_handle) as (h' & E & H13 & H1 & _); [reflexivity|].
  exists h'. split; [exact E|].
  split; [exact (H13 1 ltac:(lia))|].
  split; [exact (H13 0 ltac:(lia)) | exact (H1 15 ltac:(lia))].
Defined.

(** ** Command-line front end: the [set] command *)

Lemma set_bit_commit_cells h row col v :
  length (memory h) = 128%nat -> index h < 0 -> mask h = 0 -> valid_coord row col ->
  exists h',
    (ained_set_bit row col v ;;> ained_commit) h = Some (tt, h') /\
    cell h' row col = negb (v =? 0) /\
    (forall r c, valid_coord r c -> (r, c) <> (row, col) -> cell h' r c = cell h r c) /\
    stderr h' = stderr h.
Proof.
  intros Hlen Hidle Hmask Hv.
  pose proof (get_index_range row col Hv) as Hw.
  pose proof (get_word_index_range row col) as Hb.
  erewrite bind_some by (apply set_bit_accepted; [exact Hv | left; exact Hidle]).
  cbn zeta. rewrite Hmask, Z.lor_0_l.
  match goal with |- context [ained_commit ?g] => set (h2 := g) end.
  destruct (commit_bits h2)
    as (h' & Ec & Hbits & Hother & _ & _ & _ & _ & _ & _ & _ & _ & _ & He);
    [exact Hlen | cbn; lia |].
  cbn [index mask value stderr h2 set_mask set_value set_index] in Hbits, Hother, He.
  exists h'. split; [exact Ec|]. split; [|split; [|exact He]].
  - unfold cell.
    rewrite Hbits by lia. rewrite testbit_bit64, Z.eqb_refl by lia.
    rewrite (testbit_requested v (value h) _ _) by lia. rewrite Z.eqb_refl.
    reflexivity.
  - intros r c Hrc Hne.
    pose proof (get_index_range r c Hrc) as Hw'.
    pose proof (get_word_index_range r c) as Hb'.
    unfold cell.
    destruct (Z.eq_dec (ained_get_index r c) (ained_get_index row col)) as [Heq|Hneq].
    + rewrite Heq, Hbits by lia. rewrite testbit_bit64 by lia.
      destruct (Z.eqb_spec (ained_get_word_index row col) (ained_get_word_index r c))
        as [Heb|Hneb]; [|reflexivity].
      exfalso. apply Hne.
      destruct (to_physical_inj r c row col Hrc Hv); [|congruence].
      unfold to_physical. congruence.
    + rewrite Hother by lia. reflexivity.
Qed.

Lemma set_memory_token_in_grid a v :
  0 <= v -> set_args_in_grid a -> set_args_in_grid (Main.set_memory_token a v).
Proof.
  unfold set_args_in_grid, valid_coord, Main.set_memory_token. intros Hv Ha. cbv zeta.
  destruct (Main.arg_count a =? 0).
  { destruct (Z.ltb_spec 127 v); cbn [Main.arg_row Main.arg_column Main.arg_value Main.arg_count Main.arg_msgs]; lia. }
  destruct (Main.arg_count a =? 1).
  { destruct (Z.ltb_spec 63 v); cbn [Main.arg_row Main.arg_column Main.arg_value Main.arg_count Main.arg_msgs]; lia. }
  destruct (Main.arg_count a =? 2).
  { destruct (negb ((v =? 0) || (v =? 1))); cbn [Main.arg_row Main.arg_column Main.arg_value Main.arg_count Main.arg_msgs]; lia. }
  cbn [Main.arg_row Main.arg_column Main.arg_value Main.arg_count Main.arg_msgs]. lia.
Qed.

Lemma set_memory_tokens_in_grid (strtoul : list Z -> Z) tokens :
  forall a, set_args_in_grid a ->
    set_args_in_grid
      (fold_left (fun a str => Main.set_memory_token a (u32 (strtoul str))) tokens a).
Proof.
  induction tokens as [|t tokens IH]; intros a Ha; cbn [fold_left]; [exact Ha|].
  apply IH. apply set_memory_token_in_grid; [|exact Ha].
  unfold u32. apply Z.mod_pos_bound. lia.
Qed.

Lemma set_bit_stays_in_grid h row col v :
  valid_coord row col -> index h < 128 ->
  exists h1,
    ained_set_bit row col v h = Some (tt, h1) /\
    index h1 < 128 /\ memory h1 = memory h.
Proof.
  intros Hv Hi. pose proof (get_index_range row col Hv) as Hw.
  unfold ained_set_bit. cbv zeta.
  destruct ((0 <=? index h) && negb (ained_get_index row col =? u32 (index h))).
  - eexists. split; [reflexivity|]. cbn [index memory report]. auto.
  - rewrite to_int32_small by lia.
    destruct (negb (v =? 0)); eexists; (split; [reflexivity|]);
      cbn [index memory set_mask set_value set_index]; split; (lia || reflexivity).
Qed.

Lemma commit_stays_in_grid h :
  length (memory h) = 128%nat -> index h < 128 ->
  exists h2, ained_commit h = Some (tt, h2) /\ length (memory h2) = 128%nat.
Proof.
  intros Hlen Hi. destruct (Z.lt_ge_cases (index h) 0) as [Hneg|Hpos].
  - unfold ained_commit. destruct (Z.ltb_spec (index h) 0); [|lia].
    eexists. split; [reflexivity | exact Hlen].
  - destruct (commit_bits h Hlen ltac:(lia)) as (h2 & E & _ & _ & _ & _ & _ & _ & Hl & _).
    exists h2. auto.
Qed.

(** The [set] command cannot leave the grid: whatever the line holds after
    its first four characters and whatever [strtoul] makes of the tokens,
    [set_memory] on a handle whose pending word, if any, is a grid word
    returns with a pending word inside the grid, and the [ained_commit] that
    follows stays within the 128 words. *)
Theorem set_memory_stays_in_grid (strtoul : list Z -> Z) (line : list Z) (h : ained)
  (Hline : 4 <= Z.of_nat (length line))
  (Hlen : length (memory h) = 128%nat) (Hidx : index h < 128) :
  exists msgs h1 h2,
    Main.set_memory strtoul line h = Some (msgs, h1) /\
    index h1 < 128 /\
    ained_commit h1 = Some (tt, h2) /\ length (memory h2) = 128%nat.
Proof.
  unfold Main.set_memory.
  destruct (Z.ltb_spec (Z.of_nat (length line)) 4); [lia|]. cbv zeta.
  destruct (drop 4 line) as [|ch s] eqn:Hs.
  - destruct (commit_stays_in_grid h Hlen Hidx) as (h2 & E & Hl).
    exists [Main.Usage], h, h2. auto.
  - set (a := fold_left _ _ _).
    assert (Ha : set_args_in_grid a).
    { apply set_memory_tokens_in_grid. unfold set_args_in_grid, valid_coord.
      cbn [Main.arg_row Main.arg_column]. lia. }
    destruct (negb (Main.arg_count a =? 3)).
    + destruct (commit_stays_in_grid h Hlen Hidx) as (h2 & E & Hl).
      eexists _, h, h2. split; [reflexivity|]. auto.
    + destruct (set_bit_stays_in_grid h _ _ (Main.arg_value a) Ha Hidx) as (h1 & E1 & Hi1 & Hm1).
      destruct (commit_stays_in_grid h1 ltac:(congruence) Hi1) as (h2 & E2 & Hl).
      exists (Main.arg_msgs a), h1, h2.
      split; [erewrite bind_some by exact E1; reflexivity|]. auto.
Qed.

Lemma set_memory_stays_in_grid_witness :
  exists msgs h1 h2,
    Main.set_memory strtoul_decimal
      [115; 101; 116; 32; 57; 32; 49; 48; 32; 49] sample_handle = Some (msgs, h1) /\
    ained_commit h1 = Some (tt, h2).
Proof.
  destruct (set_memory_stays_in_grid strtoul_decimal
              [115; 101; 116; 32; 57; 32; 49; 48; 32; 49] sample_handle)
    as (msgs & h1 & h2 & E & _ & Ec & _);
    [vm_compute; discriminate | reflexivity | cbn; lia |].
  exists msgs, h1, h2. split; [exact E | exact Ec].
Defined.

Lemma set_memory_token_row_rejected a v :
  Main.arg_count a = 0 -> 127 < v ->
  Main.set_memory_token a v
  = Main.mk_set_args (Main.arg_row a) (Main.arg_column a) (Main.arg_value a) 1
                     (Main.arg_msgs a ++ [Main.RowsRange]).
Proof.
  intros Hc Hv. unfold Main.set_memory_token. cbv zeta. rewrite Hc.
  change (0 =? 0) with true. cbv iota.
  destruct (Z.ltb_spec 127 v); [|lia]. reflexivity.
Qed.

Lemma set_memory_token_column a v :
  Main.arg_count a = 1 -> v <= 63 ->
  Main.set_memory_token a v
  = Main.mk_set_args (Main.arg_row a) v (Main.arg_value a) 2 (Main.arg_msgs a).
Proof.
  intros Hc Hv. unfold Main.set_memory_token. cbv zeta. rewrite Hc.
  change (1 =? 0) with false. change (1 =? 1) with true. cbv iota.
  destruct (Z.ltb_spec 63 v); [lia|].
  reflexivity.
Qed.

Lemma set_memory_token_value a v :
  Main.arg_count a = 2 -> v = 0 \/ v = 1 ->
  Main.set_memory_token a v
  = Main.mk_set_args (Main.arg_row a) (Main.arg_column a) v 3 (Main.arg_msgs a).
Proof.
  intros Hc Hv. unfold Main.set_memory_token. cbv zeta. rewrite Hc.
  change (2 =? 0) with false. change (2 =? 1) with false. change (2 =? 2) with true.
  cbv iota.
  replace (negb ((v =? 0) || (v =? 1))) with false by (destruct Hv as [-> | ->]; reflexivity).
  reflexivity.
Qed.

(** A row out of range is reported and then replaced by row 0: on a line
    of three tokens whose first reads above 127, the other two being a
    column up to 63 and a value 0 or 1, [set_memory] prints the range
    diagnostic and still queues the bit, so that after [ained_commit] the
    cell in row 0 of that column holds the value and every other cell is
    unchanged. *)
Theorem set_memory_row_out_of_range_sets_row_zero
  (strtoul : list Z -> Z) (line t1 t2 t3 : list Z) (h : ained)
  (Hline : 4 <= Z.of_nat (length line))
  (Htokens : Main.strtok_r_all (S (length (drop 4 line))) (drop 4 line) = [t1; t2; t3])
  (Hrow : 127 < u32 (strtoul t1))
  (Hcol : u32 (strtoul t2) <= 63)
  (Hval : u32 (strtoul t3) = 0 \/ u32 (strtoul t3) = 1)
  (Hlen : length (memory h) = 128%nat) (Hidle : index h < 0) (Hmask : mask h = 0) :
  exists h1 h2,
    Main.set_memory strtoul line h = Some ([Main.RowsRange], h1) /\
    ained_commit h1 = Some (tt, h2) /\
    cell h2 0 (u32 (strtoul t2)) = negb (u32 (strtoul t3) =? 0) /\
    (forall r c, valid_coord r c -> (r, c) <> (0, u32 (strtoul t2)) ->
       cell h2 r c = cell h r c).
Proof.
  assert (Hc0 : 0 <= u32 (strtoul t2)) by (unfold u32; apply Z.mod_pos_bound; lia).
  assert (Hv : valid_coord 0 (u32 (strtoul t2))) by (unfold valid_coord; lia).
  destruct (set_bit_commit_cells h 0 (u32 (strtoul t2)) (u32 (strtoul t3)) Hlen Hidle Hmask Hv)
    as (h2 & E & Hcell & Hrest & _).
  unfold bind in E.
  destruct (ained_set_bit 0 (u32 (strtoul t2)) (u32 (strtoul t3)) h) as [[[] h1]|] eqn:E1;
    [|discriminate E].
  exists h1, h2. split; [|auto].
  unfold Main.set_memory.
  destruct (Z.ltb_spec (Z.of_nat (length line)) 4); [lia|]. cbv zeta.
  rewrite Htokens.
  destruct (drop 4 line) as [|ch s]; [discriminate Htokens|].
  cbn [fold_left].
  rewrite (set_memory_token_row_rejected (Main.mk_set_args 0 0 0 0 []) _ eq_refl Hrow).
  cbn [Main.arg_count Main.arg_row Main.arg_column Main.arg_value Main.arg_msgs app].
  rewrite (set_memory_token_column (Main.mk_set_args 0 0 0 1 [Main.RowsRange]) _ eq_refl Hcol).
  cbn [Main.arg_count Main.arg_row Main.arg_column Main.arg_value Main.arg_msgs].
  rewrite (set_memory_token_value
             (Main.mk_set_args 0 (u32 (strtoul t2)) 0 2 [Main.RowsRange]) _ eq_refl Hval).
  cbn [Main.arg_count Main.arg_row Main.arg_column Main.arg_value Main.arg_msgs].
  change (3 =? 3) with true. cbn [negb app].
  erewrite bind_some by exact E1. reflexivity.
Qed.

Lemma set_memory_row_out_of_range_sets_row_zero_witness :
  exists h1 h2,
    Main.set_memory strtoul_decimal
      [115; 101; 116; 32; 50; 48; 48; 32; 53; 32; 49] sample_handle
      = Some ([Main.RowsRange], h1) /\
    ained_commit h1 = Some (tt, h2) /\
    cell h2 0 5 = true.
Proof.
  destruct (set_memory_row_out_of_range_sets_row_zero strtoul_decimal
              [115; 101; 116; 32; 50; 48; 48; 32; 53; 32; 49] [50; 48; 48] [53] [49]
              sample_handle)
    as (h1 & h2 & E & Ec & Hc & _);
    [vm_compute; discriminate | reflexivity | vm_compute; reflexivity
    | vm_compute; discriminate | right; reflexivity | reflexivity | cbn; lia | reflexivity |].
  exists h1, h2. split; [exact E|]. split; [exact Ec | exact Hc].
Defined.
